(** * Picfarto: the grid-partition and cell-extraction engine

    A shallow embedding of the grid editor ([GridCanvas]), the page-level
    handlers ([Home]), the client-side image utilities
    ([utils/imageProcessing]) and the server route ([/api/cut-image]).

    Conventions of the embedding.
    - A JavaScript [number] that carries a pixel coordinate is a rational
      [Q]: the arithmetic of the source ([+], [-], [*], [/], [Math.abs],
      [Math.min], [Math.max], [Math.floor]) is exact on it.  Rounding of
      IEEE doubles, [NaN] and the infinities are outside the model.
    - Row and column counts and array indices are integers [Z]; the
      sentinel [-1] of the nearest-line search is kept as it is.
    - React state is an explicit record; a handler is a function from the
      state of the last render to the next state.
    - A [JSZip] instance is a finite map from entry names to contents. *)

From Stdlib Require Import QArith Qminmax Qabs Qround Lqa Lia ZArith Ascii String Sorted.
From stdpp Require Import base list strings gmap pretty.

Local Open Scope Z_scope.

(** ** Numbers *)

Definition Qltb (a b : Q) : bool := negb (Qle_bool b a).

(** ** Data model *)

(** [{ position: number; isHorizontal: boolean }] *)
Record GridLine := mkGridLine { position : Q; isHorizontal : bool }.

(** [{ width: number, height: number }] *)
Record ImageSize := mkImageSize { width : Q; height : Q }.

(** The bound of a line on its axis: the height for a horizontal line,
    the width for a vertical one. *)
Definition bound (size : ImageSize) (l : GridLine) : Q :=
  if isHorizontal l then height size else width size.

Definition inBounds (size : ImageSize) (l : GridLine) : Prop :=
  (0 <= position l /\ position l <= bound size l)%Q.

(** [for (let i = 1; i < n; i++) push({ position: (i / n) * extent, isHorizontal })] *)
Definition pushLines (n : Z) (extent : Q) (horizontal : bool) : list GridLine :=
  (fun i => mkGridLine ((inject_Z i / inject_Z n) * extent)%Q horizontal)
    <$> seqZ 1 (n - 1).

(** Both regeneration paths run the same two loops: horizontal lines
    first, then vertical lines. *)
Definition evenGridLines (rows columns : Z) (size : ImageSize) : list GridLine :=
  pushLines rows (height size) true ++ pushLines columns (width size) false.

(** A call [onGridLinesChange(lines, width, height)]. *)
Record Notification := mkNotification
  { notifiedLines : list GridLine; notifiedWidth : Q; notifiedHeight : Q }.

(** [array[index]] for a [number] index: [undefined] ([None]) when the
    index is negative or past the end. *)
Definition at_index {A} (l : list A) (index : Z) : option A :=
  if index <? 0 then None else l !! Z.to_nat index.

(** ** components/GridCanvas *)
Module GridCanvas.

Record Props := mkProps { rows : Z; columns : Z }.

Inductive Cursor := cursor_default | ns_resize | ew_resize.

(** The component's [useState] cells, the size of the canvas raster
    ([canvas.width], [canvas.height]) and its cursor style. *)
Record State := mkState
  { imageSize : ImageSize;
    gridLines : list GridLine;
    activeLine : option Z;
    hoveredLine : option Z;
    imageLoaded : bool;
    canvasWidth : Q;
    canvasHeight : Q;
    cursor : Cursor }.

Definition initial : State :=
  mkState (mkImageSize 0 0) [] None None false 300 150 cursor_default.

Definition setGridLines (ls : list GridLine) (s : State) : State :=
  mkState (imageSize s) ls (activeLine s) (hoveredLine s) (imageLoaded s)
          (canvasWidth s) (canvasHeight s) (cursor s).

Definition setActiveLine (a : option Z) (s : State) : State :=
  mkState (imageSize s) (gridLines s) a (hoveredLine s) (imageLoaded s)
          (canvasWidth s) (canvasHeight s) (cursor s).

Definition setHoveredLine (h : option Z) (s : State) : State :=
  mkState (imageSize s) (gridLines s) (activeLine s) h (imageLoaded s)
          (canvasWidth s) (canvasHeight s) (cursor s).

Definition setCursor (c : Cursor) (s : State) : State :=
  mkState (imageSize s) (gridLines s) (activeLine s) (hoveredLine s)
          (imageLoaded s) (canvasWidth s) (canvasHeight s) c.

(** [img.onload]: the canvas takes the natural size of the image. *)
Definition onload (imgWidth imgHeight : Z) (s : State) : State :=
  mkState (mkImageSize (inject_Z imgWidth) (inject_Z imgHeight))
          (gridLines s) (activeLine s) (hoveredLine s) true
          (inject_Z imgWidth) (inject_Z imgHeight) (cursor s).

(** The effect on [rows, columns, imageSize]: nothing happens while
    the image size is unknown; otherwise the lines are rebuilt and the
    parent is notified (the page always passes [onGridLinesChange]). *)
Definition regenerate (p : Props) (s : State) : State * option Notification :=
  if Qeq_bool (width (imageSize s)) 0 || Qeq_bool (height (imageSize s)) 0
  then (s, None)
  else
    let newGridLines := evenGridLines (rows p) (columns p) (imageSize s) in
    (setGridLines newGridLines s,
     Some (mkNotification newGridLines (width (imageSize s)) (height (imageSize s)))).

(** A mouse event together with [canvas.getBoundingClientRect()].  The
    rectangle of a displayed canvas is not empty; a zero [rectWidth] or
    [rectHeight], where JavaScript divides by zero, is outside the
    model. *)
Record MouseEvent := mkMouseEvent
  { clientX : Q; clientY : Q;
    rectLeft : Q; rectTop : Q; rectWidth : Q; rectHeight : Q }.

Definition rasterX (s : State) (e : MouseEvent) : Q :=
  ((clientX e - rectLeft e) * (canvasWidth s / rectWidth e))%Q.

Definition rasterY (s : State) (e : MouseEvent) : Q :=
  ((clientY e - rectTop e) * (canvasHeight s / rectHeight e))%Q.

(** Perpendicular distance of the pointer to a line. *)
Definition distance (x y : Q) (line : GridLine) : Q :=
  if isHorizontal line then Qabs (y - position line) else Qabs (x - position line).

(** The body of [gridLines.forEach((line, index) => ...)] of both
    handlers, threaded through the two captured variables. *)
Fixpoint forEachLine (x y : Q) (lines : list GridLine) (index : nat)
         (minDistance : Q) (closestLine : Z) : Q * Z :=
  match lines with
  | [] => (minDistance, closestLine)
  | line :: rest =>
      if Qltb (distance x y line) minDistance
      then forEachLine x y rest (S index) (distance x y line) (Z.of_nat index)
      else forEachLine x y rest (S index) minDistance closestLine
  end.

(** [let closestLine = -1; let minDistance = 10; forEach ...] *)
Definition findLine (x y : Q) (lines : list GridLine) : Z :=
  snd (forEachLine x y lines 0 10 (-1)).

Definition handleMouseDown (s : State) (e : MouseEvent) : State :=
  let closestLine := findLine (rasterX s e) (rasterY s e) (gridLines s) in
  if closestLine =? -1 then s else setActiveLine (Some closestLine) s.

(** [newPosition]: the pointer coordinate on the axis of the line,
    constrained to the image. *)
Definition draggedPosition (size : ImageSize) (x y : Q) (line : GridLine) : Q :=
  if isHorizontal line
  then Qmax 0 (Qmin y (height size))
  else Qmax 0 (Qmin x (width size)).

(** The drag branch of [handleMouseMove]: [None] when
    [updatedLines[activeLine]] is [undefined] and reading its
    [isHorizontal] throws. *)
Definition dragLine (size : ImageSize) (x y : Q) (lines : list GridLine)
           (active : Z) : option (list GridLine) :=
  match at_index lines active with
  | None => None
  | Some line =>
      Some (<[Z.to_nat active :=
               mkGridLine (draggedPosition size x y line) (isHorizontal line)]> lines)
  end.

(** [canvas.style.cursor] for the search result; [None] when
    [gridLines[nearestLine]] is [undefined] and reading its
    [isHorizontal] throws. *)
Definition cursorFor (lines : list GridLine) (nearestLine : Z) : option Cursor :=
  if nearestLine =? -1 then Some cursor_default
  else match at_index lines nearestLine with
       | Some line => Some (if isHorizontal line then ns_resize else ew_resize)
       | None => None
       end.

(** The next state and the notification sent to the parent, if any;
    [None] when the handler throws. *)
Definition handleMouseMove (s : State) (e : MouseEvent)
  : option (State * option Notification) :=
  let x := rasterX s e in
  let y := rasterY s e in
  let nearestLine := findLine x y (gridLines s) in
  match cursorFor (gridLines s) nearestLine with
  | None => None
  | Some c =>
      let s1 := setCursor c (setHoveredLine (Some nearestLine) s) in
      match activeLine s with
      | None => Some (s1, None)
      | Some active =>
          match dragLine (imageSize s) x y (gridLines s) active with
          | None => None
          | Some updatedLines =>
              Some (setGridLines updatedLines s1,
                    Some (mkNotification updatedLines
                            (width (imageSize s)) (height (imageSize s))))
          end
      end
  end.

Definition handleMouseUp (s : State) : State := setActiveLine None s.

Definition handleMouseLeave (s : State) : State :=
  setActiveLine None (setHoveredLine None s).

(** *** The renderer *)

(** One [beginPath(); moveTo; lineTo; stroke()] with the style set
    before it. *)
Record Stroke := mkStroke
  { strokeStyle : string; lineWidth : Q;
    fromX : Q; fromY : Q; toX : Q; toY : Q }.

Inductive DrawOp :=
| ClearRect (x y w h : Q)
| DrawImage (dx dy : Q)
| StrokePath (stroke : Stroke).

(** The style chosen for the line at [index]: active, else hovered, else
    normal. *)
Definition lineStyle (active hovered : option Z) (index : nat) : string * Q :=
  if bool_decide (active = Some (Z.of_nat index))
  then ("rgba(0, 120, 255, 0.9)", 3%Q)
  else if bool_decide (hovered = Some (Z.of_nat index))
       then ("rgba(255, 100, 0, 0.8)", (5 # 2)%Q)
       else ("rgba(255, 0, 0, 0.7)", 2%Q).

Definition strokeOf (s : State) (line : GridLine) (index : nat) : Stroke :=
  let style := lineStyle (activeLine s) (hoveredLine s) index in
  if isHorizontal line
  then mkStroke style.1 style.2 0 (position line) (canvasWidth s) (position line)
  else mkStroke style.1 style.2 (position line) 0 (position line) (canvasHeight s).

(** [gridLines.forEach((line, index) => ...)] of [drawCanvas]. *)
Fixpoint strokeLines (s : State) (lines : list GridLine) (index : nat) : list DrawOp :=
  match lines with
  | [] => []
  | line :: rest => StrokePath (strokeOf s line index) :: strokeLines s rest (S index)
  end.

(** What [drawCanvas] sends to the 2D context, in order. *)
Definition drawCanvas (s : State) : list DrawOp :=
  ClearRect 0 0 (canvasWidth s) (canvasHeight s)
  :: (if imageLoaded s then [DrawImage 0 0] else [])
  ++ strokeLines s (gridLines s) 0.

End GridCanvas.

(** ** utils/imageProcessing *)
Module ImageProcessing.

(** One pass of the cell loop: the source rectangle handed to
    [ctx.drawImage] and the size of the canvas that [toDataURL]
    encodes. *)
Record DrawnCell := mkDrawnCell
  { sourceX : Q; sourceY : Q; sourceWidth : Q; sourceHeight : Q;
    pixelWidth : Z; pixelHeight : Z }.

(** [canvas.width = v]: the attribute is an unsigned integer, the
    fraction of a non-negative number is dropped.  A negative number,
    for which the browser keeps the default size of the canvas, is
    outside the model: it needs a line outside the image. *)
Definition canvasSize (v : Q) : Z := Qfloor v.

(** [.sort((a, b) => a - b)]: ascending and stable. *)
Fixpoint insertNumber (a : Q) (sorted : list Q) : list Q :=
  match sorted with
  | [] => [a]
  | b :: rest => if Qle_bool a b then a :: sorted else b :: insertNumber a rest
  end.

Definition sortNumbers (l : list Q) : list Q := foldr insertNumber [] l.

Definition drawCell (startX startY cellWidth cellHeight : Q) : DrawnCell :=
  mkDrawnCell startX startY cellWidth cellHeight
              (canvasSize cellWidth) (canvasSize cellHeight).

(** The nested loops over [allHorizontalPositions] and
    [allVerticalPositions]. *)
Definition cutAlong (allHorizontalPositions allVerticalPositions : list Q)
  : list DrawnCell :=
  i ← seq 0 (length allHorizontalPositions - 1);
  j ← seq 0 (length allVerticalPositions - 1);
  let startX := nth j allVerticalPositions 0%Q in
  let startY := nth i allHorizontalPositions 0%Q in
  let cellWidth := (nth (j + 1) allVerticalPositions 0 - startX)%Q in
  let cellHeight := (nth (i + 1) allHorizontalPositions 0 - startY)%Q in
  [drawCell startX startY cellWidth cellHeight].

Definition horizontalPositions (gridLines : list GridLine) (imageHeight : Q) : list Q :=
  0%Q :: sortNumbers (position <$> List.filter isHorizontal gridLines)
      ++ [imageHeight].

Definition verticalPositions (gridLines : list GridLine) (imageWidth : Q) : list Q :=
  0%Q :: sortNumbers
           (position <$> List.filter (fun line => negb (isHorizontal line)) gridLines)
      ++ [imageWidth].

Definition cutImageWithGridLines (gridLines : list GridLine)
           (imageWidth imageHeight : Q) : list DrawnCell :=
  cutAlong (horizontalPositions gridLines imageHeight)
           (verticalPositions gridLines imageWidth).

(** [img.width] and [img.height] are the natural size of the image. *)
Definition cutImageIntoGrid (imgWidth imgHeight rows columns : Z) : list DrawnCell :=
  let cellWidth := (inject_Z imgWidth / inject_Z columns)%Q in
  let cellHeight := (inject_Z imgHeight / inject_Z rows)%Q in
  row ← seqZ 0 rows;
  col ← seqZ 0 columns;
  [mkDrawnCell (inject_Z col * cellWidth) (inject_Z row * cellHeight)
               cellWidth cellHeight
               (canvasSize cellWidth) (canvasSize cellHeight)].

(** The point [(x, y)] lies in the source rectangle of the cell, taken
    closed on its top and left edge and open on the other two. *)
Definition covers (c : DrawnCell) (x y : Q) : bool :=
  Qle_bool (sourceX c) x && Qltb x (sourceX c + sourceWidth c)
  && Qle_bool (sourceY c) y && Qltb y (sourceY c + sourceHeight c).

(** *** The archive *)

(** [`image_${n}.png`] *)
Definition entryName (n : Z) : string := "image_" +:+ pretty n +:+ ".png".

Definition comma : ascii := ","%char.

Fixpoint untilComma (s : string) : string :=
  match s with
  | EmptyString => EmptyString
  | String c rest => if Ascii.eqb c comma then EmptyString else String c (untilComma rest)
  end.

Fixpoint afterComma (s : string) : option string :=
  match s with
  | EmptyString => None
  | String c rest => if Ascii.eqb c comma then Some rest else afterComma rest
  end.

(** [dataUrl.split(',')[1]]; [undefined] without a comma. *)
Definition secondField (dataUrl : string) : option string :=
  untilComma <$> afterComma dataUrl.

(** The slice loop of [b64toBlob]. [fuel] bounds the number of passes;
    every pass advances [offset] by [sliceSize]. *)
Fixpoint sliceLoop (fuel offset sliceSize : nat) (byteCharacters : list ascii)
         (byteArrays : list (list N)) : list (list N) :=
  match fuel with
  | O => byteArrays
  | S fuel' =>
      if (offset <? length byteCharacters)%nat
      then
        let slice := take sliceSize (drop offset byteCharacters) in
        let byteArray := (fun c => (N_of_ascii c mod 256)%N) <$> slice in
        sliceLoop fuel' (offset + sliceSize) sliceSize byteCharacters
                  (byteArrays ++ [byteArray])
      else byteArrays
  end.

Section Packager.

(** [atob]: the decoded binary string, or [None] when it throws. *)
Variable atob : string -> option (list ascii).

(** [b64toBlob(b64Data, 'image/png')] with the default slice size;
    the blob is the concatenation of its parts. *)
Definition b64toBlob (b64Data : string) : option (list N) :=
  byteCharacters ← atob b64Data;
  Some (concat (sliceLoop (length byteCharacters) 0 512 byteCharacters [])).

(** The [forEach] of [createAndDownloadZip]; [zip.file] adds the
    entry or replaces the one of that name. *)
Fixpoint addImages (gridImages : list string) (index : nat)
         (zip : gmap string (list N)) : option (gmap string (list N)) :=
  match gridImages with
  | [] => Some zip
  | dataUrl :: rest =>
      blob ← b64toBlob (default "undefined" (secondField dataUrl));
      addImages rest (S index) (<[entryName (Z.of_nat index + 1) := blob]> zip)
  end.

(** The archive handed to [saveAs] and its file name. *)
Definition createAndDownloadZip (gridImages : list string) (fileName : string)
  : option (gmap string (list N) * string) :=
  zip ← addImages gridImages 0 ∅;
  Some (zip, fileName +:+ ".zip").

End Packager.

End ImageProcessing.

(** ** app/page (Home) *)
Module Home.

(** The page's [useState] cells that the grid and the extraction read.
    [imageUrl] is [None] for [null]. *)
Record State := mkState
  { imageUrl : option string;
    rows : Z;
    columns : Z;
    gridLines : list GridLine;
    imageSize : ImageSize;
    downloadReady : bool;
    gridImages : list string }.

Definition initial : State :=
  mkState None 3 3 [] (mkImageSize 0 0) false [].

Definition setGridLines (ls : list GridLine) (s : State) : State :=
  mkState (imageUrl s) (rows s) (columns s) ls (imageSize s)
          (downloadReady s) (gridImages s).

Definition setImageSize (sz : ImageSize) (s : State) : State :=
  mkState (imageUrl s) (rows s) (columns s) (gridLines s) sz
          (downloadReady s) (gridImages s).

Definition handleImageUpload (url : string) (s : State) : State :=
  mkState (Some url) (rows s) (columns s) (gridLines s) (imageSize s) false [].

Definition handleGridChange (newRows newColumns : Z) (s : State) : State :=
  mkState (imageUrl s) newRows newColumns (gridLines s) (imageSize s)
          (downloadReady s) (gridImages s).

Definition handleGridLinesChange (n : Notification) (s : State) : State :=
  setImageSize (mkImageSize (notifiedWidth n) (notifiedHeight n))
               (setGridLines (notifiedLines n) s).

(** [!imageUrl]: [null] and the empty string are falsy. *)
Definition falsyUrl (u : option string) : bool :=
  match u with
  | None => true
  | Some u => String.eqb u ""
  end.

Definition handleResetGrid (s : State) : State :=
  if Qeq_bool (width (imageSize s)) 0 || Qeq_bool (height (imageSize s)) 0
     || falsyUrl (imageUrl s)
  then s
  else setGridLines (evenGridLines (rows s) (columns s) (imageSize s)) s.

(** The extraction [handleClientSideCut] awaits on a page that has an
    image URL: the custom grid lines when the page holds some and knows
    the image size, the uniform grid otherwise. [imgWidth] and
    [imgHeight] are the natural size of the image behind [imageUrl]. *)
Definition handleClientSideCut (s : State) (imgWidth imgHeight : Z)
  : list ImageProcessing.DrawnCell :=
  if (0 <? Z.of_nat (length (gridLines s)))
     && Qltb 0 (width (imageSize s)) && Qltb 0 (height (imageSize s))
  then ImageProcessing.cutImageWithGridLines
         (gridLines s) (width (imageSize s)) (height (imageSize s))
  else ImageProcessing.cutImageIntoGrid imgWidth imgHeight (rows s) (columns s).

End Home.

(** ** The page with its mounted canvas *)
Module App.

Record State := mkState { page : Home.State; canvas : GridCanvas.State }.

(** The props [<GridCanvas rows={rows} columns={columns} .../>]: no
    grid line is passed down. *)
Definition canvasProps (s : State) : GridCanvas.Props :=
  GridCanvas.mkProps (Home.rows (page s)) (Home.columns (page s)).

Definition deliver (n : option Notification) (p : Home.State) : Home.State :=
  match n with
  | Some n => Home.handleGridLinesChange n p
  | None => p
  end.

Inductive Event :=
| ImageUploaded (url : string)
| ImageLoaded (imgWidth imgHeight : Z)
| GridChanged (newRows newColumns : Z)
| MouseDown (e : GridCanvas.MouseEvent)
| MouseMove (e : GridCanvas.MouseEvent)
| MouseUp
| MouseLeave
| ResetGrid.

(** The regeneration effect runs after a render in which [rows],
    [columns] or the canvas' [imageSize] changed. *)
Definition runRegenerate (s : State) : State :=
  let '(c, n) := GridCanvas.regenerate (canvasProps s) (canvas s) in
  mkState (deliver n (page s)) c.

(** One event; [None] when the handler throws.  [GridChanged] is a call
    of [onGridChange] that changes a count: when both counts are the
    ones the page already holds, React keeps the state and does not run
    the effect again. *)
Definition step (s : State) (ev : Event) : option State :=
  match ev with
  | ImageUploaded url =>
      Some (mkState (Home.handleImageUpload url (page s)) GridCanvas.initial)
  | ImageLoaded w h =>
      Some (runRegenerate (mkState (page s) (GridCanvas.onload w h (canvas s))))
  | GridChanged r c =>
      Some (runRegenerate (mkState (Home.handleGridChange r c (page s)) (canvas s)))
  | MouseDown e =>
      Some (mkState (page s) (GridCanvas.handleMouseDown (canvas s) e))
  | MouseMove e =>
      match GridCanvas.handleMouseMove (canvas s) e with
      | Some (c, n) => Some (mkState (deliver n (page s)) c)
      | None => None
      end
  | MouseUp => Some (mkState (page s) (GridCanvas.handleMouseUp (canvas s)))
  | MouseLeave => Some (mkState (page s) (GridCanvas.handleMouseLeave (canvas s)))
  | ResetGrid => Some (mkState (Home.handleResetGrid (page s)) (canvas s))
  end.

Fixpoint run (s : State) (evs : list Event) : option State :=
  match evs with
  | [] => Some s
  | ev :: rest =>
      match step s ev with
      | Some s' => run s' rest
      | None => None
      end
  end.

Definition initial : State := mkState Home.initial GridCanvas.initial.

End App.


(** ** app/api/cut-image/route *)
Module CutImageRoute.

(** *** [parseInt] with no radix argument

    Leading white space (of the ASCII range), an optional sign, an
    optional [0x] prefix, then the longest run of digits. *)

Definition isWhiteSpace (c : ascii) : bool :=
  let n := nat_of_ascii c in
  (n =? 32)%nat || ((9 <=? n)%nat && (n <=? 13)%nat).

Fixpoint trimStart (s : string) : string :=
  match s with
  | String c rest => if isWhiteSpace c then trimStart rest else s
  | EmptyString => s
  end.

Definition digitValue (c : ascii) : option Z :=
  let n := Z.of_nat (nat_of_ascii c) in
  if (48 <=? n) && (n <=? 57) then Some (n - 48)
  else if (97 <=? n) && (n <=? 122) then Some (n - 97 + 10)
  else if (65 <=? n) && (n <=? 90) then Some (n - 65 + 10)
  else None.

(** The longest prefix of digits of the radix; [None] when it is empty. *)
Fixpoint digitsPrefix (radix : Z) (s : string) (acc : option Z) : option Z :=
  match s with
  | String c rest =>
      match digitValue c with
      | Some d =>
          if d <? radix
          then digitsPrefix radix rest (Some (default 0 acc * radix + d))
          else acc
      | None => acc
      end
  | EmptyString => acc
  end.

(** [None] is [NaN]. *)
Definition parseInt (input : string) : option Z :=
  let s := trimStart input in
  let '(sign, s) :=
    match s with
    | String "-" rest => (-1, rest)
    | String "+" rest => (1, rest)
    | _ => (1, s)
    end in
  let '(radix, s) :=
    match s with
    | String "0" (String "x" rest) => (16, rest)
    | String "0" (String "X" rest) => (16, rest)
    | _ => (10, s)
    end in
  (fun v => sign * v) <$> digitsPrefix radix s None.

(** [!n] for a number that is [NaN], [undefined] or an integer. *)
Definition falsy (n : option Z) : bool :=
  match n with
  | None => true
  | Some v => v =? 0
  end.

(** The argument of [sharp.extract]. *)
Record Region := mkRegion
  { left : Z; top : Z; regionWidth : Z; regionHeight : Z }.

(** [metadata.width] and [metadata.height]; [None] is [undefined]. *)
Record Metadata := mkMetadata { metaWidth : option Z; metaHeight : option Z }.

Inductive Response :=
| JsonError (status : Z) (error : string)
| ZipFile (zip : gmap string (list N)).

(** The response and the regions [sharp] was asked to extract. *)
Record Outcome := mkOutcome { response : Response; extracted : list Region }.

(** The two nested loops: the file name and the region of every cell,
    row by row. *)
Definition cellJobs (imageWidth imageHeight rows columns : Z)
  : list (string * Region) :=
  let cellWidth := imageWidth / columns in
  let cellHeight := imageHeight / rows in
  row ← seqZ 0 rows;
  col ← seqZ 0 columns;
  [(ImageProcessing.entryName (row * columns + col + 1),
    mkRegion (col * cellWidth) (row * cellHeight) cellWidth cellHeight)].

(** [zip.file(filename, cellBuffer)] for every fulfilled extraction, in
    the order the promises settle. *)
Definition addFiles (settled : list (string * list N)) : gmap string (list N) :=
  foldl (fun zip entry => <[entry.1 := entry.2]> zip) ∅ settled.

Section Route.

(** The uploaded file and what [sharp] does with it: [metadata()] and
    [extract(region).toBuffer()], each [None] when the promise
    rejects; [settleOrder] is the order in which the fulfilled
    extractions run their [then] callback. *)
Variable File : Type.
Variable sharpMetadata : File -> option Metadata.
Variable extractToBuffer : File -> Region -> option (list N).
Variable settleOrder : list (string * list N) -> list (string * list N).

(** [formData.get] of the three fields; [None] is [null]. *)
Record FormData := mkFormData
  { image : option File; rowsField : option string; columnsField : option string }.

Definition extractAll (imageFile : File) (jobs : list (string * Region))
  : option (list (string * list N)) :=
  mapM (fun job => (fun cellBuffer => (job.1, cellBuffer))
                     <$> extractToBuffer imageFile job.2) jobs.

Definition POST (formData : FormData) : Outcome :=
  let rows := parseInt (default "null" (rowsField formData)) in
  let columns := parseInt (default "null" (columnsField formData)) in
  match image formData with
  | None => mkOutcome (JsonError 400 "Missing required parameters") []
  | Some imageFile =>
      if falsy rows || falsy columns
      then mkOutcome (JsonError 400 "Missing required parameters") []
      else
        match sharpMetadata imageFile with
        | None => mkOutcome (JsonError 500 "Failed to process image") []
        | Some metadata =>
            if falsy (metaWidth metadata) || falsy (metaHeight metadata)
            then mkOutcome (JsonError 400 "Could not get image dimensions") []
            else
              let jobs := cellJobs (default 0 (metaWidth metadata))
                                   (default 0 (metaHeight metadata))
                                   (default 0 rows) (default 0 columns) in
              match extractAll imageFile jobs with
              | None =>
                  mkOutcome (JsonError 500 "Failed to process image") (jobs.*2)
              | Some settled =>
                  mkOutcome (ZipFile (addFiles (settleOrder settled))) (jobs.*2)
              end
        end
  end.

End Route.

Arguments mkFormData {File} _ _ _.
Arguments image {File} _.
Arguments rowsField {File} _.
Arguments columnsField {File} _.
Arguments extractAll {File} _ _ _.
Arguments POST {File} _ _ _ _.

End CutImageRoute.

(** ** app/page (Home): cutting and downloading *)
Module PageActions.

Section Capabilities.

(** [canvas.toDataURL('image/png')] after the draw of a cell, and [atob]
    as in the packager. *)
Variable toDataURL : ImageProcessing.DrawnCell -> string.
Variable atob : string -> option (list ascii).

(** [handleClientSideCut] when the image loads and a 2D context is
    there: the data URLs of the cells become [gridImages] and the
    download is ready.  Without an image URL nothing happens. *)
Definition handleClientSideCut (s : Home.State) (imgWidth imgHeight : Z) : Home.State :=
  if Home.falsyUrl (Home.imageUrl s) then s
  else Home.mkState (Home.imageUrl s) (Home.rows s) (Home.columns s)
         (Home.gridLines s) (Home.imageSize s) true
         (toDataURL <$> Home.handleClientSideCut s imgWidth imgHeight).

Definition resetImage (s : Home.State) : Home.State :=
  Home.mkState None (Home.rows s) (Home.columns s)
               (Home.gridLines s) (Home.imageSize s) false [].

(** What [handleDownload] does: nothing without images, otherwise the
    archive handed to [saveAs], or the alert when packaging throws. *)
Inductive Download :=
| nothing_to_download
| saved (archive : gmap string (list N)) (name : string)
| zip_failed.

Definition handleDownload (s : Home.State) : Download :=
  if (length (Home.gridImages s) =? 0)%nat then nothing_to_download
  else match ImageProcessing.createAndDownloadZip atob (Home.gridImages s) "grid-images" with
       | Some (archive, name) => saved archive name
       | None => zip_failed
       end.

(** *** The server path *)

Variable File : Type.
Variable sharpMetadata : File -> option CutImageRoute.Metadata.
Variable extractToBuffer : File -> CutImageRoute.Region -> option (list N).
Variable settleOrder : list (string * list N) -> list (string * list N).

(** The form [handleServerSideCut] posts: the file, [rows.toString()]
    and [columns.toString()]. *)
Definition request (imageFile : File) (s : Home.State) : CutImageRoute.FormData File :=
  CutImageRoute.mkFormData (Some imageFile)
    (Some (pretty (Home.rows s))) (Some (pretty (Home.columns s))).

(** What [handleServerSideCut] does once the route has answered: nothing
    without a file, the download of the archive when the response is ok,
    the client-side cut otherwise. *)
Inductive ServerCut :=
| no_image_file
| downloaded (archive : gmap string (list N)) (name : string)
| fell_back (s : Home.State).

Definition handleServerSideCut (imageFile : option File) (s : Home.State)
           (imgWidth imgHeight : Z) : ServerCut :=
  match imageFile with
  | None => no_image_file
  | Some imageFile =>
      match CutImageRoute.response
              (CutImageRoute.POST sharpMetadata extractToBuffer settleOrder
                 (request imageFile s)) with
      | CutImageRoute.ZipFile archive => downloaded archive "grid-images.zip"
      | CutImageRoute.JsonError _ _ =>
          fell_back (handleClientSideCut s imgWidth imgHeight)
      end
  end.

End Capabilities.

Arguments request {File} _ _.
Arguments handleServerSideCut _ {File} _ _ _ _ _ _ _.

End PageActions.

(** ** Vocabulary of the session invariants *)

(** [imageSize.width === 0 || imageSize.height === 0] is false. *)
Definition sizeKnown (size : ImageSize) : Prop :=
  Qeq_bool (width size) 0 || Qeq_bool (height size) 0 = false.

(** Every stored line, of the canvas and of the page, is within the
    bounds its owner holds. *)
Definition linesInBounds (s : App.State) : Prop :=
  ((0 <= width (GridCanvas.imageSize (App.canvas s)))%Q
   /\ (0 <= height (GridCanvas.imageSize (App.canvas s)))%Q
   /\ Forall (inBounds (GridCanvas.imageSize (App.canvas s)))
             (GridCanvas.gridLines (App.canvas s)))
  /\ ((0 <= width (Home.imageSize (App.page s)))%Q
      /\ (0 <= height (Home.imageSize (App.page s)))%Q
      /\ Forall (inBounds (Home.imageSize (App.page s)))
                (Home.gridLines (App.page s))).

(** Every image that finishes loading has a positive natural size. *)
Definition positiveImages (evs : list App.Event) : Prop :=
  Forall (fun ev => match ev with
                    | App.ImageLoaded w h => 0 < w /\ 0 < h
                    | _ => True
                    end) evs.

(** The canvas holds rows-1 horizontal lines followed by columns-1
    vertical lines, for the counts of the page. *)
Definition gridShape (s : App.State) : Prop :=
  sizeKnown (GridCanvas.imageSize (App.canvas s)) ->
  isHorizontal <$> GridCanvas.gridLines (App.canvas s)
  = replicate (Z.to_nat (Home.rows (App.page s) - 1)) true
    ++ replicate (Z.to_nat (Home.columns (App.page s) - 1)) false.

(** The page holds the very lines and size of the canvas. *)
Definition pageMirrorsCanvas (s : App.State) : Prop :=
  sizeKnown (GridCanvas.imageSize (App.canvas s)) ->
  Home.gridLines (App.page s) = GridCanvas.gridLines (App.canvas s)
  /\ Home.imageSize (App.page s) = GridCanvas.imageSize (App.canvas s).

Definition isResetGrid (ev : App.Event) : bool :=
  match ev with
  | App.ResetGrid => true
  | _ => false
  end.

Definition isUpload (ev : App.Event) : bool :=
  match ev with
  | App.ImageUploaded _ => true
  | _ => false
  end.

(** Two cells crop the same rectangle into the same number of pixels. *)
Definition sameCell (c d : ImageProcessing.DrawnCell) : Prop :=
  (ImageProcessing.sourceX c == ImageProcessing.sourceX d)%Q
  /\ (ImageProcessing.sourceY c == ImageProcessing.sourceY d)%Q
  /\ (ImageProcessing.sourceWidth c == ImageProcessing.sourceWidth d)%Q
  /\ (ImageProcessing.sourceHeight c == ImageProcessing.sourceHeight d)%Q
  /\ ImageProcessing.pixelWidth c = ImageProcessing.pixelWidth d
  /\ ImageProcessing.pixelHeight c = ImageProcessing.pixelHeight d.

(** A string of decimal digits. *)
Fixpoint decimal (s : string) : Prop :=
  match s with
  | EmptyString => True
  | String c rest => (exists d, (d < 10)%N /\ c = pretty_N_char d) /\ decimal rest
  end.

(** The string holds no comma. *)
Fixpoint commaFree (s : string) : bool :=
  match s with
  | EmptyString => true
  | String c rest => negb (Ascii.eqb c ImageProcessing.comma) && commaFree rest
  end.

(** A data URL: a header without a comma, a comma, and a payload without
    a comma that [atob] decodes. *)
Definition decodableUrl (atob : string -> option (list ascii)) (dataUrl : string) : Prop :=
  exists header payload,
    dataUrl = header +:+ String ImageProcessing.comma payload
    /\ commaFree header = true /\ commaFree payload = true
    /\ is_Some (atob payload).

(** ** Vocabulary of the partition statements *)

(** The intervals between consecutive boundaries of one axis. *)
Fixpoint consecutive (boundaries : list Q) : list (Q * Q) :=
  match boundaries with
  | a :: (c :: _) as rest => (a, c) :: consecutive rest
  | _ => []
  end.

(** [v] lies in the interval, closed at its start and open at its end. *)
Definition inInterval (v : Q) (interval : Q * Q) : bool :=
  Qle_bool interval.1 v && Qltb v interval.2.

(** The cell cut between two vertical and two horizontal boundaries. *)
Definition cellBetween (xs ys : Q * Q) : ImageProcessing.DrawnCell :=
  ImageProcessing.drawCell xs.1 ys.1 (xs.2 - xs.1)%Q (ys.2 - ys.1)%Q.

(** How many cells of the list cover the point. *)
Definition coverage (cells : list ImageProcessing.DrawnCell) (x y : Q) : nat :=
  length (List.filter (fun c => ImageProcessing.covers c x y) cells).

(** The pixel [(px, py)] lies in the region handed to [sharp.extract]. *)
Definition regionCovers (r : CutImageRoute.Region) (px py : Z) : bool :=
  (CutImageRoute.left r <=? px)
  && (px <? CutImageRoute.left r + CutImageRoute.regionWidth r)
  && (CutImageRoute.top r <=? py)
  && (py <? CutImageRoute.top r + CutImageRoute.regionHeight r).

(** How many regions of the list contain the pixel. *)
Definition regionCoverage (regions : list CutImageRoute.Region) (px py : Z) : nat :=
  length (List.filter (fun r => regionCovers r px py) regions).

(** The regions the server route extracts for a grid. *)
Definition serverRegions (imageWidth imageHeight rows columns : Z)
  : list CutImageRoute.Region :=
  (CutImageRoute.cellJobs imageWidth imageHeight rows columns).*2.

(** A cell drawn by the client and a region extracted by the server have
    the same output size in pixels. *)
Definition samePixelSize (c : ImageProcessing.DrawnCell) (r : CutImageRoute.Region) : Prop :=
  ImageProcessing.pixelWidth c = CutImageRoute.regionWidth r
  /\ ImageProcessing.pixelHeight c = CutImageRoute.regionHeight r.

(** ... and crop the same rectangle of the source. *)
Definition sameCrop (c : ImageProcessing.DrawnCell) (r : CutImageRoute.Region) : Prop :=
  (ImageProcessing.sourceX c == inject_Z (CutImageRoute.left r))%Q
  /\ (ImageProcessing.sourceY c == inject_Z (CutImageRoute.top r))%Q
  /\ (ImageProcessing.sourceWidth c == inject_Z (CutImageRoute.regionWidth r))%Q
  /\ (ImageProcessing.sourceHeight c == inject_Z (CutImageRoute.regionHeight r))%Q
  /\ samePixelSize c r.

(** ** A session used to exercise the statements

    A 300 x 300 image under the default 3 x 3 grid, shown at its natural
    size: the lines are stored as [h 100; h 200; v 100; v 200]. *)
Module Scenario.

Definition pointerAt (x y : Q) : GridCanvas.MouseEvent :=
  GridCanvas.mkMouseEvent x y 0 0 300 300.

Definition after (evs : list App.Event) : App.State :=
  default App.initial (App.run App.initial evs).

Definition loaded : App.State :=
  after [App.ImageUploaded "blob:picture"; App.ImageLoaded 300 300].

(** The pointer went down on the first vertical line (slot 2). *)
Definition grabbed : App.State :=
  after [App.ImageUploaded "blob:picture"; App.ImageLoaded 300 300;
         App.MouseDown (pointerAt 100 50)].

(** ... and dragged it towards x = 500, where it stops at the right
    edge, before releasing. *)
Definition dragged : App.State :=
  after [App.ImageUploaded "blob:picture"; App.ImageLoaded 300 300;
         App.MouseDown (pointerAt 100 50); App.MouseMove (pointerAt 500 50);
         App.MouseUp].

End Scenario.

(** ** Proof tactics *)

(** Decide every integer comparison of the goal, then compute. *)
Ltac by_comparisons :=
  repeat match goal with
         | |- context [?a <=? ?b] => destruct (Z.leb_spec a b)
         | |- context [?a <? ?b] => destruct (Z.ltb_spec a b)
         end;
  simpl; try reflexivity; nia.

(** Reduce the field projections of cells and regions, nothing else. *)
Ltac project_cells :=
  cbn [ImageProcessing.sourceX ImageProcessing.sourceY
       ImageProcessing.sourceWidth ImageProcessing.sourceHeight
       ImageProcessing.pixelWidth ImageProcessing.pixelHeight
       CutImageRoute.left CutImageRoute.top
       CutImageRoute.regionWidth CutImageRoute.regionHeight].

(** * Properties *)

(** ** Numbers *)

Lemma Qltb_lt (a b : Q) : Qltb a b = true <-> (a < b)%Q.
Proof.
  unfold Qltb. rewrite negb_true_iff. split.
  - intros Hf. apply Qnot_le_lt. intros Hle.
    apply Qle_bool_iff in Hle. congruence.
  - intros Hlt. destruct (Qle_bool b a) eqn:E; [|reflexivity].
    apply Qle_bool_iff in E. lra.
Qed.

Lemma Qltb_ge (a b : Q) : Qltb a b = false <-> (b <= a)%Q.
Proof.
  unfold Qltb. rewrite negb_false_iff. apply Qle_bool_iff.
Qed.

(** Turn the boolean comparisons of rationals among the hypotheses into
    propositions. *)
Ltac rational_comparisons :=
  repeat match goal with
         | H : Qltb _ _ = true |- _ => apply Qltb_lt in H
         | H : Qltb _ _ = false |- _ => apply Qltb_ge in H
         | H : Qle_bool _ _ = true |- _ => apply Qle_bool_iff in H
         | H : Qle_bool _ _ = false |- _ =>
             apply (f_equal negb) in H; simpl in H;
             change (negb (Qle_bool ?u ?v)) with (Qltb v u) in H;
             apply Qltb_lt in H
         end.

Lemma Qeq_bool_false_pos (a : Q) : (0 < a)%Q -> Qeq_bool a 0 = false.
Proof.
  intros Ha. destruct (Qeq_bool a 0) eqn:E; [|reflexivity].
  apply Qeq_bool_iff in E. lra.
Qed.

(** [Math.max(0, Math.min(v, b))] lies in [[0, b]] and is a fixed point
    of the same clamping. *)
Lemma clamp_range (v b : Q) :
  (0 <= b)%Q -> (0 <= Qmax 0 (Qmin v b) /\ Qmax 0 (Qmin v b) <= b)%Q.
Proof.
  intros Hb.
  destruct (Q.max_spec 0 (Qmin v b)) as [[H1 E1]|[H1 E1]];
    destruct (Q.min_spec v b) as [[H2 E2]|[H2 E2]];
    rewrite E1; try rewrite E2 in H1; try rewrite E2; split; lra.
Qed.

Lemma clamp_fixed (v b : Q) :
  (0 <= v)%Q -> (v <= b)%Q -> (Qmax 0 (Qmin v b) == v)%Q.
Proof.
  intros H0 Hb.
  destruct (Q.max_spec 0 (Qmin v b)) as [[H1 E1]|[H1 E1]];
    destruct (Q.min_spec v b) as [[H2 E2]|[H2 E2]];
    rewrite E1; try rewrite E2 in H1; try rewrite E2; lra.
Qed.

Lemma at_index_Some {A} (l : list A) (index : Z) (a : A) :
  at_index l index = Some a <-> 0 <= index /\ l !! Z.to_nat index = Some a.
Proof.
  unfold at_index. destruct (Z.ltb_spec index 0); split.
  - discriminate.
  - intros [? ?]. lia.
  - intros E. split; [lia|exact E].
  - intros [_ E]. exact E.
Qed.

(** ** Grid model *)

Lemma length_pushLines n extent horizontal :
  length (pushLines n extent horizontal) = Z.to_nat (n - 1).
Proof. unfold pushLines. by rewrite length_fmap, length_seqZ. Qed.

Lemma lookup_pushLines n extent horizontal (i : Z) :
  1 <= i < n ->
  pushLines n extent horizontal !! Z.to_nat (i - 1)
  = Some (mkGridLine ((inject_Z i / inject_Z n) * extent)%Q horizontal).
Proof.
  intros Hi. unfold pushLines. rewrite list_lookup_fmap.
  rewrite lookup_seqZ_lt by lia. simpl.
  replace (1 + Z.of_nat (Z.to_nat (i - 1))) with i by lia. reflexivity.
Qed.

Lemma pushLines_range n extent horizontal line :
  (0 <= extent)%Q -> line ∈ pushLines n extent horizontal ->
  (0 <= position line /\ position line <= extent)%Q /\ isHorizontal line = horizontal.
Proof.
  intros Hext Hin. unfold pushLines in Hin.
  apply list_elem_of_fmap in Hin as (i & -> & Hi).
  apply elem_of_seqZ in Hi. simpl. split; [|reflexivity].
  assert (Hn : (0 < inject_Z n)%Q) by (change 0%Q with (inject_Z 0); rewrite <- Zlt_Qlt; lia).
  assert (Hi0 : (0 <= inject_Z i)%Q) by (change 0%Q with (inject_Z 0); rewrite <- Zle_Qle; lia).
  assert (Hin : (inject_Z i <= inject_Z n)%Q) by (rewrite <- Zle_Qle; lia).
  assert (Hq0 : (0 <= inject_Z i / inject_Z n)%Q).
  { apply Qle_shift_div_l; [exact Hn|]. lra. }
  assert (Hq1 : (inject_Z i / inject_Z n <= 1)%Q).
  { apply Qle_shift_div_r; [exact Hn|]. lra. }
  split; nra.
Qed.

Lemma evenGridLines_inBounds rows columns size :
  (0 <= width size)%Q -> (0 <= height size)%Q ->
  Forall (inBounds size) (evenGridLines rows columns size).
Proof.
  intros Hw Hh. unfold evenGridLines. apply Forall_app. split.
  - apply Forall_forall. intros line Hin.
    apply pushLines_range in Hin as [Hr Hx]; [|exact Hh].
    unfold inBounds, bound. rewrite Hx. exact Hr.
  - apply Forall_forall. intros line Hin.
    apply pushLines_range in Hin as [Hr Hx]; [|exact Hw].
    unfold inBounds, bound. rewrite Hx. exact Hr.
Qed.

Lemma evenGridLines_length rows columns size :
  2 <= rows -> 2 <= columns ->
  length (evenGridLines rows columns size) = Z.to_nat ((rows - 1) + (columns - 1)).
Proof.
  intros Hr Hc. unfold evenGridLines.
  rewrite length_app, !length_pushLines. lia.
Qed.

Lemma evenGridLines_horizontal rows columns size (i : Z) :
  1 <= i < rows ->
  evenGridLines rows columns size !! Z.to_nat (i - 1)
  = Some (mkGridLine ((inject_Z i / inject_Z rows) * height size)%Q true).
Proof.
  intros Hi. unfold evenGridLines.
  rewrite lookup_app_l by (rewrite length_pushLines; lia).
  by apply lookup_pushLines.
Qed.

Lemma evenGridLines_vertical rows columns size (j : Z) :
  1 <= rows -> 1 <= j < columns ->
  evenGridLines rows columns size !! Z.to_nat ((rows - 1) + (j - 1))
  = Some (mkGridLine ((inject_Z j / inject_Z columns) * width size)%Q false).
Proof.
  intros Hr Hj. unfold evenGridLines.
  rewrite lookup_app_r by (rewrite length_pushLines; lia).
  rewrite length_pushLines.
  replace (Z.to_nat (rows - 1 + (j - 1)) - Z.to_nat (rows - 1))%nat
    with (Z.to_nat (j - 1)) by lia.
  by apply lookup_pushLines.
Qed.

Lemma regenerate_known_size p s :
  (0 < width (GridCanvas.imageSize s))%Q ->
  (0 < height (GridCanvas.imageSize s))%Q ->
  GridCanvas.regenerate p s
  = (GridCanvas.setGridLines
       (evenGridLines (GridCanvas.rows p) (GridCanvas.columns p) (GridCanvas.imageSize s)) s,
     Some (mkNotification
             (evenGridLines (GridCanvas.rows p) (GridCanvas.columns p) (GridCanvas.imageSize s))
             (width (GridCanvas.imageSize s)) (height (GridCanvas.imageSize s)))).
Proof.
  intros Hw Hh. unfold GridCanvas.regenerate.
  by rewrite !Qeq_bool_false_pos.
Qed.

Lemma regenerate_lines_cases p s :
  GridCanvas.gridLines (GridCanvas.regenerate p s).1 = GridCanvas.gridLines s
  \/ GridCanvas.gridLines (GridCanvas.regenerate p s).1
     = evenGridLines (GridCanvas.rows p) (GridCanvas.columns p) (GridCanvas.imageSize s).
Proof.
  unfold GridCanvas.regenerate.
  destruct (_ || _); [left|right]; reflexivity.
Qed.

Lemma falsyUrl_nonempty url : url <> "" -> Home.falsyUrl (Some url) = false.
Proof.
  intros Hne. simpl. destruct (String.eqb url "") eqn:E; [|reflexivity].
  apply String.eqb_eq in E. contradiction.
Qed.

(** C6, as the claim states it, fails where the size of the image is
    not known yet: on mount of a 2 x 2 grid the regeneration effect
    returns at its guard and leaves the (empty) line list, not the two
    lines the claim counts. *)
Lemma regenerate_unknown_size_no_lines :
  let s' := (GridCanvas.regenerate (GridCanvas.mkProps 2 2) GridCanvas.initial).1 in
  GridCanvas.gridLines s' = []
  /\ length (GridCanvas.gridLines s') <> Z.to_nat ((2 - 1) + (2 - 1)).
Proof. split; [reflexivity|]. simpl. lia. Qed.

(** C6 (amended): for rows R >= 2, columns C >= 2 and a known image size
    with W > 0 and H > 0 (and, for the reset, a non-empty image URL), the
    regeneration effect of the canvas and [handleResetGrid] both replace
    the line list, whatever it held, by the same (R-1)+(C-1) lines; these
    lie within their bounds, horizontal line i (1 <= i < R) sits in slot
    i-1 at i/R*H and vertical line j (1 <= j < C) in slot (R-1)+(j-1) at
    j/C*W. *)
Theorem regenerate_even_lines
  (R C : Z) (size : ImageSize) (prior : list GridLine) (url : string)
  (a h : option Z) (l : bool) (cw ch : Q) (c : GridCanvas.Cursor)
  (d : bool) (g : list string) :
  2 <= R -> 2 <= C -> (0 < width size)%Q -> (0 < height size)%Q -> url <> "" ->
  let lines := evenGridLines R C size in
  GridCanvas.gridLines
    (GridCanvas.regenerate (GridCanvas.mkProps R C)
       (GridCanvas.mkState size prior a h l cw ch c)).1 = lines
  /\ Home.gridLines (Home.handleResetGrid (Home.mkState (Some url) R C prior size d g))
     = lines
  /\ length lines = Z.to_nat ((R - 1) + (C - 1))
  /\ Forall (inBounds size) lines
  /\ (forall i : Z, 1 <= i < R ->
        lines !! Z.to_nat (i - 1)
        = Some (mkGridLine ((inject_Z i / inject_Z R) * height size)%Q true))
  /\ (forall j : Z, 1 <= j < C ->
        lines !! Z.to_nat ((R - 1) + (j - 1))
        = Some (mkGridLine ((inject_Z j / inject_Z C) * width size)%Q false)).
Proof.
  intros HR HC Hw Hh Hurl lines. repeat split.
  - by rewrite regenerate_known_size.
  - unfold Home.handleResetGrid. cbn [Home.imageSize Home.imageUrl].
    by rewrite !Qeq_bool_false_pos, falsyUrl_nonempty.
  - by apply evenGridLines_length.
  - apply evenGridLines_inBounds; lra.
  - intros i Hi. by apply evenGridLines_horizontal.
  - intros j Hj. apply evenGridLines_vertical; lia.
Qed.

Lemma regenerate_even_lines_witness :
  let size := mkImageSize 300 300 in
  let stale := [mkGridLine 7 true] in
  let lines := evenGridLines 3 3 size in
  GridCanvas.gridLines
    (GridCanvas.regenerate (GridCanvas.mkProps 3 3)
       (GridCanvas.mkState size stale None None true 300 300
                           GridCanvas.cursor_default)).1 = lines
  /\ Home.gridLines
       (Home.handleResetGrid (Home.mkState (Some "blob:picture") 3 3 stale size false []))
     = lines
  /\ length lines = Z.to_nat ((3 - 1) + (3 - 1))
  /\ Forall (inBounds size) lines
  /\ (forall i : Z, 1 <= i < 3 ->
        lines !! Z.to_nat (i - 1)
        = Some (mkGridLine ((inject_Z i / inject_Z 3) * height size)%Q true))
  /\ (forall j : Z, 1 <= j < 3 ->
        lines !! Z.to_nat ((3 - 1) + (j - 1))
        = Some (mkGridLine ((inject_Z j / inject_Z 3) * width size)%Q false)).
Proof.
  apply (regenerate_even_lines 3 3 (mkImageSize 300 300) [mkGridLine 7 true]
           "blob:picture" None None true 300 300 GridCanvas.cursor_default false []).
  - lia.
  - lia.
  - reflexivity.
  - reflexivity.
  - discriminate.
Defined.

(** ** Hit-testing *)

Section NearestLine.

Variables x y : Q.

Local Abbreviation dist := (GridCanvas.distance x y).

(** What one run of the [forEach] leaves in the two captured
    variables: either nothing on the way was strictly closer than the
    starting threshold, or the result is the first line of least
    distance. *)
Lemma forEachLine_spec lines index minDistance closestLine :
  let r := GridCanvas.forEachLine x y lines index minDistance closestLine in
  (r = (minDistance, closestLine)
   /\ forall line, line ∈ lines -> (minDistance <= dist line)%Q)
  \/ (exists k line,
        lines !! k = Some line
        /\ r = (dist line, Z.of_nat (index + k))
        /\ (dist line < minDistance)%Q
        /\ (forall line', line' ∈ lines -> (dist line <= dist line')%Q)
        /\ (forall j line', (j < k)%nat -> lines !! j = Some line' ->
              (dist line < dist line')%Q)).
Proof.
  revert index minDistance closestLine.
  induction lines as [|line rest IH]; intros index minDistance closestLine; simpl.
  - left. split; [reflexivity|]. intros line Hin. by apply elem_of_nil in Hin.
  - destruct (Qltb (dist line) minDistance) eqn:E.
    + apply Qltb_lt in E.
      destruct (IH (S index) (dist line) (Z.of_nat index))
        as [[Hr Hall] | (k & l & Hk & Hr & Hlt & Hmin & Hfirst)].
      * right. exists 0%nat, line. simpl.
        rewrite Hr, Nat.add_0_r. repeat split; try done.
        -- intros line' Hin. apply elem_of_cons in Hin as [-> | Hin]; [lra|].
           by apply Hall.
        -- intros j line' Hj. lia.
      * right. exists (S k), l. simpl.
        rewrite Hr. replace (index + S k)%nat with (S index + k)%nat by lia.
        repeat split; try done.
        -- lra.
        -- intros line' Hin. apply elem_of_cons in Hin as [-> | Hin]; [lra|].
           by apply Hmin.
        -- intros [|j] line' Hj Hl; simpl in Hl.
           ++ injection Hl as <-. exact Hlt.
           ++ apply (Hfirst j); [lia|exact Hl].
    + apply Qltb_ge in E.
      destruct (IH (S index) minDistance closestLine)
        as [[Hr Hall] | (k & l & Hk & Hr & Hlt & Hmin & Hfirst)].
      * left. split; [exact Hr|].
        intros line' Hin. apply elem_of_cons in Hin as [-> | Hin]; [exact E|].
        by apply Hall.
      * right. exists (S k), l. simpl.
        rewrite Hr. replace (index + S k)%nat with (S index + k)%nat by lia.
        repeat split; try done.
        -- intros line' Hin. apply elem_of_cons in Hin as [-> | Hin]; [lra|].
           by apply Hmin.
        -- intros [|j] line' Hj Hl; simpl in Hl.
           ++ injection Hl as <-. lra.
           ++ apply (Hfirst j); [lia|exact Hl].
Qed.

Lemma findLine_spec lines :
  (GridCanvas.findLine x y lines = -1
   /\ forall line, line ∈ lines -> (10 <= dist line)%Q)
  \/ (exists k line,
        lines !! k = Some line
        /\ GridCanvas.findLine x y lines = Z.of_nat k
        /\ (dist line < 10)%Q
        /\ (forall line', line' ∈ lines -> (dist line <= dist line')%Q)
        /\ (forall j line', (j < k)%nat -> lines !! j = Some line' ->
              (dist line < dist line')%Q)).
Proof.
  unfold GridCanvas.findLine.
  destruct (forEachLine_spec lines 0 10 (-1))
    as [[Hr Hall] | (k & l & Hk & Hr & Hlt & Hmin & Hfirst)].
  - left. rewrite Hr. done.
  - right. exists k, l. rewrite Hr. done.
Qed.

Lemma cursorFor_findLine lines :
  is_Some (GridCanvas.cursorFor lines (GridCanvas.findLine x y lines)).
Proof.
  unfold GridCanvas.cursorFor.
  destruct (findLine_spec lines) as [[-> _] | (k & l & Hk & -> & _)]; [done|].
  destruct (Z.eqb_spec (Z.of_nat k) (-1)); [lia|].
  assert (E : at_index lines (Z.of_nat k) = Some l).
  { apply at_index_Some. rewrite Nat2Z.id. split; [lia|exact Hk]. }
  rewrite E. done.
Qed.

End NearestLine.

(** C7, as the claim states it, fails on a pointer-down that finds no
    line while a line is held: the handler then leaves [activeLine]
    alone.  With slot 2 grabbed and the pointer going down at (50, 50),
    50 pixels from the nearest line, the active line is still slot 2. *)
Lemma mouseDown_miss_keeps_active_line :
  let s := App.canvas Scenario.grabbed in
  let e := Scenario.pointerAt 50 50 in
  GridCanvas.findLine (GridCanvas.rasterX s e) (GridCanvas.rasterY s e)
                      (GridCanvas.gridLines s) = -1
  /\ GridCanvas.activeLine s = Some 2
  /\ GridCanvas.activeLine (GridCanvas.handleMouseDown s e) = Some 2
  /\ GridCanvas.activeLine (GridCanvas.handleMouseDown s e) <> None.
Proof. vm_compute. repeat split; discriminate. Qed.

(** C7 (amended): with the pointer mapped to raster coordinates
    ([rasterX], [rasterY]), the search of both handlers returns -1 when
    every line is at distance 10 or more, and otherwise the slot of a
    line at distance strictly below 10 that is nearest among all lines
    and strictly nearer than every line in a lower slot.  A move stores
    that result, -1 included, as the hovered line; a down stores it as
    the active line when it is a slot, and leaves the active line as it
    was when it is -1. *)
Theorem nearest_line_selected (s : GridCanvas.State) (e : GridCanvas.MouseEvent) :
  let x := GridCanvas.rasterX s e in
  let y := GridCanvas.rasterY s e in
  let lines := GridCanvas.gridLines s in
  let found := GridCanvas.findLine x y lines in
  ((found = -1
    /\ forall line, line ∈ lines -> (10 <= GridCanvas.distance x y line)%Q)
   \/ (exists k line,
         lines !! k = Some line
         /\ found = Z.of_nat k
         /\ (GridCanvas.distance x y line < 10)%Q
         /\ (forall line', line' ∈ lines ->
               (GridCanvas.distance x y line <= GridCanvas.distance x y line')%Q)
         /\ (forall j line', (j < k)%nat -> lines !! j = Some line' ->
               (GridCanvas.distance x y line < GridCanvas.distance x y line')%Q)))
  /\ (GridCanvas.activeLine s = None ->
      exists s', GridCanvas.handleMouseMove s e = Some (s', None))
  /\ (forall s' n, GridCanvas.handleMouseMove s e = Some (s', n) ->
        GridCanvas.hoveredLine s' = Some found)
  /\ GridCanvas.activeLine (GridCanvas.handleMouseDown s e)
     = (if found =? -1 then GridCanvas.activeLine s else Some found).
Proof.
  intros x y lines found. split; [apply findLine_spec|]. split; [|split].
  - intros Ea. unfold GridCanvas.handleMouseMove.
    destruct (cursorFor_findLine x y lines) as [c Ec].
    fold x y lines. rewrite Ec, Ea. eauto.
  - intros s' n. unfold GridCanvas.handleMouseMove. fold x y lines found.
    destruct (GridCanvas.cursorFor lines found) as [c|]; [|discriminate].
    destruct (GridCanvas.activeLine s) as [active|].
    + destruct (GridCanvas.dragLine _ _ _ _ _); [|discriminate].
      by intros [= <- <-].
    + by intros [= <- <-].
  - unfold GridCanvas.handleMouseDown. fold x y lines found.
    by destruct (found =? -1).
Qed.

Lemma nearest_line_selected_witness :
  let s := App.canvas Scenario.loaded in
  let e := Scenario.pointerAt 104 195 in
  GridCanvas.activeLine s = None
  /\ GridCanvas.findLine (GridCanvas.rasterX s e) (GridCanvas.rasterY s e)
                         (GridCanvas.gridLines s) = 2
  /\ (exists s', GridCanvas.handleMouseMove s e = Some (s', None)
                 /\ GridCanvas.hoveredLine s' = Some 2).
Proof.
  intros s e.
  destruct (nearest_line_selected s e) as (_ & Hmove & Hhover & _).
  split; [reflexivity|]. split; [reflexivity|].
  destruct (Hmove eq_refl) as [s' Hs'].
  exists s'. split; [exact Hs'|]. exact (Hhover s' None Hs').
Defined.

(** ** Dragging *)

Lemma dragLine_Some size x y lines active lines' :
  GridCanvas.dragLine size x y lines active = Some lines' <->
  exists line, 0 <= active /\ lines !! Z.to_nat active = Some line
    /\ lines' = <[Z.to_nat active :=
                   mkGridLine (GridCanvas.draggedPosition size x y line) (isHorizontal line)]> lines.
Proof.
  unfold GridCanvas.dragLine. split.
  - destruct (at_index lines active) as [line|] eqn:E; [|discriminate].
    apply at_index_Some in E as [H0 E]. intros [= <-].
    exists line. repeat split; [exact H0|exact E].
  - intros (line & H0 & E & ->).
    assert (E' : at_index lines active = Some line) by (apply at_index_Some; done).
    rewrite E'. reflexivity.
Qed.

Lemma draggedPosition_inBounds size x y line :
  (0 <= width size)%Q -> (0 <= height size)%Q ->
  inBounds size (mkGridLine (GridCanvas.draggedPosition size x y line) (isHorizontal line)).
Proof.
  intros Hw Hh. unfold inBounds, bound, GridCanvas.draggedPosition. simpl.
  destruct (isHorizontal line); by apply clamp_range.
Qed.

(** What a drag writes, in the coordinates of the event. *)
Lemma pointer_position (s : GridCanvas.State) (e : GridCanvas.MouseEvent)
      (line : GridLine) :
  GridCanvas.draggedPosition (GridCanvas.imageSize s)
    (GridCanvas.rasterX s e) (GridCanvas.rasterY s e) line
  = if isHorizontal line
    then Qmax 0 (Qmin ((GridCanvas.clientY e - GridCanvas.rectTop e)
                       * (GridCanvas.canvasHeight s / GridCanvas.rectHeight e))
                      (height (GridCanvas.imageSize s)))
    else Qmax 0 (Qmin ((GridCanvas.clientX e - GridCanvas.rectLeft e)
                       * (GridCanvas.canvasWidth s / GridCanvas.rectWidth e))
                      (width (GridCanvas.imageSize s))).
Proof. reflexivity. Qed.

Lemma handleMouseMove_lines s e s' n :
  GridCanvas.handleMouseMove s e = Some (s', n) ->
  GridCanvas.imageSize s' = GridCanvas.imageSize s
  /\ GridCanvas.activeLine s' = GridCanvas.activeLine s
  /\ match GridCanvas.activeLine s with
     | None => GridCanvas.gridLines s' = GridCanvas.gridLines s /\ n = None
     | Some active =>
         GridCanvas.dragLine (GridCanvas.imageSize s) (GridCanvas.rasterX s e)
           (GridCanvas.rasterY s e) (GridCanvas.gridLines s) active
         = Some (GridCanvas.gridLines s')
         /\ n = Some (mkNotification (GridCanvas.gridLines s')
                        (width (GridCanvas.imageSize s))
                        (height (GridCanvas.imageSize s)))
     end.
Proof.
  unfold GridCanvas.handleMouseMove.
  destruct (GridCanvas.cursorFor _ _) as [c|]; [|discriminate].
  destruct (GridCanvas.activeLine s) as [active|] eqn:Ea.
  - destruct (GridCanvas.dragLine _ _ _ _ _) as [updated|] eqn:Ed; [|discriminate].
    intros [= <- <-]. simpl. rewrite Ea. done.
  - intros [= <- <-]. simpl. rewrite Ea. done.
Qed.

(** A move while a line of the list is held does not throw. *)
Lemma handleMouseMove_drag s e active line :
  GridCanvas.activeLine s = Some active ->
  0 <= active -> GridCanvas.gridLines s !! Z.to_nat active = Some line ->
  exists s' n, GridCanvas.handleMouseMove s e = Some (s', n).
Proof.
  intros Ea H0 El. unfold GridCanvas.handleMouseMove.
  destruct (cursorFor_findLine (GridCanvas.rasterX s e) (GridCanvas.rasterY s e)
              (GridCanvas.gridLines s)) as [c Ec].
  rewrite Ec, Ea.
  assert (Ed : is_Some (GridCanvas.dragLine (GridCanvas.imageSize s)
                          (GridCanvas.rasterX s e) (GridCanvas.rasterY s e)
                          (GridCanvas.gridLines s) active)).
  { eexists. apply dragLine_Some. exists line. done. }
  destruct Ed as [updated ->]. eauto.
Qed.

(** C4: whatever the pointer coordinates of a move event, the move
    succeeds and the line being dragged ends at a position within
    [0, height] (horizontal) or [0, width] (vertical); that position is a
    fixed point of the clamping; and the drag update, the regeneration
    effect and the reset each keep every line of the list within its
    bounds. *)
Theorem drag_keeps_lines_in_bounds
  (p : GridCanvas.Props) (s : GridCanvas.State) (e : GridCanvas.MouseEvent) :
  let size := GridCanvas.imageSize s in
  (0 <= width size)%Q -> (0 <= height size)%Q ->
  (forall active line,
     GridCanvas.activeLine s = Some active ->
     0 <= active -> GridCanvas.gridLines s !! Z.to_nat active = Some line ->
     exists s' n line',
       GridCanvas.handleMouseMove s e = Some (s', n)
       /\ GridCanvas.gridLines s' !! Z.to_nat active = Some line'
       /\ isHorizontal line' = isHorizontal line
       /\ (0 <= position line')%Q
       /\ (position line' <= if isHorizontal line then height size else width size)%Q
       /\ (Qmax 0 (Qmin (position line') (bound size line')) == position line')%Q)
  /\ (forall s' n,
        GridCanvas.handleMouseMove s e = Some (s', n) ->
        Forall (inBounds size) (GridCanvas.gridLines s) ->
        Forall (inBounds size) (GridCanvas.gridLines s'))
  /\ (Forall (inBounds size) (GridCanvas.gridLines s) ->
      Forall (inBounds size) (GridCanvas.gridLines (GridCanvas.regenerate p s).1))
  /\ (forall page : Home.State,
        Home.imageSize page = size ->
        Forall (inBounds size) (Home.gridLines page) ->
        Forall (inBounds size) (Home.gridLines (Home.handleResetGrid page))).
Proof.
  intros size Hw Hh. split; [|split; [|split]].
  - intros active line Ea H0 El.
    destruct (handleMouseMove_drag s e active line Ea H0 El) as (s' & n & Hmove).
    pose proof Hmove as Hcase.
    apply handleMouseMove_lines in Hcase as (_ & _ & Hcase).
    rewrite Ea in Hcase. destruct Hcase as [Hd _].
    apply dragLine_Some in Hd as (line0 & _ & El0 & Hl).
    assert (line0 = line) as -> by congruence.
    exists s', n. eexists. split; [exact Hmove|]. rewrite Hl. split.
    + apply list_lookup_insert_eq. by eapply lookup_lt_Some.
    + pose proof (draggedPosition_inBounds size (GridCanvas.rasterX s e)
                    (GridCanvas.rasterY s e) line Hw Hh) as [Hlo Hhi].
      unfold bound in *. simpl in *.
      repeat split; [exact Hlo|exact Hhi|].
      by apply clamp_fixed.
  - intros s' n Hmove Hall.
    apply handleMouseMove_lines in Hmove as (_ & _ & Hcase).
    destruct (GridCanvas.activeLine s) as [active|].
    + destruct Hcase as [Hd _].
      apply dragLine_Some in Hd as (line & H0 & El & ->).
      apply Forall_insert; [exact Hall|].
      by apply draggedPosition_inBounds.
    + destruct Hcase as [-> _]. exact Hall.
  - intros Hall. destruct (regenerate_lines_cases p s) as [-> | ->]; [exact Hall|].
    by apply evenGridLines_inBounds.
  - intros page Hsize Hall. unfold Home.handleResetGrid.
    destruct (_ || _); [exact Hall|]. simpl. rewrite Hsize.
    by apply evenGridLines_inBounds.
Qed.

(** C8: a drag update of the line in slot i succeeds and writes slot i
    only: the new element keeps the [isHorizontal] flag and its position
    is the pointer coordinate on the axis of the line, in canvas pixels,
    clamped to the image: max(0, min(y, height)) for a horizontal line
    and max(0, min(x, width)) for a vertical one, where x and y are the
    client coordinates relative to the canvas rectangle, scaled by the
    ratio of the canvas size to the displayed size; every other slot,
    and so the length and the storage order, is as before; the parent is
    notified of exactly this list. *)
Theorem drag_updates_one_slot
  (s : GridCanvas.State) (e : GridCanvas.MouseEvent) (active : Z) (line : GridLine) :
  GridCanvas.activeLine s = Some active ->
  0 <= active -> GridCanvas.gridLines s !! Z.to_nat active = Some line ->
  let x := ((GridCanvas.clientX e - GridCanvas.rectLeft e)
            * (GridCanvas.canvasWidth s / GridCanvas.rectWidth e))%Q in
  let y := ((GridCanvas.clientY e - GridCanvas.rectTop e)
            * (GridCanvas.canvasHeight s / GridCanvas.rectHeight e))%Q in
  exists s' n,
    GridCanvas.handleMouseMove s e = Some (s', n)
    /\ GridCanvas.gridLines s' !! Z.to_nat active
       = Some (mkGridLine
                 (if isHorizontal line
                  then Qmax 0 (Qmin y (height (GridCanvas.imageSize s)))
                  else Qmax 0 (Qmin x (width (GridCanvas.imageSize s))))
                 (isHorizontal line))
    /\ (forall j, j <> Z.to_nat active ->
          GridCanvas.gridLines s' !! j = GridCanvas.gridLines s !! j)
    /\ length (GridCanvas.gridLines s') = length (GridCanvas.gridLines s)
    /\ n = Some (mkNotification (GridCanvas.gridLines s')
                   (width (GridCanvas.imageSize s)) (height (GridCanvas.imageSize s))).
Proof.
  intros Ea H0 El x y.
  destruct (handleMouseMove_drag s e active line Ea H0 El) as (s' & n & Hmove).
  exists s', n. split; [exact Hmove|].
  apply handleMouseMove_lines in Hmove as (_ & _ & Hcase).
  rewrite Ea in Hcase. destruct Hcase as [Hd Hn].
  apply dragLine_Some in Hd as (line0 & _ & El0 & Hl).
  assert (line0 = line) as -> by congruence.
  rewrite pointer_position in Hl. fold x y in Hl.
  rewrite Hl in *. repeat split.
  - apply list_lookup_insert_eq. by eapply lookup_lt_Some.
  - intros j Hj. by apply list_lookup_insert_ne.
  - apply length_insert.
  - exact Hn.
Qed.

Lemma drag_keeps_lines_in_bounds_witness :
  let s := App.canvas Scenario.grabbed in
  let e := Scenario.pointerAt 500 50 in
  let size := GridCanvas.imageSize s in
  GridCanvas.activeLine s = Some 2
  /\ GridCanvas.gridLines s !! 2%nat = Some (mkGridLine ((1 / 3) * 300) false)
  /\ exists s' n line',
       GridCanvas.handleMouseMove s e = Some (s', n)
       /\ GridCanvas.gridLines s' !! 2%nat = Some line'
       /\ isHorizontal line' = false
       /\ (0 <= position line')%Q
       /\ (position line' <= width size)%Q
       /\ (Qmax 0 (Qmin (position line') (bound size line')) == position line')%Q.
Proof.
  intros s e size.
  split; [reflexivity|]. split; [reflexivity|].
  destruct (drag_keeps_lines_in_bounds (GridCanvas.mkProps 3 3) s e) as [Hdrag _].
  - discriminate.
  - discriminate.
  - exact (Hdrag 2 (mkGridLine ((1 / 3) * 300) false) eq_refl
                 ltac:(lia) eq_refl).
Defined.

Lemma drag_updates_one_slot_witness :
  let held := GridCanvas.handleMouseDown (App.canvas Scenario.loaded)
                (Scenario.pointerAt 50 100) in
  let e := GridCanvas.mkMouseEvent 25 85 10 10 150 150 in
  GridCanvas.activeLine held = Some 0
  /\ GridCanvas.gridLines held !! 0%nat = Some (mkGridLine ((1 / 3) * 300) true)
  /\ exists s' n line',
       GridCanvas.handleMouseMove held e = Some (s', n)
       /\ GridCanvas.gridLines s' !! 0%nat = Some line'
       /\ isHorizontal line' = true
       /\ (position line' == 150)%Q
       /\ (forall j, j <> 0%nat ->
             GridCanvas.gridLines s' !! j = GridCanvas.gridLines held !! j)
       /\ length (GridCanvas.gridLines s') = 4%nat
       /\ n = Some (mkNotification (GridCanvas.gridLines s') 300 300).
Proof.
  intros held e.
  split; [reflexivity|]. split; [reflexivity|].
  destruct (drag_updates_one_slot held e 0 (mkGridLine ((1 / 3) * 300) true)
              eq_refl ltac:(lia) eq_refl)
    as (s' & n & Hmove & Hslot & Hrest & Hlen & Hn).
  exists s', n. eexists. split; [exact Hmove|]. split; [exact Hslot|].
  split; [reflexivity|]. split; [reflexivity|]. split; [exact Hrest|].
  split; [exact Hlen|exact Hn].
Defined.

(** ** Reset *)

(** C5: the reset action rewrites at most the page's line list: every
    other cell of the page, the props handed to the canvas and the whole
    state of the canvas (its own line list, the one it draws, hit-tests
    and drags) stay as they were.  After a drag followed by a reset the
    two lists differ: the canvas still holds the dragged line at x = 300
    while the page, whose list the extraction reads, is back at x = 100,
    and the two lists cut the image into different cells. *)
Theorem reset_leaves_canvas_lines :
  (forall s : App.State,
     exists s', App.step s App.ResetGrid = Some s'
       /\ App.canvas s' = App.canvas s
       /\ App.canvasProps s' = App.canvasProps s
       /\ Home.imageSize (App.page s') = Home.imageSize (App.page s)
       /\ Home.imageUrl (App.page s') = Home.imageUrl (App.page s)
       /\ Home.gridImages (App.page s') = Home.gridImages (App.page s)
       /\ Home.downloadReady (App.page s') = Home.downloadReady (App.page s))
  /\ (exists s',
        App.step Scenario.dragged App.ResetGrid = Some s'
        /\ GridCanvas.gridLines (App.canvas s') !! 2%nat
           = Some (mkGridLine 300 false)
        /\ Home.gridLines (App.page s') !! 2%nat
           = Some (mkGridLine ((1 / 3) * 300) false)
        /\ Home.gridLines (App.page s') <> GridCanvas.gridLines (App.canvas s')
        /\ Home.handleClientSideCut (App.page s') 300 300
           <> ImageProcessing.cutImageWithGridLines
                (GridCanvas.gridLines (App.canvas s')) 300 300).
Proof.
  split.
  - intros s. eexists. split; [reflexivity|]. simpl.
    unfold Home.handleResetGrid.
    destruct (_ || _); done.
  - eexists. split; [reflexivity|].
    split; [reflexivity|]. split; [reflexivity|].
    split; vm_compute; discriminate.
Qed.

(** ** Sorting the line positions *)

Lemma insertNumber_length a l :
  length (ImageProcessing.insertNumber a l) = S (length l).
Proof.
  induction l as [|b l IH]; simpl; [reflexivity|].
  destruct (Qle_bool a b); simpl; [reflexivity|by rewrite IH].
Qed.

Lemma sortNumbers_length l : length (ImageProcessing.sortNumbers l) = length l.
Proof.
  induction l as [|a l IH]; simpl; [reflexivity|].
  unfold ImageProcessing.sortNumbers in *. simpl.
  by rewrite insertNumber_length, IH.
Qed.

Lemma insertNumber_perm a l : ImageProcessing.insertNumber a l ≡ₚ a :: l.
Proof.
  induction l as [|b l IH]; simpl; [reflexivity|].
  destruct (Qle_bool a b); [reflexivity|].
  rewrite IH. apply Permutation_swap.
Qed.

Lemma sortNumbers_perm l : ImageProcessing.sortNumbers l ≡ₚ l.
Proof.
  induction l as [|a l IH]; [reflexivity|].
  unfold ImageProcessing.sortNumbers in *. simpl.
  by rewrite insertNumber_perm, IH.
Qed.

Lemma insertNumber_sorted a l :
  Sorted Qle l -> Sorted Qle (ImageProcessing.insertNumber a l).
Proof.
  induction l as [|b l IH]; intros Hs; simpl.
  - repeat constructor.
  - destruct (Qle_bool a b) eqn:E.
    + apply Qle_bool_iff in E. constructor; [exact Hs|]. by constructor.
    + assert (Hba : (b <= a)%Q).
      { destruct (Qlt_le_dec b a) as [Hlt|Hle]; [lra|].
        apply Qle_bool_iff in Hle. congruence. }
      apply Sorted_inv in Hs as [Hs Hhd].
      constructor; [by apply IH|].
      destruct l as [|c l]; simpl.
      * by constructor.
      * destruct (Qle_bool a c); constructor; [exact Hba|].
        by apply HdRel_inv in Hhd.
Qed.

Lemma sortNumbers_sorted l : Sorted Qle (ImageProcessing.sortNumbers l).
Proof.
  induction l as [|a l IH]; [constructor|].
  unfold ImageProcessing.sortNumbers in *. simpl.
  by apply insertNumber_sorted.
Qed.

Lemma Sorted_snoc (l : list Q) (b : Q) :
  Sorted Qle l -> Forall (fun v => (v <= b)%Q) l -> Sorted Qle (l ++ [b]).
Proof.
  induction l as [|a l IH]; intros Hs Hall; simpl.
  - repeat constructor.
  - apply Sorted_inv in Hs as [Hs Hhd].
    apply Forall_cons in Hall as [Ha Hall].
    constructor; [by apply IH|].
    destruct l as [|c l]; simpl; constructor; [exact Ha|].
    by apply HdRel_inv in Hhd.
Qed.

(** The boundary list [[0, ...sorted, extent]] of one axis. *)
Lemma boundaries_sorted (ps : list Q) (extent : Q) :
  (0 <= extent)%Q ->
  Forall (fun v => (0 <= v /\ v <= extent)%Q) ps ->
  Sorted Qle (0%Q :: ImageProcessing.sortNumbers ps ++ [extent])
  /\ Forall (fun v => (0 <= v /\ v <= extent)%Q)
            (0%Q :: ImageProcessing.sortNumbers ps ++ [extent]).
Proof.
  intros Hext Hall.
  assert (Hall' : Forall (fun v => (0 <= v /\ v <= extent)%Q)
                         (ImageProcessing.sortNumbers ps)).
  { by rewrite sortNumbers_perm. }
  split.
  - constructor.
    + apply Sorted_snoc; [apply sortNumbers_sorted|].
      eapply Forall_impl; [exact Hall'|]. by intros v [_ ?].
    + destruct (ImageProcessing.sortNumbers ps) as [|c l]; simpl; constructor.
      * exact Hext.
      * apply Forall_cons in Hall' as [[? _] _]. done.
  - constructor; [lra|]. apply Forall_app. split; [exact Hall'|].
    constructor; [lra|constructor].
Qed.


(** ** The partition *)

Lemma bind_singleton_fmap {A B} (f : A -> B) (l : list A) :
  (a ← l; [f a]) = f <$> l.
Proof.
  induction l as [|a l IH]; [reflexivity|].
  rewrite bind_cons, IH. reflexivity.
Qed.

Lemma lookup_bind_rows {A B} (f : A -> list B) (m : nat) (l : list A) (i j : nat) (a : A) :
  (forall a, length (f a) = m) -> l !! i = Some a -> (j < m)%nat ->
  (l ≫= f) !! (i * m + j)%nat = f a !! j.
Proof.
  intros Hlen. revert i. induction l as [|a0 l IH]; intros i Hi Hj; [done|].
  rewrite bind_cons. destruct i as [|i]; simpl in Hi |- *.
  - injection Hi as ->. rewrite lookup_app_l by (rewrite Hlen; lia). reflexivity.
  - rewrite lookup_app_r by (rewrite Hlen; lia). rewrite Hlen.
    replace (m + i * m + j - m)%nat with (i * m + j)%nat by lia.
    by apply IH.
Qed.

Lemma length_bind_rows {A B} (f : A -> list B) (m : nat) (l : list A) :
  (forall a, length (f a) = m) -> length (l ≫= f) = (length l * m)%nat.
Proof.
  intros Hlen. induction l as [|a l IH]; [reflexivity|].
  rewrite bind_cons, length_app, Hlen, IH. reflexivity.
Qed.

Lemma consecutive_seq (b : list Q) :
  consecutive b
  = (fun i => (nth i b 0%Q, nth (i + 1) b 0%Q)) <$> seq 0 (length b - 1).
Proof.
  induction b as [|a b IH]; [reflexivity|].
  destruct b as [|c b]; [reflexivity|].
  change (consecutive (a :: c :: b)) with ((a, c) :: consecutive (c :: b)).
  rewrite IH. simpl length.
  replace (S (S (length b)) - 1)%nat with (S (length b)) by lia.
  replace (S (length b) - 1)%nat with (length b) by lia.
  rewrite <- cons_seq, <- fmap_S_seq. rewrite fmap_cons. f_equal.
  rewrite <- list_fmap_compose. reflexivity.
Qed.

(** The index loops walk the consecutive boundary pairs of each axis. *)
Lemma cutAlong_consecutive (hb vb : list Q) :
  ImageProcessing.cutAlong hb vb
  = (ys ← consecutive hb; xs ← consecutive vb; [cellBetween xs ys]).
Proof.
  unfold ImageProcessing.cutAlong. rewrite !consecutive_seq, list_fmap_bind.
  apply list_bind_ext; [|reflexivity]. intros i.
  unfold compose. rewrite list_fmap_bind. reflexivity.
Qed.

Lemma Sorted_first_le_last (a z : Q) (b : list Q) :
  Sorted Qle (a :: b) -> last (a :: b) = Some z -> (a <= z)%Q.
Proof.
  revert a. induction b as [|c b IH]; intros a Hs Hlast.
  - injection Hlast as <-. lra.
  - rewrite last_cons_cons in Hlast.
    apply Sorted_inv in Hs as [Hs Hhd]. apply HdRel_inv in Hhd.
    specialize (IH c Hs Hlast). lra.
Qed.

(** A point between the first and the last boundary lies in exactly one
    of the consecutive intervals; a point elsewhere lies in none. *)
Lemma count_consecutive (x a z : Q) (b : list Q) :
  Sorted Qle (a :: b) -> last (a :: b) = Some z ->
  length (List.filter (inInterval x) (consecutive (a :: b)))
  = if Qle_bool a x && Qltb x z then 1%nat else 0%nat.
Proof.
  revert a. induction b as [|c b IH]; intros a Hs Hlast.
  - injection Hlast as <-. simpl.
    destruct (Qle_bool a x) eqn:E1, (Qltb x a) eqn:E2; try reflexivity.
    apply Qle_bool_iff in E1. apply Qltb_lt in E2. lra.
  - change (consecutive (a :: c :: b)) with ((a, c) :: consecutive (c :: b)).
    rewrite last_cons_cons in Hlast.
    pose proof Hs as Hs0.
    apply Sorted_inv in Hs as [Hs Hhd]. apply HdRel_inv in Hhd.
    pose proof (Sorted_first_le_last c z b Hs Hlast) as Hcz.
    simpl List.filter. unfold inInterval at 1. simpl fst. simpl snd.
    specialize (IH c Hs Hlast).
    destruct (Qle_bool a x) eqn:E1, (Qltb x c) eqn:E2,
             (Qle_bool c x) eqn:E3, (Qltb x z) eqn:E4;
      simpl in *; rewrite ?IH; try reflexivity; exfalso;
      rewrite ?Qltb_lt, ?Qltb_ge in *;
      repeat match goal with
             | H : Qle_bool _ _ = true |- _ => apply Qle_bool_iff in H
             | H : Qle_bool _ _ = false |- _ =>
                 apply (f_equal negb) in H; simpl in H;
                 change (negb (Qle_bool ?u ?v)) with (Qltb v u) in H;
                 apply Qltb_lt in H
             end; lra.
Qed.

Lemma covers_cellBetween (xs ys : Q * Q) (x y : Q) :
  ImageProcessing.covers (cellBetween xs ys) x y = inInterval x xs && inInterval y ys.
Proof.
  unfold ImageProcessing.covers, cellBetween, inInterval. simpl.
  assert (Hx : Qltb x (xs.1 + (xs.2 - xs.1)) = Qltb x xs.2).
  { destruct (Qltb x xs.2) eqn:E; [apply Qltb_lt in E; apply Qltb_lt|
                                    apply Qltb_ge in E; apply Qltb_ge]; lra. }
  assert (Hy : Qltb y (ys.1 + (ys.2 - ys.1)) = Qltb y ys.2).
  { destruct (Qltb y ys.2) eqn:E; [apply Qltb_lt in E; apply Qltb_lt|
                                    apply Qltb_ge in E; apply Qltb_ge]; lra. }
  rewrite Hx, Hy. by rewrite andb_assoc.
Qed.

Lemma coverage_row (xss : list (Q * Q)) (ys : Q * Q) (x y : Q) :
  coverage (xs ← xss; [cellBetween xs ys]) x y
  = if inInterval y ys then length (List.filter (inInterval x) xss) else 0%nat.
Proof.
  unfold coverage. induction xss as [|xs xss IH].
  - by destruct (inInterval y ys).
  - rewrite bind_cons. simpl. rewrite covers_cellBetween.
    destruct (inInterval x xs), (inInterval y ys); simpl in *; by rewrite IH.
Qed.

Lemma coverage_grid (yss xss : list (Q * Q)) (x y : Q) :
  coverage (ys ← yss; xs ← xss; [cellBetween xs ys]) x y
  = (length (List.filter (inInterval y) yss)
     * length (List.filter (inInterval x) xss))%nat.
Proof.
  induction yss as [|ys yss IH]; [reflexivity|].
  rewrite bind_cons. unfold coverage in *.
  rewrite List.filter_app, length_app, IH.
  pose proof (coverage_row xss ys x y) as Hrow. unfold coverage in Hrow.
  rewrite Hrow. simpl. destruct (inInterval y ys); simpl; lia.
Qed.

Lemma consecutive_range (P : Q -> Prop) (b : list Q) :
  Sorted Qle b -> Forall P b ->
  Forall (fun interval => (interval.1 <= interval.2)%Q /\ P interval.1 /\ P interval.2)
         (consecutive b).
Proof.
  induction b as [|a b IH]; intros Hs Hall; [constructor|].
  destruct b as [|c b]; [constructor|].
  change (consecutive (a :: c :: b)) with ((a, c) :: consecutive (c :: b)).
  apply Sorted_inv in Hs as [Hs Hhd]. apply HdRel_inv in Hhd.
  apply Forall_cons in Hall as [Ha Hall].
  constructor; [|by apply IH].
  simpl. apply Forall_cons in Hall as [Hc _]. done.
Qed.

Lemma cutAlong_row (hb vb : list Q) (i : nat) :
  (j ← seq 0 (length vb - 1);
   let startX := nth j vb 0%Q in
   let startY := nth i hb 0%Q in
   let cellWidth := (nth (j + 1) vb 0 - startX)%Q in
   let cellHeight := (nth (i + 1) hb 0 - startY)%Q in
   [ImageProcessing.drawCell startX startY cellWidth cellHeight])
  = (fun j => ImageProcessing.drawCell (nth j vb 0%Q) (nth i hb 0%Q)
                (nth (j + 1) vb 0 - nth j vb 0)%Q
                (nth (i + 1) hb 0 - nth i hb 0)%Q)
      <$> seq 0 (length vb - 1).
Proof. cbv zeta. apply bind_singleton_fmap. Qed.

Lemma cutAlong_length (hb vb : list Q) :
  length (ImageProcessing.cutAlong hb vb)
  = ((length hb - 1) * (length vb - 1))%nat.
Proof.
  unfold ImageProcessing.cutAlong.
  rewrite (length_bind_rows _ (length vb - 1)).
  - by rewrite length_seq.
  - intros i. rewrite cutAlong_row. by rewrite length_fmap, length_seq.
Qed.

(** Row-major order: cell number [i * columns + j] is the one between
    horizontal boundaries [i], [i+1] and vertical boundaries [j], [j+1]. *)
Lemma cutAlong_lookup (hb vb : list Q) (i j : nat) :
  (i < length hb - 1)%nat -> (j < length vb - 1)%nat ->
  ImageProcessing.cutAlong hb vb !! (i * (length vb - 1) + j)%nat
  = Some (ImageProcessing.drawCell (nth j vb 0%Q) (nth i hb 0%Q)
            (nth (j + 1) vb 0 - nth j vb 0)%Q
            (nth (i + 1) hb 0 - nth i hb 0)%Q).
Proof.
  intros Hi Hj. unfold ImageProcessing.cutAlong.
  rewrite (lookup_bind_rows _ (length vb - 1) _ i j i).
  - rewrite cutAlong_row, list_lookup_fmap, lookup_seq_lt by exact Hj.
    reflexivity.
  - intros k. rewrite cutAlong_row. by rewrite length_fmap, length_seq.
  - by rewrite lookup_seq_lt.
  - exact Hj.
Qed.

Lemma boundaries_length (ps : list Q) (extent : Q) :
  length (0%Q :: ImageProcessing.sortNumbers ps ++ [extent]) = (length ps + 2)%nat.
Proof. simpl. rewrite length_app, sortNumbers_length. simpl. lia. Qed.

Lemma boundaries_last (ps : list Q) (extent : Q) :
  last (0%Q :: ImageProcessing.sortNumbers ps ++ [extent]) = Some extent.
Proof. by rewrite app_comm_cons, last_snoc. Qed.

Lemma axis_positions_range (size : ImageSize) (horizontal : bool) (lines : list GridLine) :
  Forall (inBounds size) lines ->
  Forall (fun v => (0 <= v /\ v <= if horizontal then height size else width size)%Q)
         (position <$> List.filter (fun line => Bool.eqb (isHorizontal line) horizontal) lines).
Proof.
  intros Hall. induction Hall as [|line lines Hline Hall IH]; [constructor|].
  simpl. destruct (Bool.eqb (isHorizontal line) horizontal) eqn:E; [|exact IH].
  apply Bool.eqb_prop in E. rewrite fmap_cons. constructor; [|exact IH].
  unfold inBounds, bound in Hline. by rewrite E in Hline.
Qed.

Lemma filter_horizontal (lines : list GridLine) :
  List.filter isHorizontal lines
  = List.filter (fun line => Bool.eqb (isHorizontal line) true) lines.
Proof.
  apply List.filter_ext. intros line. by destruct (isHorizontal line).
Qed.

Lemma filter_vertical (lines : list GridLine) :
  List.filter (fun line => negb (isHorizontal line)) lines
  = List.filter (fun line => Bool.eqb (isHorizontal line) false) lines.
Proof.
  apply List.filter_ext. intros line. by destruct (isHorizontal line).
Qed.

(** C3: for any line list (any order, duplicates allowed) with all
    positions within their bounds, [cutImageWithGridLines] emits
    (h+1)*(v+1) cells; the boundaries of each axis are 0, the sorted
    positions of that axis and the bound; cell number i*(v+1)+j is the
    one between horizontal boundaries i, i+1 and vertical boundaries j,
    j+1 (row-major); every cell has non-negative width and height; every
    point of [0,W) x [0,H) lies in exactly one cell and every other
    point in none; an axis without lines has the single interval from 0
    to its bound. *)
Theorem partition_tiles_image (gridLines : list GridLine) (W H : Q) :
  (0 <= W)%Q -> (0 <= H)%Q ->
  Forall (inBounds (mkImageSize W H)) gridLines ->
  let hs := position <$> List.filter isHorizontal gridLines in
  let vs := position <$> List.filter (fun line => negb (isHorizontal line)) gridLines in
  let h := length hs in
  let v := length vs in
  let hb := ImageProcessing.horizontalPositions gridLines H in
  let vb := ImageProcessing.verticalPositions gridLines W in
  let cells := ImageProcessing.cutImageWithGridLines gridLines W H in
  length cells = ((h + 1) * (v + 1))%nat
  /\ (exists sh sv, hb = 0%Q :: sh ++ [H] /\ sh ≡ₚ hs
                    /\ vb = 0%Q :: sv ++ [W] /\ sv ≡ₚ vs)
  /\ Sorted Qle hb /\ Sorted Qle vb
  /\ (forall i j, (i <= h)%nat -> (j <= v)%nat ->
        cells !! (i * (v + 1) + j)%nat
        = Some (ImageProcessing.drawCell (nth j vb 0%Q) (nth i hb 0%Q)
                  (nth (j + 1) vb 0 - nth j vb 0)%Q
                  (nth (i + 1) hb 0 - nth i hb 0)%Q))
  /\ Forall (fun c => (0 <= ImageProcessing.sourceWidth c)%Q
                      /\ (0 <= ImageProcessing.sourceHeight c)%Q) cells
  /\ (forall x y,
        coverage cells x y
        = if (Qle_bool 0 x && Qltb x W) && (Qle_bool 0 y && Qltb y H)
          then 1%nat else 0%nat)
  /\ (h = 0%nat -> consecutive hb = [(0%Q, H)])
  /\ (v = 0%nat -> consecutive vb = [(0%Q, W)]).
Proof.
  intros HW HH Hall hs vs h v hb vb cells.
  assert (Hhs : Forall (fun p => (0 <= p /\ p <= H)%Q) hs).
  { unfold hs. rewrite filter_horizontal.
    apply (axis_positions_range (mkImageSize W H) true _ Hall). }
  assert (Hvs : Forall (fun p => (0 <= p /\ p <= W)%Q) vs).
  { unfold vs. rewrite filter_vertical.
    apply (axis_positions_range (mkImageSize W H) false _ Hall). }
  destruct (boundaries_sorted hs H HH Hhs) as [Shb Rhb].
  destruct (boundaries_sorted vs W HW Hvs) as [Svb Rvb].
  assert (Lhb : length hb = (h + 2)%nat) by apply boundaries_length.
  assert (Lvb : length vb = (v + 2)%nat) by apply boundaries_length.
  split; [|split; [|split; [|split; [|split; [|split; [|split; [|split]]]]]]].
  - unfold cells, ImageProcessing.cutImageWithGridLines.
    fold hb vb. rewrite cutAlong_length, Lhb, Lvb. f_equal; lia.
  - exists (ImageProcessing.sortNumbers hs), (ImageProcessing.sortNumbers vs).
    repeat split; try reflexivity; apply sortNumbers_perm.
  - exact Shb.
  - exact Svb.
  - intros i j Hi Hj.
    unfold cells, ImageProcessing.cutImageWithGridLines. fold hb vb.
    replace (v + 1)%nat with (length vb - 1)%nat by lia.
    apply cutAlong_lookup; lia.
  - unfold cells, ImageProcessing.cutImageWithGridLines. fold hb vb.
    rewrite cutAlong_consecutive. apply Forall_forall. intros c Hc.
    apply list_elem_of_bind in Hc as (ys & Hc & Hys).
    apply list_elem_of_bind in Hc as (xs & Hc & Hxs).
    apply list_elem_of_singleton in Hc as ->.
    pose proof (consecutive_range _ hb Shb Rhb) as Ry.
    pose proof (consecutive_range _ vb Svb Rvb) as Rx.
    rewrite Forall_forall in Ry, Rx.
    destruct (Ry ys Hys) as [Hy _].
    destruct (Rx xs Hxs) as [Hx _].
    simpl. split; lra.
  - intros x y.
    unfold cells, ImageProcessing.cutImageWithGridLines. fold hb vb.
    rewrite cutAlong_consecutive, coverage_grid.
    unfold hb, vb, ImageProcessing.horizontalPositions,
      ImageProcessing.verticalPositions. fold hs vs.
    rewrite (count_consecutive y 0 H) by (exact Shb || apply boundaries_last).
    rewrite (count_consecutive x 0 W) by (exact Svb || apply boundaries_last).
    by destruct (Qle_bool 0 x && Qltb x W), (Qle_bool 0 y && Qltb y H).
  - intros Hh0. unfold hb, ImageProcessing.horizontalPositions. fold hs.
    destruct hs; [reflexivity|discriminate].
  - intros Hv0. unfold vb, ImageProcessing.verticalPositions. fold vs.
    destruct vs; [reflexivity|discriminate].
Qed.

Lemma partition_tiles_image_witness :
  let lines := [mkGridLine 200 false; mkGridLine 100 true;
                mkGridLine 100 false; mkGridLine 100 true] in
  let cells := ImageProcessing.cutImageWithGridLines lines 300 300 in
  Forall (inBounds (mkImageSize 300 300)) lines
  /\ length cells = 9%nat
  /\ cells !! 4%nat = Some (ImageProcessing.drawCell 100 100 (200 - 100) (100 - 100))
  /\ (forall x y,
        coverage cells x y
        = if (Qle_bool 0 x && Qltb x 300) && (Qle_bool 0 y && Qltb y 300)
          then 1%nat else 0%nat).
Proof.
  intros lines cells.
  assert (Hall : Forall (inBounds (mkImageSize 300 300)) lines).
  { repeat constructor; discriminate. }
  destruct (partition_tiles_image lines 300 300 ltac:(discriminate)
              ltac:(discriminate) Hall)
    as (Hlen & _ & _ & _ & Hcell & _ & Hcov & _).
  split; [exact Hall|]. split; [exact Hlen|].
  split; [exact (Hcell 1%nat 1%nat ltac:(simpl; lia) ltac:(simpl; lia))|].
  exact Hcov.
Defined.


(** ** The uniform grid of the server route *)

Lemma bind_singleton_pair_fmap {A B C} (f : A -> B) (g : A -> C) (l : list A) :
  (a ← l; [(f a, g a)]).*2 = g <$> l.
Proof.
  induction l as [|a l IH]; [reflexivity|].
  rewrite bind_cons, fmap_app, IH. reflexivity.
Qed.

(** The regions, row by row. *)
Lemma serverRegions_rows (W H rows columns : Z) :
  serverRegions W H rows columns
  = (row ← seqZ 0 rows;
     (fun col => CutImageRoute.mkRegion (col * (W / columns)) (row * (H / rows))
                   (W / columns) (H / rows)) <$> seqZ 0 columns).
Proof.
  unfold serverRegions, CutImageRoute.cellJobs. cbv zeta.
  induction (seqZ 0 rows) as [|row l IH]; [reflexivity|].
  rewrite !bind_cons, fmap_app, IH. f_equal.
  apply bind_singleton_pair_fmap.
Qed.

Lemma serverRegions_length (W H rows columns : Z) :
  length (serverRegions W H rows columns)
  = (Z.to_nat rows * Z.to_nat columns)%nat.
Proof.
  rewrite serverRegions_rows.
  rewrite (length_bind_rows _ (Z.to_nat columns)).
  - by rewrite length_seqZ.
  - intros row. by rewrite length_fmap, length_seqZ.
Qed.

Lemma serverRegions_lookup (W H rows columns row col : Z) :
  0 <= row < rows -> 0 <= col < columns ->
  serverRegions W H rows columns !! Z.to_nat (row * columns + col)
  = Some (CutImageRoute.mkRegion (col * (W / columns)) (row * (H / rows))
            (W / columns) (H / rows)).
Proof.
  intros Hrow Hcol. rewrite serverRegions_rows.
  replace (Z.to_nat (row * columns + col))
    with (Z.to_nat row * Z.to_nat columns + Z.to_nat col)%nat by nia.
  rewrite (lookup_bind_rows _ (Z.to_nat columns) _ _ _ row).
  - rewrite list_lookup_fmap, lookup_seqZ_lt by lia. simpl.
    do 2 f_equal; f_equal; lia.
  - intros r. by rewrite length_fmap, length_seqZ.
  - rewrite lookup_seqZ_lt by lia. f_equal. lia.
  - lia.
Qed.

Lemma serverRegions_size (W H rows columns : Z) :
  Forall (fun r => CutImageRoute.regionWidth r = W / columns
                   /\ CutImageRoute.regionHeight r = H / rows)
         (serverRegions W H rows columns).
Proof.
  rewrite serverRegions_rows. apply Forall_forall. intros r Hr.
  apply list_elem_of_bind in Hr as (row & Hr & _).
  apply list_elem_of_fmap in Hr as (col & -> & _). done.
Qed.

(** Strips of width [cw] laid side by side from 0: a coordinate lies in
    exactly one of the first [n] strips when it is below [n * cw], and in
    none otherwise. *)
Lemma count_strips (n : nat) (cw p : Z) :
  0 <= cw ->
  length (List.filter (fun k => (k * cw <=? p) && (p <? k * cw + cw))
                      (seqZ 0 (Z.of_nat n)))
  = if (0 <=? p) && (p <? Z.of_nat n * cw) then 1%nat else 0%nat.
Proof.
  intros Hcw. induction n as [|n IH].
  - simpl length. by_comparisons.
  - rewrite seqZ_S, List.filter_app, length_app, IH. simpl List.filter.
    by_comparisons.
Qed.

Lemma count_product {X Y C} (f : X -> Y -> C) (p : C -> bool)
      (pX : X -> bool) (pY : Y -> bool) (ys : list Y) (xs : list X) :
  (forall x y, p (f x y) = pX x && pY y) ->
  length (List.filter p (y ← ys; (fun x => f x y) <$> xs))
  = (length (List.filter pY ys) * length (List.filter pX xs))%nat.
Proof.
  intros Hp.
  assert (Hrow : forall y,
             length (List.filter p ((fun x => f x y) <$> xs))
             = if pY y then length (List.filter pX xs) else 0%nat).
  { intros y. induction xs as [|x xs IH]; [by destruct (pY y)|].
    rewrite fmap_cons. simpl. rewrite Hp.
    destruct (pX x), (pY y); simpl in *; by rewrite IH. }
  induction ys as [|y ys IH]; [reflexivity|].
  rewrite bind_cons, List.filter_app, length_app, IH, Hrow. simpl.
  destruct (pY y); simpl; lia.
Qed.

Lemma serverRegions_coverage (W H rows columns px py : Z) :
  0 <= W -> 0 <= H -> 0 < rows -> 0 < columns ->
  regionCoverage (serverRegions W H rows columns) px py
  = if ((0 <=? px) && (px <? columns * (W / columns)))
       && ((0 <=? py) && (py <? rows * (H / rows)))
    then 1%nat else 0%nat.
Proof.
  intros HW HH Hrows Hcols. unfold regionCoverage.
  rewrite serverRegions_rows.
  rewrite (count_product
             (fun col row => CutImageRoute.mkRegion (col * (W / columns))
                               (row * (H / rows)) (W / columns) (H / rows))
             _ (fun k => (k * (W / columns) <=? px) && (px <? k * (W / columns) + W / columns))
             (fun k => (k * (H / rows) <=? py) && (py <? k * (H / rows) + H / rows))).
  - rewrite <- (Z2Nat.id rows), <- (Z2Nat.id columns) by lia.
    rewrite !count_strips by (apply Z.div_pos; lia).
    rewrite !Z2Nat.id by lia.
    by destruct ((0 <=? px) && (px <? columns * (W / columns))),
                ((0 <=? py) && (py <? rows * (H / rows))).
  - intros col row. unfold regionCovers. simpl. by rewrite andb_assoc.
Qed.


(** A well-formed request reaches the cell loops, and the regions the
    route asks [sharp] for are the uniform ones, whether or not the
    extraction then succeeds. *)
Lemma POST_extracted {File : Type}
      (sharpMetadata : File -> option CutImageRoute.Metadata)
      (extractToBuffer : File -> CutImageRoute.Region -> option (list N))
      (settleOrder : list (string * list N) -> list (string * list N))
      (formData : CutImageRoute.FormData File) (imageFile : File)
      (W H rows columns : Z) :
  CutImageRoute.image formData = Some imageFile ->
  CutImageRoute.parseInt (default "null" (CutImageRoute.rowsField formData)) = Some rows ->
  CutImageRoute.parseInt (default "null" (CutImageRoute.columnsField formData)) = Some columns ->
  sharpMetadata imageFile = Some (CutImageRoute.mkMetadata (Some W) (Some H)) ->
  W <> 0 -> H <> 0 -> rows <> 0 -> columns <> 0 ->
  CutImageRoute.extracted
    (CutImageRoute.POST sharpMetadata extractToBuffer settleOrder formData)
  = serverRegions W H rows columns.
Proof.
  intros Himg Hrows Hcols Hmeta HW HH Hr Hc.
  unfold CutImageRoute.POST. rewrite Himg, Hrows, Hcols, Hmeta. simpl.
  destruct (Z.eqb_spec rows 0); [done|].
  destruct (Z.eqb_spec columns 0); [done|].
  destruct (Z.eqb_spec W 0); [done|].
  destruct (Z.eqb_spec H 0); [done|].
  simpl. by destruct (CutImageRoute.extractAll _ _ _).
Qed.

(** C2, as the claim states it, fails on a 10 x 10 image cut 3 x 3: all
    nine regions are 3 x 3, the last column and the last row included,
    and the pixel (9, 9) of the image lies in none of them. *)
Lemma uniform_cells_miss_last_pixel :
  let regions := serverRegions 10 10 3 3 in
  Forall (fun r => CutImageRoute.regionWidth r = 3
                   /\ CutImageRoute.regionHeight r = 3) regions
  /\ last regions = Some (CutImageRoute.mkRegion 6 6 3 3)
  /\ regionCoverage regions 9 9 = 0%nat.
Proof. vm_compute. repeat split; repeat constructor. Qed.

(** C2 (amended): for a request the route accepts, with positive row and
    column counts, the regions extracted are rows*columns in number and
    every one of them, the last row and column included, is
    floor(W/columns) wide and floor(H/rows) high; a pixel lies in exactly
    one region when it is left of W - W mod columns and above
    H - H mod rows, and in none otherwise, so the W mod columns rightmost
    pixel columns and the H mod rows bottom pixel rows are not
    extracted. *)
Theorem uniform_cells_drop_remainder {File : Type}
      (sharpMetadata : File -> option CutImageRoute.Metadata)
      (extractToBuffer : File -> CutImageRoute.Region -> option (list N))
      (settleOrder : list (string * list N) -> list (string * list N))
      (formData : CutImageRoute.FormData File) (imageFile : File)
      (W H rows columns : Z) :
  CutImageRoute.image formData = Some imageFile ->
  CutImageRoute.parseInt (default "null" (CutImageRoute.rowsField formData)) = Some rows ->
  CutImageRoute.parseInt (default "null" (CutImageRoute.columnsField formData)) = Some columns ->
  sharpMetadata imageFile = Some (CutImageRoute.mkMetadata (Some W) (Some H)) ->
  0 < W -> 0 < H -> 0 < rows -> 0 < columns ->
  let regions :=
    CutImageRoute.extracted
      (CutImageRoute.POST sharpMetadata extractToBuffer settleOrder formData) in
  length regions = (Z.to_nat rows * Z.to_nat columns)%nat
  /\ Forall (fun r => CutImageRoute.regionWidth r = W / columns
                      /\ CutImageRoute.regionHeight r = H / rows) regions
  /\ (forall px py,
        regionCoverage regions px py
        = if ((0 <=? px) && (px <? W - W mod columns))
             && ((0 <=? py) && (py <? H - H mod rows))
          then 1%nat else 0%nat).
Proof.
  intros Himg Hrows Hcols Hmeta HW HH Hr Hc regions.
  assert (E : regions = serverRegions W H rows columns).
  { unfold regions. by eapply POST_extracted; try eassumption; lia. }
  rewrite E. split; [apply serverRegions_length|].
  split; [apply serverRegions_size|].
  intros px py. rewrite serverRegions_coverage by lia.
  replace (columns * (W / columns)) with (W - W mod columns)
    by (rewrite (Z.mod_eq W columns); lia).
  replace (rows * (H / rows)) with (H - H mod rows)
    by (rewrite (Z.mod_eq H rows); lia).
  reflexivity.
Qed.

Lemma uniform_cells_drop_remainder_witness :
  let sharpMetadata := fun _ : unit =>
    Some (CutImageRoute.mkMetadata (Some 10) (Some 10)) in
  let extractToBuffer := fun (_ : unit) (r : CutImageRoute.Region) =>
    Some [Z.to_N (CutImageRoute.left r); Z.to_N (CutImageRoute.top r)] in
  let formData := CutImageRoute.mkFormData (Some tt) (Some "3") (Some "3") in
  let regions :=
    CutImageRoute.extracted
      (CutImageRoute.POST sharpMetadata extractToBuffer (fun l => reverse l) formData) in
  length regions = 9%nat
  /\ Forall (fun r => CutImageRoute.regionWidth r = 10 / 3
                      /\ CutImageRoute.regionHeight r = 10 / 3) regions
  /\ regionCoverage regions 8 8 = 1%nat
  /\ regionCoverage regions 9 0 = 0%nat.
Proof.
  intros sharpMetadata extractToBuffer formData regions.
  destruct (uniform_cells_drop_remainder sharpMetadata extractToBuffer
              (fun l => reverse l) formData tt 10 10 3 3
              eq_refl eq_refl eq_refl eq_refl
              ltac:(lia) ltac:(lia) ltac:(lia) ltac:(lia))
    as (Hlen & Hsize & Hcov).
  split; [exact Hlen|]. split; [exact Hsize|].
  split; [exact (Hcov 8 8)|exact (Hcov 9 0)].
Defined.

(** ** The two uniform extractions side by side *)

Lemma cutImageIntoGrid_rows (W H rows columns : Z) :
  ImageProcessing.cutImageIntoGrid W H rows columns
  = (row ← seqZ 0 rows;
     (fun col =>
        ImageProcessing.mkDrawnCell
          (inject_Z col * (inject_Z W / inject_Z columns))
          (inject_Z row * (inject_Z H / inject_Z rows))
          (inject_Z W / inject_Z columns) (inject_Z H / inject_Z rows)
          (ImageProcessing.canvasSize (inject_Z W / inject_Z columns))
          (ImageProcessing.canvasSize (inject_Z H / inject_Z rows)))
       <$> seqZ 0 columns).
Proof.
  unfold ImageProcessing.cutImageIntoGrid. cbv zeta.
  apply list_bind_ext; [|reflexivity]. intros row.
  apply bind_singleton_fmap.
Qed.

Lemma cutImageIntoGrid_length (W H rows columns : Z) :
  length (ImageProcessing.cutImageIntoGrid W H rows columns)
  = (Z.to_nat rows * Z.to_nat columns)%nat.
Proof.
  rewrite cutImageIntoGrid_rows.
  rewrite (length_bind_rows _ (Z.to_nat columns)).
  - by rewrite length_seqZ.
  - intros row. by rewrite length_fmap, length_seqZ.
Qed.

Lemma cutImageIntoGrid_lookup (W H rows columns row col : Z) :
  0 <= row < rows -> 0 <= col < columns ->
  ImageProcessing.cutImageIntoGrid W H rows columns !! Z.to_nat (row * columns + col)
  = Some (ImageProcessing.mkDrawnCell
            (inject_Z col * (inject_Z W / inject_Z columns))
            (inject_Z row * (inject_Z H / inject_Z rows))
            (inject_Z W / inject_Z columns) (inject_Z H / inject_Z rows)
            (ImageProcessing.canvasSize (inject_Z W / inject_Z columns))
            (ImageProcessing.canvasSize (inject_Z H / inject_Z rows))).
Proof.
  intros Hrow Hcol. rewrite cutImageIntoGrid_rows.
  replace (Z.to_nat (row * columns + col))
    with (Z.to_nat row * Z.to_nat columns + Z.to_nat col)%nat by nia.
  rewrite (lookup_bind_rows _ (Z.to_nat columns) _ _ _ row).
  - rewrite list_lookup_fmap, lookup_seqZ_lt by lia. simpl.
    replace (0 + Z.of_nat (Z.to_nat col)) with col by lia. reflexivity.
  - intros r. by rewrite length_fmap, length_seqZ.
  - rewrite lookup_seqZ_lt by lia. f_equal. lia.
  - lia.
Qed.

Lemma Forall2_bind_rows {A B C} (R : B -> C -> Prop)
      (f : A -> list B) (g : A -> list C) (l : list A) :
  (forall a, Forall2 R (f a) (g a)) -> Forall2 R (l ≫= f) (l ≫= g).
Proof.
  intros Hrow. induction l as [|a l IH]; [constructor|].
  rewrite !bind_cons. by apply Forall2_app.
Qed.

Lemma Qdiv_exact (a b : Z) :
  0 < b -> (b | a) -> (inject_Z a / inject_Z b == inject_Z (a / b))%Q.
Proof.
  intros Hb [q ->]. rewrite Z.div_mul by lia. rewrite inject_Z_mult.
  field. intros E. unfold Qeq in E. simpl in E. lia.
Qed.

(** The cells of [cutImageIntoGrid] beside the regions the route asks
    for: as many, in the same row-major order, of the same size in
    pixels, and cropping the same rectangle when the counts divide the
    size. *)
Lemma uniform_cells_match_regions (W H rows columns : Z) :
  0 < W -> 0 < H -> 0 < rows -> 0 < columns ->
  let client := ImageProcessing.cutImageIntoGrid W H rows columns in
  let server := serverRegions W H rows columns in
  length client = (Z.to_nat rows * Z.to_nat columns)%nat
  /\ length server = (Z.to_nat rows * Z.to_nat columns)%nat
  /\ (forall row col, 0 <= row < rows -> 0 <= col < columns ->
        client !! Z.to_nat (row * columns + col)
        = Some (ImageProcessing.mkDrawnCell
                  (inject_Z col * (inject_Z W / inject_Z columns))
                  (inject_Z row * (inject_Z H / inject_Z rows))
                  (inject_Z W / inject_Z columns) (inject_Z H / inject_Z rows)
                  (W / columns) (H / rows))
        /\ server !! Z.to_nat (row * columns + col)
           = Some (CutImageRoute.mkRegion (col * (W / columns)) (row * (H / rows))
                     (W / columns) (H / rows)))
  /\ Forall2 samePixelSize client server
  /\ ((columns | W) -> (rows | H) -> Forall2 sameCrop client server).
Proof.
  intros HW HH Hrows Hcols client server.
  assert (Hpw : ImageProcessing.canvasSize (inject_Z W / inject_Z columns) = W / columns).
  { unfold ImageProcessing.canvasSize. symmetry. apply Zdiv_Qdiv. }
  assert (Hph : ImageProcessing.canvasSize (inject_Z H / inject_Z rows) = H / rows).
  { unfold ImageProcessing.canvasSize. symmetry. apply Zdiv_Qdiv. }
  split; [apply cutImageIntoGrid_length|].
  split; [apply serverRegions_length|].
  split; [|split].
  - intros row col Hrow Hcol. split.
    + unfold client. rewrite cutImageIntoGrid_lookup by lia.
      by rewrite Hpw, Hph.
    + by apply serverRegions_lookup.
  - unfold client, server. rewrite cutImageIntoGrid_rows, serverRegions_rows.
    apply Forall2_bind_rows. intros row.
    apply Forall2_fmap, Forall_Forall2_diag, Forall_forall. intros col _.
    split; project_cells; [exact Hpw|exact Hph].
  - intros Dw Dh.
    unfold client, server. rewrite cutImageIntoGrid_rows, serverRegions_rows.
    apply Forall2_bind_rows. intros row.
    apply Forall2_fmap, Forall_Forall2_diag, Forall_forall. intros col _.
    pose proof (Qdiv_exact W columns Hcols Dw) as Ew.
    pose proof (Qdiv_exact H rows Hrows Dh) as Eh.
    unfold sameCrop, samePixelSize. project_cells.
    rewrite Hpw, Hph, !inject_Z_mult, Ew, Eh.
    repeat split; reflexivity.
Qed.

(** ** The archive *)

Lemma string_app_inj_r (s1 s2 t : string) : s1 +:+ t = s2 +:+ t -> s1 = s2.
Proof.
  assert (Hlen : forall a b : string,
             String.length (a +:+ b) = (String.length a + String.length b)%nat).
  { intros a b. induction a as [|c a IH]; simpl; [reflexivity|by rewrite IH]. }
  revert s2. induction s1 as [|c s1 IH]; intros [|d s2] E.
  - reflexivity.
  - apply (f_equal String.length) in E.
    change (String.length t = S (String.length (s2 +:+ t))) in E.
    rewrite (Hlen s2 t) in E. exfalso. lia.
  - apply (f_equal String.length) in E.
    change (S (String.length (s1 +:+ t)) = String.length t) in E.
    rewrite (Hlen s1 t) in E. exfalso. lia.
  - change (String c (s1 +:+ t) = String d (s2 +:+ t)) in E.
    injection E as -> E. f_equal. by apply IH.
Qed.

#[local] Instance entryName_inj : Inj (=) (=) ImageProcessing.entryName.
Proof.
  intros n m E. unfold ImageProcessing.entryName in E.
  apply (inj (String.app "image_")) in E.
  apply string_app_inj_r in E. by apply (inj pretty) in E.
Qed.

Lemma entryNames_NoDup (n : Z) :
  NoDup (ImageProcessing.entryName <$> seqZ 1 n).
Proof. apply NoDup_fmap_2; [apply _|apply NoDup_seqZ]. Qed.

Lemma lookup_entryNames (n : Z) (k : nat) :
  Z.of_nat k < n ->
  (ImageProcessing.entryName <$> seqZ 1 n) !! k
  = Some (ImageProcessing.entryName (Z.of_nat k + 1)).
Proof.
  intros Hk. rewrite list_lookup_fmap, lookup_seqZ_lt by lia. simpl.
  do 2 f_equal. lia.
Qed.

(** [zip.file] called once per entry, under distinct names: the archive
    is the finite map of the entries, in whatever order they arrive. *)
Lemma addFiles_list_to_map (entries : list (string * list N)) :
  NoDup entries.*1 -> CutImageRoute.addFiles entries = list_to_map entries.
Proof.
  unfold CutImageRoute.addFiles.
  induction entries as [|[name content] entries IH] using rev_ind; intros Hnd.
  - reflexivity.
  - rewrite foldl_snoc. simpl.
    rewrite fmap_app in Hnd. apply NoDup_app in Hnd as (Hnd & Hfresh & _).
    rewrite IH by exact Hnd.
    rewrite list_to_map_snoc; [reflexivity|].
    intros Hin. apply (Hfresh name Hin). simpl. apply list_elem_of_here.
Qed.

(** What an archive built from entries named [image_1.png] ...
    [image_N.png] holds, whatever the order of the [zip.file] calls. *)
Lemma archive_of_entries (entries shuffled : list (string * list N)) :
  entries.*1 = ImageProcessing.entryName <$> seqZ 1 (Z.of_nat (length entries)) ->
  shuffled ≡ₚ entries ->
  let zip := CutImageRoute.addFiles shuffled in
  size zip = length entries
  /\ (forall k e, entries !! k = Some e ->
        e.1 = ImageProcessing.entryName (Z.of_nat k + 1)
        /\ zip !! ImageProcessing.entryName (Z.of_nat k + 1) = Some e.2)
  /\ (forall name, is_Some (zip !! name) <->
        exists n, 1 <= n <= Z.of_nat (length entries)
                  /\ name = ImageProcessing.entryName n).
Proof.
  intros Hnames Hperm zip.
  assert (Hnd : NoDup entries.*1) by (rewrite Hnames; apply entryNames_NoDup).
  assert (Hnd' : NoDup shuffled.*1) by (by rewrite Hperm).
  assert (Hzip : zip = list_to_map entries).
  { unfold zip. rewrite addFiles_list_to_map by exact Hnd'.
    by apply list_to_map_proper. }
  rewrite Hzip. split; [by apply map_size_list_to_map|]. split.
  - intros k [name content] Hk.
    assert (Hname : name = ImageProcessing.entryName (Z.of_nat k + 1)).
    { assert (Hk1 : entries.*1 !! k = Some name) by (by rewrite list_lookup_fmap, Hk).
      rewrite Hnames, lookup_entryNames in Hk1.
      - by injection Hk1.
      - apply lookup_lt_Some in Hk. lia. }
    split; [exact Hname|]. simpl. rewrite <- Hname.
    apply elem_of_list_to_map; [exact Hnd|].
    by eapply list_elem_of_lookup_2.
  - intros name. split.
    + intros [content Hc].
      apply elem_of_list_to_map in Hc; [|exact Hnd].
      assert (Hin : name ∈ entries.*1).
      { apply list_elem_of_fmap. by exists (name, content). }
      rewrite Hnames in Hin. apply list_elem_of_fmap in Hin as (n & -> & Hn).
      apply elem_of_seqZ in Hn. exists n. split; [lia|reflexivity].
    + intros (n & Hn & ->).
      destruct (list_to_map entries !! ImageProcessing.entryName n) eqn:E; [done|].
      apply not_elem_of_list_to_map in E. exfalso. apply E.
      rewrite Hnames. apply list_elem_of_fmap. exists n. split; [reflexivity|].
      apply elem_of_seqZ. lia.
Qed.

(** The slice loop reassembles the byte string from [offset] on, once
    the fuel covers what is left of it. *)
Lemma sliceLoop_concat (fuel offset sliceSize : nat) (chars : list ascii)
      (byteArrays : list (list N)) :
  (0 < sliceSize)%nat -> (length chars <= offset + fuel)%nat ->
  concat (ImageProcessing.sliceLoop fuel offset sliceSize chars byteArrays)
  = concat byteArrays ++ (N_of_ascii <$> drop offset chars).
Proof.
  intros Hsz. revert offset byteArrays.
  induction fuel as [|fuel IH]; intros offset byteArrays Hfuel; simpl.
  - rewrite drop_ge by lia. by rewrite app_nil_r.
  - destruct (Nat.ltb_spec offset (length chars)) as [Hlt|Hge].
    + rewrite IH by lia.
      rewrite concat_app, <- app_assoc. f_equal. simpl. rewrite app_nil_r.
      rewrite <- (take_drop sliceSize (drop offset chars)) at 2.
      rewrite fmap_app, drop_drop. f_equal.
      apply list_fmap_ext. intros _ c _.
      apply N.mod_small, N_ascii_bounded.
    + rewrite drop_ge by lia. by rewrite app_nil_r.
Qed.

Lemma b64toBlob_bytes (atob : string -> option (list ascii)) (b64Data : string) :
  ImageProcessing.b64toBlob atob b64Data
  = (fun chars : list ascii => N_of_ascii <$> chars) <$> atob b64Data.
Proof.
  unfold ImageProcessing.b64toBlob.
  destruct (atob b64Data) as [chars|]; [|reflexivity]. simpl. f_equal.
  rewrite sliceLoop_concat by lia. reflexivity.
Qed.

Lemma addImages_addFiles (atob : string -> option (list ascii))
      (gridImages : list string) (blobs : list (list N)) (index : nat)
      (archive : gmap string (list N)) :
  Forall2 (fun dataUrl blob =>
             ImageProcessing.b64toBlob atob
               (default "undefined" (ImageProcessing.secondField dataUrl)) = Some blob)
          gridImages blobs ->
  ImageProcessing.addImages atob gridImages index archive
  = Some (foldl (fun acc entry => <[entry.1 := entry.2]> acc) archive
            (zip (ImageProcessing.entryName
                    <$> seqZ (Z.of_nat index + 1) (Z.of_nat (length gridImages)))
                 blobs)).
Proof.
  intros Hall. revert index archive.
  induction Hall as [|dataUrl blob gridImages blobs Hblob Hall IH]; intros index archive.
  - reflexivity.
  - simpl ImageProcessing.addImages. rewrite Hblob. simpl.
    rewrite IH. f_equal.
    rewrite (seqZ_cons (Z.of_nat index + 1)) by lia.
    replace (Z.succ (Z.of_nat index + 1)) with (Z.of_nat (S index) + 1) by lia.
    replace (Z.pred (Z.of_nat (S (length gridImages))))
      with (Z.of_nat (length gridImages)) by lia.
    reflexivity.
Qed.

Lemma cellJobs_rows (W H rows columns : Z) :
  CutImageRoute.cellJobs W H rows columns
  = (row ← seqZ 0 rows;
     (fun col => (ImageProcessing.entryName (row * columns + col + 1),
                  CutImageRoute.mkRegion (col * (W / columns)) (row * (H / rows))
                    (W / columns) (H / rows))) <$> seqZ 0 columns).
Proof.
  unfold CutImageRoute.cellJobs. cbv zeta.
  apply list_bind_ext; [|reflexivity]. intros row.
  apply bind_singleton_fmap.
Qed.

Lemma cellJobs_length (W H rows columns : Z) :
  length (CutImageRoute.cellJobs W H rows columns)
  = (Z.to_nat rows * Z.to_nat columns)%nat.
Proof.
  rewrite cellJobs_rows, (length_bind_rows _ (Z.to_nat columns)).
  - by rewrite length_seqZ.
  - intros row. by rewrite length_fmap, length_seqZ.
Qed.

Lemma cellJobs_lookup (W H rows columns row col : Z) :
  0 <= row < rows -> 0 <= col < columns ->
  CutImageRoute.cellJobs W H rows columns !! Z.to_nat (row * columns + col)
  = Some (ImageProcessing.entryName (row * columns + col + 1),
          CutImageRoute.mkRegion (col * (W / columns)) (row * (H / rows))
            (W / columns) (H / rows)).
Proof.
  intros Hrow Hcol. rewrite cellJobs_rows.
  replace (Z.to_nat (row * columns + col))
    with (Z.to_nat row * Z.to_nat columns + Z.to_nat col)%nat by nia.
  rewrite (lookup_bind_rows _ (Z.to_nat columns) _ _ _ row).
  - rewrite list_lookup_fmap, lookup_seqZ_lt by lia. simpl.
    replace (0 + Z.of_nat (Z.to_nat col)) with col by lia. reflexivity.
  - intros r. by rewrite length_fmap, length_seqZ.
  - rewrite lookup_seqZ_lt by lia. f_equal. lia.
  - lia.
Qed.

(** Row by row, the file names count from 1 to rows*columns. *)
Lemma cellJobs_names (W H rows columns : Z) :
  0 < rows -> 0 < columns ->
  (CutImageRoute.cellJobs W H rows columns).*1
  = ImageProcessing.entryName <$> seqZ 1 (rows * columns).
Proof.
  intros Hrows Hcols.
  apply (list_eq_same_length _ _ (Z.to_nat (rows * columns))).
  - by rewrite length_fmap, length_seqZ.
  - rewrite length_fmap, cellJobs_length. nia.
  - intros i name name' Hi Hl Hr.
    set (row := Z.of_nat i / columns). set (col := Z.of_nat i mod columns).
    assert (Hdiv : Z.of_nat i = row * columns + col).
    { unfold row, col. rewrite (Z.div_mod (Z.of_nat i) columns) at 1 by lia. lia. }
    assert (Hcol : 0 <= col < columns) by (apply Z.mod_pos_bound; lia).
    assert (Hrow : 0 <= row < rows).
    { split; [apply Z.div_pos; lia|]. apply Z.div_lt_upper_bound; lia. }
    rewrite lookup_entryNames in Hr by lia. injection Hr as <-.
    rewrite list_lookup_fmap in Hl.
    replace i with (Z.to_nat (row * columns + col)) in Hl by lia.
    rewrite cellJobs_lookup in Hl by lia. simpl in Hl. injection Hl as <-.
    f_equal. lia.
Qed.

Lemma extractAll_settled {File : Type}
      (extractToBuffer : File -> CutImageRoute.Region -> option (list N))
      (imageFile : File) (jobs : list (string * CutImageRoute.Region)) :
  Forall (fun job => is_Some (extractToBuffer imageFile job.2)) jobs ->
  exists settled,
    CutImageRoute.extractAll extractToBuffer imageFile jobs = Some settled
    /\ Forall2 (fun job entry =>
                  entry.1 = job.1 /\ extractToBuffer imageFile job.2 = Some entry.2)
               jobs settled.
Proof.
  intros Hall. unfold CutImageRoute.extractAll.
  induction Hall as [|[name region] jobs [buffer Hb] Hall (settled & Hs & Hrel)].
  - exists []. split; [reflexivity|constructor].
  - exists ((name, buffer) :: settled). split.
    + simpl in *. rewrite Hb. simpl. rewrite Hs. reflexivity.
    + constructor; [done|exact Hrel].
Qed.

Lemma settled_names (A : Type) (f : A -> option (list N))
      (jobs : list (string * A)) (settled : list (string * list N)) :
  Forall2 (fun job entry => entry.1 = job.1 /\ f job.2 = Some entry.2) jobs settled ->
  settled.*1 = jobs.*1.
Proof.
  induction 1 as [|job entry jobs settled [Hname _] _ IH]; [reflexivity|].
  rewrite !fmap_cons. by rewrite Hname, IH.
Qed.

Lemma client_archive (atob : string -> option (list ascii))
      (gridImages : list string) (fileName : string) :
  Forall (fun dataUrl =>
            is_Some (atob (default "undefined" (ImageProcessing.secondField dataUrl))))
         gridImages ->
  exists archive,
    ImageProcessing.createAndDownloadZip atob gridImages fileName
    = Some (archive, fileName +:+ ".zip")
    /\ size archive = length gridImages
    /\ (forall k dataUrl, gridImages !! k = Some dataUrl ->
          exists chars,
            atob (default "undefined" (ImageProcessing.secondField dataUrl)) = Some chars
            /\ archive !! ImageProcessing.entryName (Z.of_nat k + 1)
               = Some (N_of_ascii <$> chars))
    /\ (forall name, is_Some (archive !! name) <->
          exists n, 1 <= n <= Z.of_nat (length gridImages)
                    /\ name = ImageProcessing.entryName n).
Proof.
  intros Hall.
  set (payload := fun dataUrl =>
                    default "undefined" (ImageProcessing.secondField dataUrl)).
  set (blobOf := fun dataUrl => N_of_ascii <$> default [] (atob (payload dataUrl))).
  assert (Hblobs : Forall2 (fun dataUrl blob =>
                              ImageProcessing.b64toBlob atob (payload dataUrl) = Some blob)
                           gridImages (blobOf <$> gridImages)).
  { apply Forall2_fmap_r, Forall_Forall2_diag.
    eapply Forall_impl; [exact Hall|]. intros dataUrl [chars Hc].
    unfold compose. rewrite b64toBlob_bytes. unfold blobOf, payload.
    rewrite Hc. reflexivity. }
  set (names := ImageProcessing.entryName <$> seqZ 1 (Z.of_nat (length gridImages))).
  set (entries := zip names (blobOf <$> gridImages)).
  assert (Hlen : length entries = length gridImages).
  { unfold entries, names.
    rewrite length_zip_with, !length_fmap, length_seqZ. lia. }
  assert (Hnames : entries.*1
                   = ImageProcessing.entryName <$> seqZ 1 (Z.of_nat (length entries))).
  { rewrite Hlen. unfold entries. apply fst_zip.
    unfold names. rewrite !length_fmap, length_seqZ. lia. }
  destruct (archive_of_entries entries entries Hnames (Permutation_refl entries))
    as (Hsize & Hlook & Hdom).
  exists (CutImageRoute.addFiles entries). split; [|split; [|split]].
  - unfold ImageProcessing.createAndDownloadZip.
    rewrite (addImages_addFiles atob gridImages (blobOf <$> gridImages) 0 ∅ Hblobs).
    reflexivity.
  - by rewrite Hsize.
  - intros k dataUrl Hk.
    rewrite Forall_forall in Hall.
    destruct (Hall dataUrl (list_elem_of_lookup_2 _ _ _ Hk)) as [chars Hc].
    exists chars. split; [exact Hc|].
    assert (He : entries !! k
                 = Some (ImageProcessing.entryName (Z.of_nat k + 1), blobOf dataUrl)).
    { unfold entries. apply lookup_zip_with_Some.
      exists (ImageProcessing.entryName (Z.of_nat k + 1)), (blobOf dataUrl).
      split; [reflexivity|]. split.
      - unfold names. apply lookup_entryNames.
        apply lookup_lt_Some in Hk. lia.
      - by rewrite list_lookup_fmap, Hk. }
    destruct (Hlook k _ He) as [_ Hz]. rewrite Hz. simpl.
    unfold blobOf, payload. cbv beta. rewrite Hc. reflexivity.
  - intros name. rewrite Hdom, Hlen. reflexivity.
Qed.

Lemma server_archive {File : Type}
      (sharpMetadata : File -> option CutImageRoute.Metadata)
      (extractToBuffer : File -> CutImageRoute.Region -> option (list N))
      (settleOrder : list (string * list N) -> list (string * list N))
      (formData : CutImageRoute.FormData File) (imageFile : File)
      (W H rows columns : Z) :
  CutImageRoute.image formData = Some imageFile ->
  CutImageRoute.parseInt (default "null" (CutImageRoute.rowsField formData)) = Some rows ->
  CutImageRoute.parseInt (default "null" (CutImageRoute.columnsField formData)) = Some columns ->
  sharpMetadata imageFile = Some (CutImageRoute.mkMetadata (Some W) (Some H)) ->
  0 < W -> 0 < H -> 0 < rows -> 0 < columns ->
  Forall (fun region => is_Some (extractToBuffer imageFile region))
         (serverRegions W H rows columns) ->
  (forall settled, settleOrder settled ≡ₚ settled) ->
  exists archive,
    CutImageRoute.response
      (CutImageRoute.POST sharpMetadata extractToBuffer settleOrder formData)
    = CutImageRoute.ZipFile archive
    /\ size archive = (Z.to_nat rows * Z.to_nat columns)%nat
    /\ (forall row col, 0 <= row < rows -> 0 <= col < columns ->
          exists cellBuffer,
            extractToBuffer imageFile
              (CutImageRoute.mkRegion (col * (W / columns)) (row * (H / rows))
                 (W / columns) (H / rows)) = Some cellBuffer
            /\ archive !! ImageProcessing.entryName (row * columns + col + 1)
               = Some cellBuffer)
    /\ (forall name, is_Some (archive !! name) <->
          exists n, 1 <= n <= rows * columns /\ name = ImageProcessing.entryName n).
Proof.
  intros Himg Hrows Hcols Hmeta HW HH Hr Hc Hextract Hperm.
  set (jobs := CutImageRoute.cellJobs W H rows columns).
  assert (Hjobs : Forall (fun job => is_Some (extractToBuffer imageFile job.2)) jobs).
  { unfold serverRegions in Hextract. fold jobs in Hextract.
    rewrite Forall_fmap in Hextract. exact Hextract. }
  destruct (extractAll_settled extractToBuffer imageFile jobs Hjobs)
    as (settled & Hsettled & Hrel).
  assert (Hlen : length settled = (Z.to_nat rows * Z.to_nat columns)%nat).
  { rewrite <- (Forall2_length _ _ _ Hrel). apply cellJobs_length. }
  assert (Hnames : settled.*1
                   = ImageProcessing.entryName <$> seqZ 1 (Z.of_nat (length settled))).
  { rewrite (settled_names _ _ _ _ Hrel). unfold jobs.
    rewrite cellJobs_names by lia. do 2 f_equal. nia. }
  destruct (archive_of_entries settled (settleOrder settled) Hnames (Hperm settled))
    as (Hsize & Hlook & Hdom).
  exists (CutImageRoute.addFiles (settleOrder settled)). split; [|split; [|split]].
  - unfold CutImageRoute.POST. rewrite Himg, Hrows, Hcols, Hmeta. simpl.
    destruct (Z.eqb_spec rows 0); [lia|].
    destruct (Z.eqb_spec columns 0); [lia|].
    destruct (Z.eqb_spec W 0); [lia|].
    destruct (Z.eqb_spec H 0); [lia|].
    simpl. fold jobs. by rewrite Hsettled.
  - by rewrite Hsize.
  - intros row col Hrow Hcol.
    pose proof (cellJobs_lookup W H rows columns row col Hrow Hcol) as Hjob.
    fold jobs in Hjob.
    destruct (Forall2_lookup_l _ _ _ _ _ Hrel Hjob) as ([name cellBuffer] & He & Hn & Hb).
    simpl in Hn, Hb. exists cellBuffer. split; [exact Hb|].
    destruct (Hlook _ _ He) as [_ Hz]. simpl in Hz.
    rewrite <- Hz. do 2 f_equal. lia.
  - intros name. rewrite Hdom, Hlen.
    replace (Z.of_nat (Z.to_nat rows * Z.to_nat columns)) with (rows * columns) by nia.
    reflexivity.
Qed.

(** C1, as the claim states it, fails in two ways.  On a 10 x 10 image
    cut 3 x 3 the second cell of the client starts at x = 10/3 and is
    10/3 wide, the second region the route extracts starts at x = 3 and
    is 3 wide, so the two crops differ.  On a 2 x 10 image cut 3 x 3
    every region of the route is zero pixels wide; an extraction that
    rejects an empty region, as the one of [sharp] does, makes the route
    answer 500 and deliver no cell, while the client emits nine. *)
Lemma backends_differ_on_uneven_grid :
  let formData := CutImageRoute.mkFormData (Some tt) (Some "3") (Some "3") in
  let extractNonEmpty := fun (_ : unit) (r : CutImageRoute.Region) =>
    if (0 <? CutImageRoute.regionWidth r) && (0 <? CutImageRoute.regionHeight r)
    then Some [Z.to_N (CutImageRoute.left r); Z.to_N (CutImageRoute.top r)]
    else None in
  let route := fun W H =>
    CutImageRoute.POST (fun _ => Some (CutImageRoute.mkMetadata (Some W) (Some H)))
      extractNonEmpty (fun settled => settled) formData in
  (exists c r,
      ImageProcessing.cutImageIntoGrid 10 10 3 3 !! 1%nat = Some c
      /\ CutImageRoute.extracted (route 10 10) !! 1%nat = Some r
      /\ ImageProcessing.sourceX c = (10 # 3)%Q
      /\ CutImageRoute.left r = 3
      /\ ~ sameCrop c r)
  /\ ~ Forall2 sameCrop (ImageProcessing.cutImageIntoGrid 10 10 3 3)
                        (CutImageRoute.extracted (route 10 10))
  /\ length (ImageProcessing.cutImageIntoGrid 2 10 3 3) = 9%nat
  /\ CutImageRoute.response (route 2 10)
     = CutImageRoute.JsonError 500 "Failed to process image"
  /\ Forall (fun r => CutImageRoute.regionWidth r = 0)
            (CutImageRoute.extracted (route 2 10)).
Proof.
  intros formData extractNonEmpty route.
  assert (Hdiff : ~ sameCrop
                      (ImageProcessing.mkDrawnCell (10 # 3) (0 # 3) (10 # 3) (10 # 3) 3 3)
                      (CutImageRoute.mkRegion 3 0 3 3)).
  { intros [Hx _]. vm_compute in Hx. discriminate. }
  assert (Hregions : CutImageRoute.extracted (route 10 10) = serverRegions 10 10 3 3).
  { by apply (POST_extracted _ _ _ formData tt). }
  split; [|split; [|split; [|split]]].
  - eexists _, _. split; [reflexivity|]. split; [by rewrite Hregions|].
    split; [reflexivity|]. split; [reflexivity|exact Hdiff].
  - rewrite Hregions. intros Hall. apply Hdiff.
    by apply (Forall2_lookup_lr _ _ _ 1%nat _ _ Hall).
  - reflexivity.
  - vm_compute. reflexivity.
  - assert (Hnarrow : CutImageRoute.extracted (route 2 10) = serverRegions 2 10 3 3).
    { by apply (POST_extracted _ _ _ formData tt). }
    rewrite Hnarrow. vm_compute. repeat constructor.
Qed.

(** C1 (amended): for every image at least as wide as the column count
    and as high as the row count, cut by positive counts, whose regions
    [sharp] all extracts, [cutImageIntoGrid] and the server route
    produce the same number of cells, rows*columns: the route answers
    with an archive of that many entries, and the cell of row r and
    column c is number r*columns+c of the client and entry
    [image_(r*columns+c+1).png] of the archive, which holds what was
    extracted from the region of that row and column.  The cells have
    pairwise the same pixel dimensions, floor(W/columns) by
    floor(H/rows), which are positive; when columns divides the image
    width and rows divides the image height, the two crop pairwise the
    same source rectangle. *)
Theorem backends_agree_on_even_grid {File : Type}
      (sharpMetadata : File -> option CutImageRoute.Metadata)
      (extractToBuffer : File -> CutImageRoute.Region -> option (list N))
      (settleOrder : list (string * list N) -> list (string * list N))
      (formData : CutImageRoute.FormData File) (imageFile : File)
      (W H rows columns : Z) :
  CutImageRoute.image formData = Some imageFile ->
  CutImageRoute.parseInt (default "null" (CutImageRoute.rowsField formData)) = Some rows ->
  CutImageRoute.parseInt (default "null" (CutImageRoute.columnsField formData))
  = Some columns ->
  sharpMetadata imageFile = Some (CutImageRoute.mkMetadata (Some W) (Some H)) ->
  0 < rows -> 0 < columns -> rows <= H -> columns <= W ->
  Forall (fun region => is_Some (extractToBuffer imageFile region))
         (serverRegions W H rows columns) ->
  (forall settled, settleOrder settled ≡ₚ settled) ->
  let client := ImageProcessing.cutImageIntoGrid W H rows columns in
  let outcome := CutImageRoute.POST sharpMetadata extractToBuffer settleOrder formData in
  let server := CutImageRoute.extracted outcome in
  length client = (Z.to_nat rows * Z.to_nat columns)%nat
  /\ length server = (Z.to_nat rows * Z.to_nat columns)%nat
  /\ (exists archive,
        CutImageRoute.response outcome = CutImageRoute.ZipFile archive
        /\ size archive = length client
        /\ (forall row col, 0 <= row < rows -> 0 <= col < columns ->
              exists cellBuffer,
                client !! Z.to_nat (row * columns + col)
                = Some (ImageProcessing.mkDrawnCell
                          (inject_Z col * (inject_Z W / inject_Z columns))
                          (inject_Z row * (inject_Z H / inject_Z rows))
                          (inject_Z W / inject_Z columns) (inject_Z H / inject_Z rows)
                          (W / columns) (H / rows))
                /\ server !! Z.to_nat (row * columns + col)
                   = Some (CutImageRoute.mkRegion (col * (W / columns))
                             (row * (H / rows)) (W / columns) (H / rows))
                /\ extractToBuffer imageFile
                     (CutImageRoute.mkRegion (col * (W / columns)) (row * (H / rows))
                        (W / columns) (H / rows)) = Some cellBuffer
                /\ archive !! ImageProcessing.entryName (row * columns + col + 1)
                   = Some cellBuffer))
  /\ 0 < W / columns /\ 0 < H / rows
  /\ Forall2 samePixelSize client server
  /\ ((columns | W) -> (rows | H) -> Forall2 sameCrop client server).
Proof.
  intros Himg Hrows Hcols Hmeta Hr Hc HrH HcW Hextract Hperm client outcome server.
  assert (HW : 0 < W) by lia. assert (HH : 0 < H) by lia.
  assert (Hserver : server = serverRegions W H rows columns).
  { unfold server, outcome. apply (POST_extracted _ _ _ formData imageFile); (done || lia). }
  destruct (uniform_cells_match_regions W H rows columns HW HH Hr Hc)
    as (Hlc & Hls & Hcells & Hsize & Hcrop).
  destruct (server_archive sharpMetadata extractToBuffer settleOrder formData
              imageFile W H rows columns Himg Hrows Hcols Hmeta HW HH Hr Hc
              Hextract Hperm) as (archive & Hzip & Hentries & Hlook & _).
  rewrite Hserver.
  split; [exact Hlc|]. split; [exact Hls|]. split.
  - exists archive. split; [exact Hzip|].
    split; [unfold client; by rewrite Hentries, Hlc|].
    intros row col Hrow Hcol.
    destruct (Hlook row col Hrow Hcol) as (cellBuffer & Hbuffer & Hentry).
    destruct (Hcells row col Hrow Hcol) as [Hcell Hregion].
    exists cellBuffer. done.
  - split; [apply Z.div_str_pos; lia|]. split; [apply Z.div_str_pos; lia|].
    split; [exact Hsize|exact Hcrop].
Qed.

Lemma backends_agree_on_even_grid_witness :
  let formData := CutImageRoute.mkFormData (Some tt) (Some "3") (Some "3") in
  let extractToBuffer := fun (_ : unit) (r : CutImageRoute.Region) =>
    Some [Z.to_N (CutImageRoute.left r); Z.to_N (CutImageRoute.top r)] in
  let client := ImageProcessing.cutImageIntoGrid 300 300 3 3 in
  let outcome :=
    CutImageRoute.POST
      (fun _ => Some (CutImageRoute.mkMetadata (Some 300) (Some 300)))
      extractToBuffer (fun settled => reverse settled) formData in
  length client = 9%nat
  /\ length (CutImageRoute.extracted outcome) = 9%nat
  /\ (exists archive,
        CutImageRoute.response outcome = CutImageRoute.ZipFile archive
        /\ size archive = 9%nat
        /\ archive !! "image_6.png" = Some [200; 100]%N)
  /\ Forall2 samePixelSize client (CutImageRoute.extracted outcome)
  /\ Forall2 sameCrop client (CutImageRoute.extracted outcome).
Proof.
  intros formData extractToBuffer client outcome.
  destruct (backends_agree_on_even_grid
              (fun _ => Some (CutImageRoute.mkMetadata (Some 300) (Some 300)))
              extractToBuffer (fun settled => reverse settled) formData tt
              300 300 3 3 eq_refl eq_refl eq_refl eq_refl
              ltac:(lia) ltac:(lia) ltac:(lia) ltac:(lia))
    as (Hc & Hs & (archive & Hzip & Hentries & Hlook) & _ & _ & Hsize & Hcrop).
  { apply Forall_forall. intros region _. by eexists. }
  { intros settled. apply reverse_Permutation. }
  split; [exact Hc|]. split; [exact Hs|]. split; [|split; [exact Hsize|]].
  - exists archive. split; [exact Hzip|]. split; [by rewrite Hentries, Hc|].
    destruct (Hlook 1 2 ltac:(lia) ltac:(lia)) as (cellBuffer & _ & _ & Hb & Hentry).
    injection Hb as <-. exact Hentry.
  - apply Hcrop; [exists 100; reflexivity|exists 100; reflexivity].
Defined.

(** C9: from N encoded images the archive holds exactly N entries, named
    [image_1.png] to [image_N.png] in the order the images were produced,
    and entry k holds the decoded bytes of image k.  This holds for the
    client packager, given data URLs whose payload [atob] decodes, and
    for the server route, given a request it accepts and extractions
    that all succeed, in whatever order the extractions settle. *)
Theorem archive_holds_numbered_images :
  (forall (atob : string -> option (list ascii))
          (gridImages : list string) (fileName : string),
      Forall (fun dataUrl =>
                is_Some (atob (default "undefined"
                                 (ImageProcessing.secondField dataUrl))))
             gridImages ->
      exists archive,
        ImageProcessing.createAndDownloadZip atob gridImages fileName
        = Some (archive, fileName +:+ ".zip")
        /\ size archive = length gridImages
        /\ (forall k dataUrl, gridImages !! k = Some dataUrl ->
              exists chars,
                atob (default "undefined" (ImageProcessing.secondField dataUrl))
                = Some chars
                /\ archive !! ImageProcessing.entryName (Z.of_nat k + 1)
                   = Some (N_of_ascii <$> chars))
        /\ (forall name, is_Some (archive !! name) <->
              exists n, 1 <= n <= Z.of_nat (length gridImages)
                        /\ name = ImageProcessing.entryName n))
  /\ (forall (File : Type)
             (sharpMetadata : File -> option CutImageRoute.Metadata)
             (extractToBuffer : File -> CutImageRoute.Region -> option (list N))
             (settleOrder : list (string * list N) -> list (string * list N))
             (formData : CutImageRoute.FormData File) (imageFile : File)
             (W H rows columns : Z),
        CutImageRoute.image formData = Some imageFile ->
        CutImageRoute.parseInt (default "null" (CutImageRoute.rowsField formData))
        = Some rows ->
        CutImageRoute.parseInt (default "null" (CutImageRoute.columnsField formData))
        = Some columns ->
        sharpMetadata imageFile = Some (CutImageRoute.mkMetadata (Some W) (Some H)) ->
        0 < W -> 0 < H -> 0 < rows -> 0 < columns ->
        Forall (fun region => is_Some (extractToBuffer imageFile region))
               (serverRegions W H rows columns) ->
        (forall settled, settleOrder settled ≡ₚ settled) ->
        exists archive,
          CutImageRoute.response
            (CutImageRoute.POST sharpMetadata extractToBuffer settleOrder formData)
          = CutImageRoute.ZipFile archive
          /\ size archive = (Z.to_nat rows * Z.to_nat columns)%nat
          /\ (forall row col, 0 <= row < rows -> 0 <= col < columns ->
                exists cellBuffer,
                  extractToBuffer imageFile
                    (CutImageRoute.mkRegion (col * (W / columns)) (row * (H / rows))
                       (W / columns) (H / rows)) = Some cellBuffer
                  /\ archive !! ImageProcessing.entryName (row * columns + col + 1)
                     = Some cellBuffer)
          /\ (forall name, is_Some (archive !! name) <->
                exists n, 1 <= n <= rows * columns
                          /\ name = ImageProcessing.entryName n)).
Proof.
  split.
  - apply client_archive.
  - intros. by eapply server_archive.
Qed.

Lemma archive_holds_numbered_images_witness :
  let asWritten := fun s : string => Some (list_ascii_of_string s) in
  let gridImages := ["data:image/png;base64,QUJD"; "data:,"; "data:image/png;base64,eA"] in
  let extractToBuffer := fun (_ : unit) (r : CutImageRoute.Region) =>
    Some [Z.to_N (CutImageRoute.left r); Z.to_N (CutImageRoute.top r)] in
  let formData := CutImageRoute.mkFormData (Some tt) (Some "2") (Some "3") in
  (exists archive,
      ImageProcessing.createAndDownloadZip asWritten gridImages "grid-images"
      = Some (archive, "grid-images.zip")
      /\ size archive = 3%nat
      /\ archive !! "image_1.png" = Some [81; 85; 74; 68]%N
      /\ archive !! "image_2.png" = Some [])
  /\ (exists archive,
        CutImageRoute.response
          (CutImageRoute.POST
             (fun _ => Some (CutImageRoute.mkMetadata (Some 10) (Some 10)))
             extractToBuffer (fun l => reverse l) formData)
        = CutImageRoute.ZipFile archive
        /\ size archive = 6%nat
        /\ archive !! "image_5.png" = Some [3; 5]%N).
Proof.
  intros asWritten gridImages extractToBuffer formData.
  destruct archive_holds_numbered_images as [Hclient Hserver].
  split.
  - destruct (Hclient asWritten gridImages "grid-images")
      as (archive & Hzip & Hsize & Hlook & _).
    { repeat constructor; by eexists. }
    exists archive. split; [exact Hzip|]. split; [exact Hsize|]. split.
    + destruct (Hlook 0%nat _ eq_refl) as (chars & Hc & Hz).
      injection Hc as <-. exact Hz.
    + destruct (Hlook 1%nat _ eq_refl) as (chars & Hc & Hz).
      injection Hc as <-. exact Hz.
  - destruct (Hserver unit
                (fun _ => Some (CutImageRoute.mkMetadata (Some 10) (Some 10)))
                extractToBuffer (fun l => reverse l) formData tt 10 10 2 3
                eq_refl eq_refl eq_refl eq_refl
                ltac:(lia) ltac:(lia) ltac:(lia) ltac:(lia))
      as (archive & Hzip & Hsize & Hlook & _).
    { apply Forall_forall. intros region _. by eexists. }
    { intros settled. apply reverse_Permutation. }
    exists archive. split; [exact Hzip|]. split; [exact Hsize|].
    destruct (Hlook 1 1 ltac:(lia) ltac:(lia)) as (cellBuffer & Hb & Hz).
    injection Hb as <-. exact Hz.
Defined.


(** ** Validation of the request *)

Lemma cellJobs_negative (W H rows columns : Z) :
  rows < 0 \/ columns < 0 -> CutImageRoute.cellJobs W H rows columns = [].
Proof.
  intros Hneg. rewrite cellJobs_rows.
  destruct (Z.lt_ge_cases rows 0) as [Hr|Hr].
  - by rewrite (seqZ_nil 0 rows) by lia.
  - assert (Hc : columns < 0) by lia.
    rewrite (seqZ_nil 0 columns) by lia.
    induction (seqZ 0 rows) as [|row l IH]; [reflexivity|].
    rewrite bind_cons, IH. reflexivity.
Qed.

(** What the guard does catch: a missing image, and a row or column
    count that is missing, not a number, or zero.  The route answers 400
    with a reason and asks for no extraction. *)
Lemma POST_rejects_missing_or_zero {File : Type}
      (sharpMetadata : File -> option CutImageRoute.Metadata)
      (extractToBuffer : File -> CutImageRoute.Region -> option (list N))
      (settleOrder : list (string * list N) -> list (string * list N))
      (formData : CutImageRoute.FormData File) :
  let rows := CutImageRoute.parseInt (default "null" (CutImageRoute.rowsField formData)) in
  let columns :=
    CutImageRoute.parseInt (default "null" (CutImageRoute.columnsField formData)) in
  CutImageRoute.image formData = None
  \/ rows = None \/ rows = Some 0 \/ columns = None \/ columns = Some 0 ->
  CutImageRoute.POST sharpMetadata extractToBuffer settleOrder formData
  = CutImageRoute.mkOutcome
      (CutImageRoute.JsonError 400 "Missing required parameters") [].
Proof.
  intros rows columns Hbad. unfold CutImageRoute.POST. fold rows columns.
  destruct (CutImageRoute.image formData) as [imageFile|]; [|reflexivity].
  destruct Hbad as [Hbad | [Hbad | [Hbad | [Hbad | Hbad]]]];
    try discriminate; rewrite Hbad; simpl; try reflexivity;
    by destruct (CutImageRoute.falsy rows).
Qed.

(** C10 at the failing input: a negative row or column count passes the
    guard [!rows || !columns]; both loops then run no pass, nothing is
    extracted, and the route answers with an empty archive, not with an
    error. *)
Theorem POST_accepts_negative_count {File : Type}
      (sharpMetadata : File -> option CutImageRoute.Metadata)
      (extractToBuffer : File -> CutImageRoute.Region -> option (list N))
      (settleOrder : list (string * list N) -> list (string * list N))
      (formData : CutImageRoute.FormData File) (imageFile : File)
      (W H rows columns : Z) :
  CutImageRoute.image formData = Some imageFile ->
  CutImageRoute.parseInt (default "null" (CutImageRoute.rowsField formData)) = Some rows ->
  CutImageRoute.parseInt (default "null" (CutImageRoute.columnsField formData)) = Some columns ->
  sharpMetadata imageFile = Some (CutImageRoute.mkMetadata (Some W) (Some H)) ->
  0 < W -> 0 < H -> rows <> 0 -> columns <> 0 -> rows < 0 \/ columns < 0 ->
  (forall settled, settleOrder settled ≡ₚ settled) ->
  CutImageRoute.POST sharpMetadata extractToBuffer settleOrder formData
  = CutImageRoute.mkOutcome (CutImageRoute.ZipFile ∅) [].
Proof.
  intros Himg Hrows Hcols Hmeta HW HH Hr Hc Hneg Hperm.
  unfold CutImageRoute.POST. rewrite Himg, Hrows, Hcols, Hmeta. simpl.
  destruct (Z.eqb_spec rows 0); [done|].
  destruct (Z.eqb_spec columns 0); [done|].
  destruct (Z.eqb_spec W 0); [lia|].
  destruct (Z.eqb_spec H 0); [lia|].
  simpl. rewrite cellJobs_negative by exact Hneg. simpl.
  assert (Hnone : settleOrder [] = []) by apply Permutation_nil_r, Hperm.
  rewrite Hnone. reflexivity.
Qed.

Lemma POST_accepts_negative_count_witness :
  CutImageRoute.parseInt "-1" = Some (-1)
  /\ CutImageRoute.POST
       (fun _ : unit => Some (CutImageRoute.mkMetadata (Some 300) (Some 300)))
       (fun _ r => Some [Z.to_N (CutImageRoute.left r)])
       (fun l => reverse l)
       (CutImageRoute.mkFormData (Some tt) (Some "-1") (Some "3"))
     = CutImageRoute.mkOutcome (CutImageRoute.ZipFile ∅) [].
Proof.
  split; [reflexivity|].
  apply (POST_accepts_negative_count _ _ _ _ tt 300 300 (-1) 3);
    try reflexivity; try lia.
  intros settled. apply reverse_Permutation.
Defined.

(** * Further properties *)

(** ** The drag lifecycle *)

Lemma findLine_range (x y : Q) (lines : list GridLine) :
  GridCanvas.findLine x y lines = -1
  \/ exists k line, GridCanvas.findLine x y lines = Z.of_nat k
                    /\ lines !! k = Some line
                    /\ (GridCanvas.distance x y line < 10)%Q.
Proof.
  destruct (findLine_spec x y lines) as [[-> _] | (k & l & Hk & Hf & Hd & _)].
  - by left.
  - right. by exists k, l.
Qed.

Lemma hover_move_keeps_lines (s : GridCanvas.State) (e : GridCanvas.MouseEvent) :
  GridCanvas.activeLine s = None ->
  exists s', GridCanvas.handleMouseMove s e = Some (s', None)
             /\ GridCanvas.gridLines s' = GridCanvas.gridLines s.
Proof.
  intros Ea. unfold GridCanvas.handleMouseMove.
  destruct (cursorFor_findLine (GridCanvas.rasterX s e) (GridCanvas.rasterY s e)
              (GridCanvas.gridLines s)) as [c Ec].
  rewrite Ec, Ea. eexists. split; reflexivity.
Qed.

(** X1: a move with no line held never throws, never touches the line
    list and notifies nobody; it stores the search result as the hovered
    line and sets the cursor to the axis of that line: [ns-resize] over a
    horizontal line, [ew-resize] over a vertical one, [default] when no
    line is within reach. *)
Theorem hover_sets_cursor_only (s : GridCanvas.State) (e : GridCanvas.MouseEvent) :
  GridCanvas.activeLine s = None ->
  let found := GridCanvas.findLine (GridCanvas.rasterX s e) (GridCanvas.rasterY s e)
                                   (GridCanvas.gridLines s) in
  exists s',
    GridCanvas.handleMouseMove s e = Some (s', None)
    /\ GridCanvas.gridLines s' = GridCanvas.gridLines s
    /\ GridCanvas.activeLine s' = None
    /\ GridCanvas.hoveredLine s' = Some found
    /\ (found = -1 -> GridCanvas.cursor s' = GridCanvas.cursor_default)
    /\ (forall k line, found = Z.of_nat k ->
          GridCanvas.gridLines s !! k = Some line ->
          GridCanvas.cursor s'
          = if isHorizontal line then GridCanvas.ns_resize else GridCanvas.ew_resize).
Proof.
  intros Ea found. unfold GridCanvas.handleMouseMove. fold found. rewrite Ea.
  unfold GridCanvas.cursorFor.
  destruct (findLine_range (GridCanvas.rasterX s e) (GridCanvas.rasterY s e)
              (GridCanvas.gridLines s)) as [Hf | (k & line & Hf & Hk & _)];
    fold found in Hf; rewrite Hf.
  - simpl. eexists. repeat split; try done. intros k line Hk. lia.
  - destruct (Z.eqb_spec (Z.of_nat k) (-1)); [lia|].
    assert (E : at_index (GridCanvas.gridLines s) (Z.of_nat k) = Some line).
    { apply at_index_Some. rewrite Nat2Z.id. split; [lia|exact Hk]. }
    rewrite E. eexists. repeat split; try done.
    intros k' line' Hk' Hl'. simpl.
    assert (k' = k) as -> by lia. by assert (line' = line) as -> by congruence.
Qed.

Lemma hover_sets_cursor_only_witness :
  let s := App.canvas Scenario.loaded in
  let e := Scenario.pointerAt 50 103 in
  exists s',
    GridCanvas.handleMouseMove s e = Some (s', None)
    /\ GridCanvas.hoveredLine s' = Some 0
    /\ GridCanvas.cursor s' = GridCanvas.ns_resize.
Proof.
  intros s e.
  destruct (hover_sets_cursor_only s e eq_refl) as (s' & Hm & _ & _ & Hh & _ & Hc).
  exists s'. split; [exact Hm|]. split; [exact Hh|].
  exact (Hc 0%nat (mkGridLine ((1 / 3) * 300) true) eq_refl eq_refl).
Defined.

(** X2: releasing the button or leaving the canvas ends the drag: the
    next move, wherever the pointer is, leaves every line where it was
    and notifies nobody; leaving also clears the hovered line. *)
Theorem release_ends_drag (s : GridCanvas.State) (e : GridCanvas.MouseEvent) :
  (exists s', GridCanvas.handleMouseMove (GridCanvas.handleMouseUp s) e = Some (s', None)
              /\ GridCanvas.gridLines s' = GridCanvas.gridLines s)
  /\ (exists s', GridCanvas.handleMouseMove (GridCanvas.handleMouseLeave s) e
                 = Some (s', None)
                 /\ GridCanvas.gridLines s' = GridCanvas.gridLines s)
  /\ GridCanvas.hoveredLine (GridCanvas.handleMouseLeave s) = None
  /\ GridCanvas.activeLine (GridCanvas.handleMouseLeave s) = None
  /\ GridCanvas.hoveredLine (GridCanvas.handleMouseUp s) = GridCanvas.hoveredLine s.
Proof.
  split; [|split; [|done]].
  - destruct (hover_move_keeps_lines (GridCanvas.handleMouseUp s) e eq_refl)
      as (s' & Hm & Hl).
    exists s'. split; [exact Hm|exact Hl].
  - destruct (hover_move_keeps_lines (GridCanvas.handleMouseLeave s) e eq_refl)
      as (s' & Hm & Hl).
    exists s'. split; [exact Hm|exact Hl].
Qed.

(** X3: a pointer-down that finds a line followed by a move drags that
    very line: the line found is within 10 pixels of the down position,
    the move succeeds and puts exactly that line at the pointer
    coordinate of the move on the line's axis, clamped to the image:
    max(0, min(y, height)) for a horizontal line and
    max(0, min(x, width)) for a vertical one, x and y being the client
    coordinates of the move relative to the canvas rectangle, scaled by
    the ratio of the canvas size to the displayed size.  The new list is
    sent to the parent. *)
Theorem down_then_move_drags_found_line
  (s : GridCanvas.State) (down move : GridCanvas.MouseEvent) :
  let found := GridCanvas.findLine (GridCanvas.rasterX s down)
                 (GridCanvas.rasterY s down) (GridCanvas.gridLines s) in
  let x := ((GridCanvas.clientX move - GridCanvas.rectLeft move)
            * (GridCanvas.canvasWidth s / GridCanvas.rectWidth move))%Q in
  let y := ((GridCanvas.clientY move - GridCanvas.rectTop move)
            * (GridCanvas.canvasHeight s / GridCanvas.rectHeight move))%Q in
  found <> -1 ->
  exists k line s' updated,
    found = Z.of_nat k
    /\ GridCanvas.gridLines s !! k = Some line
    /\ (GridCanvas.distance (GridCanvas.rasterX s down) (GridCanvas.rasterY s down) line
        < 10)%Q
    /\ GridCanvas.handleMouseMove (GridCanvas.handleMouseDown s down) move
       = Some (s', Some (mkNotification updated
                           (width (GridCanvas.imageSize s))
                           (height (GridCanvas.imageSize s))))
    /\ GridCanvas.gridLines s' = updated
    /\ updated
       = <[k := mkGridLine
                  (if isHorizontal line
                   then Qmax 0 (Qmin y (height (GridCanvas.imageSize s)))
                   else Qmax 0 (Qmin x (width (GridCanvas.imageSize s))))
                  (isHorizontal line)]> (GridCanvas.gridLines s).
Proof.
  intros found x y Hfound.
  destruct (findLine_range (GridCanvas.rasterX s down) (GridCanvas.rasterY s down)
              (GridCanvas.gridLines s)) as [Hf | (k & line & Hf & Hk & Hd)];
    fold found in Hf; [contradiction|].
  set (s1 := GridCanvas.handleMouseDown s down).
  assert (Ha : GridCanvas.activeLine s1 = Some (Z.of_nat k)).
  { unfold s1, GridCanvas.handleMouseDown. fold found. rewrite Hf.
    destruct (Z.eqb_spec (Z.of_nat k) (-1)); [lia|reflexivity]. }
  assert (Hl : GridCanvas.gridLines s1 = GridCanvas.gridLines s).
  { unfold s1, GridCanvas.handleMouseDown. by destruct (_ =? _). }
  assert (Hs : GridCanvas.imageSize s1 = GridCanvas.imageSize s).
  { unfold s1, GridCanvas.handleMouseDown. by destruct (_ =? _). }
  assert (Hx : GridCanvas.rasterX s1 move = GridCanvas.rasterX s move).
  { unfold s1, GridCanvas.handleMouseDown, GridCanvas.rasterX. by destruct (_ =? _). }
  assert (Hy : GridCanvas.rasterY s1 move = GridCanvas.rasterY s move).
  { unfold s1, GridCanvas.handleMouseDown, GridCanvas.rasterY. by destruct (_ =? _). }
  assert (Hk1 : GridCanvas.gridLines s1 !! Z.to_nat (Z.of_nat k) = Some line).
  { by rewrite Nat2Z.id, Hl. }
  destruct (handleMouseMove_drag s1 move (Z.of_nat k) line Ha ltac:(lia) Hk1)
    as (s' & n & Hmove).
  pose proof Hmove as Hcase.
  apply handleMouseMove_lines in Hcase as (_ & _ & Hcase).
  rewrite Ha in Hcase. destruct Hcase as [Hdrag Hn].
  apply dragLine_Some in Hdrag as (line0 & _ & El0 & Hupd).
  assert (line0 = line) as -> by congruence.
  rewrite Nat2Z.id, Hl, Hs, Hx, Hy, pointer_position in Hupd. rewrite Hs in Hn.
  fold x y in Hupd.
  exists k, line, s', (GridCanvas.gridLines s').
  split; [exact Hf|]. split; [exact Hk|]. split; [exact Hd|].
  split; [by rewrite Hmove, Hn|]. split; [reflexivity|exact Hupd].
Qed.

Lemma down_then_move_drags_found_line_witness :
  let s := App.canvas Scenario.loaded in
  let down := GridCanvas.mkMouseEvent 35 62 10 10 150 150 in
  let move := GridCanvas.mkMouseEvent 25 85 10 10 150 150 in
  exists s' updated line',
    GridCanvas.handleMouseMove (GridCanvas.handleMouseDown s down) move
    = Some (s', Some (mkNotification updated 300 300))
    /\ updated !! 0%nat = Some line'
    /\ isHorizontal line' = true
    /\ (position line' == 150)%Q
    /\ updated !! 2%nat = Some (mkGridLine ((1 / 3) * 300) false).
Proof.
  intros s down move.
  destruct (down_then_move_drags_found_line s down move ltac:(vm_compute; discriminate))
    as (k & line & s' & updated & Hf & Hk & _ & Hmove & _ & Hupd).
  assert (Hk0 : Z.of_nat k = 0) by (rewrite <- Hf; reflexivity).
  assert (k = 0%nat) as -> by lia.
  injection Hk as <-.
  exists s', updated. eexists. split; [exact Hmove|]. rewrite Hupd.
  split; [reflexivity|]. split; [reflexivity|]. split; reflexivity.
Defined.

(** X4: an active index that no longer names a slot makes the next move
    throw: [updatedLines[activeLine]] is [undefined] and reading its
    [isHorizontal] fails, so no line is written and nobody is notified.
    The handlers never reset the index when the list is rebuilt: a change
    of rows or columns under a held line leaves such an index. *)
Theorem stale_active_line_throws (s : GridCanvas.State) (e : GridCanvas.MouseEvent)
        (active : Z) :
  GridCanvas.activeLine s = Some active ->
  active < 0 \/ Z.of_nat (length (GridCanvas.gridLines s)) <= active ->
  GridCanvas.handleMouseMove s e = None.
Proof.
  intros Ea Hstale. unfold GridCanvas.handleMouseMove.
  destruct (GridCanvas.cursorFor _ _); [|reflexivity]. rewrite Ea.
  unfold GridCanvas.dragLine.
  destruct (at_index (GridCanvas.gridLines s) active) as [line|] eqn:E; [|reflexivity].
  apply at_index_Some in E as [H0 E]. apply lookup_lt_Some in E. lia.
Qed.

Lemma stale_active_line_throws_witness :
  let held := Scenario.after
                [App.ImageUploaded "blob:picture"; App.ImageLoaded 300 300;
                 App.MouseDown (Scenario.pointerAt 200 50); App.GridChanged 2 2] in
  GridCanvas.activeLine (App.canvas held) = Some 3
  /\ length (GridCanvas.gridLines (App.canvas held)) = 2%nat
  /\ GridCanvas.handleMouseMove (App.canvas held) (Scenario.pointerAt 210 50) = None
  /\ App.run App.initial
       [App.ImageUploaded "blob:picture"; App.ImageLoaded 300 300;
        App.MouseDown (Scenario.pointerAt 200 50); App.GridChanged 2 2;
        App.MouseMove (Scenario.pointerAt 210 50)] = None.
Proof.
  intros held. split; [reflexivity|]. split; [reflexivity|]. split.
  - apply (stale_active_line_throws (App.canvas held) _ 3); [reflexivity|].
    right. vm_compute. discriminate.
  - reflexivity.
Defined.

(** ** The renderer *)

Lemma strokeLines_lookup (s : GridCanvas.State) (lines : list GridLine) (index k : nat) :
  GridCanvas.strokeLines s lines index !! k
  = (fun line => GridCanvas.StrokePath (GridCanvas.strokeOf s line (index + k)))
      <$> lines !! k.
Proof.
  revert index k. induction lines as [|line rest IH]; intros index k; [done|].
  destruct k as [|k]; simpl.
  - by rewrite Nat.add_0_r.
  - rewrite IH. by replace (S index + k)%nat with (index + S k)%nat by lia.
Qed.

Lemma strokeLines_length (s : GridCanvas.State) (lines : list GridLine) (index : nat) :
  length (GridCanvas.strokeLines s lines index) = length lines.
Proof.
  revert index. induction lines as [|line rest IH]; intros index; simpl;
    [reflexivity|by rewrite IH].
Qed.

(** X5: one frame of [drawCanvas] clears the whole canvas first, draws
    the image once it is loaded, then strokes every line of the list
    once, in storage order, across the full width (horizontal) or height
    (vertical) of the canvas at the line's position.  The line whose slot
    is the active index is drawn in the active style even when it is also
    the hovered one; otherwise the hovered slot in the hovered style; every
    other line in the normal style. *)
Theorem drawCanvas_frame (s : GridCanvas.State) :
  let ops := GridCanvas.drawCanvas s in
  let offset := if GridCanvas.imageLoaded s then 2%nat else 1%nat in
  ops !! 0%nat = Some (GridCanvas.ClearRect 0 0 (GridCanvas.canvasWidth s)
                                            (GridCanvas.canvasHeight s))
  /\ (GridCanvas.imageLoaded s = true -> ops !! 1%nat = Some (GridCanvas.DrawImage 0 0))
  /\ length ops = (offset + length (GridCanvas.gridLines s))%nat
  /\ (forall k line, GridCanvas.gridLines s !! k = Some line ->
        exists st,
          ops !! (offset + k)%nat = Some (GridCanvas.StrokePath st)
          /\ (if isHorizontal line
              then GridCanvas.fromX st = 0%Q
                   /\ GridCanvas.toX st = GridCanvas.canvasWidth s
                   /\ GridCanvas.fromY st = position line
                   /\ GridCanvas.toY st = position line
              else GridCanvas.fromY st = 0%Q
                   /\ GridCanvas.toY st = GridCanvas.canvasHeight s
                   /\ GridCanvas.fromX st = position line
                   /\ GridCanvas.toX st = position line)
          /\ (GridCanvas.activeLine s = Some (Z.of_nat k) ->
              GridCanvas.strokeStyle st = "rgba(0, 120, 255, 0.9)"
              /\ GridCanvas.lineWidth st = 3%Q)
          /\ (GridCanvas.activeLine s <> Some (Z.of_nat k) ->
              GridCanvas.hoveredLine s = Some (Z.of_nat k) ->
              GridCanvas.strokeStyle st = "rgba(255, 100, 0, 0.8)"
              /\ GridCanvas.lineWidth st = (5 # 2)%Q)
          /\ (GridCanvas.activeLine s <> Some (Z.of_nat k) ->
              GridCanvas.hoveredLine s <> Some (Z.of_nat k) ->
              GridCanvas.strokeStyle st = "rgba(255, 0, 0, 0.7)"
              /\ GridCanvas.lineWidth st = 2%Q)).
Proof.
  intros ops offset. unfold ops, GridCanvas.drawCanvas.
  split; [reflexivity|]. split; [by intros ->|]. split.
  - simpl. rewrite length_app, strokeLines_length.
    unfold offset. by destruct (GridCanvas.imageLoaded s).
  - intros k line Hk.
    exists (GridCanvas.strokeOf s line k). split.
    + assert (Hlook : GridCanvas.strokeLines s (GridCanvas.gridLines s) 0 !! k
                      = Some (GridCanvas.StrokePath (GridCanvas.strokeOf s line k))).
      { by rewrite strokeLines_lookup, Hk. }
      unfold offset. by destruct (GridCanvas.imageLoaded s).
    + unfold GridCanvas.strokeOf, GridCanvas.lineStyle.
      split; [by destruct (isHorizontal line)|].
      repeat split; intros.
      all: repeat case_bool_decide; try done.
      all: by destruct (isHorizontal line).
Qed.

Lemma drawCanvas_frame_witness :
  let s := App.canvas (Scenario.after
                         [App.ImageUploaded "blob:picture"; App.ImageLoaded 300 300;
                          App.MouseMove (Scenario.pointerAt 100 50);
                          App.MouseDown (Scenario.pointerAt 100 50)]) in
  GridCanvas.activeLine s = Some 2 /\ GridCanvas.hoveredLine s = Some 2
  /\ exists st,
       GridCanvas.drawCanvas s !! 4%nat = Some (GridCanvas.StrokePath st)
       /\ GridCanvas.strokeStyle st = "rgba(0, 120, 255, 0.9)"
       /\ GridCanvas.fromY st = 0%Q /\ GridCanvas.toY st = 300%Q.
Proof.
  intros s. split; [reflexivity|]. split; [reflexivity|].
  destruct (drawCanvas_frame s) as (_ & _ & _ & Hstroke).
  destruct (Hstroke 2%nat (mkGridLine ((1 / 3) * 300) false) eq_refl)
    as (st & Hop & Hgeo & Hactive & _).
  exists st. split; [exact Hop|].
  destruct (Hactive eq_refl) as [Hstyle _].
  destruct Hgeo as (Hy0 & Hy1 & _).
  split; [exact Hstyle|]. split; [exact Hy0|exact Hy1].
Defined.

(** ** Invariants of a session *)

Lemma sizeKnown_positive (w h : Z) :
  0 < w -> 0 < h -> sizeKnown (mkImageSize (inject_Z w) (inject_Z h)).
Proof.
  intros Hw Hh. unfold sizeKnown. simpl.
  rewrite !Qeq_bool_false_pos; [reflexivity| |];
    change 0%Q with (inject_Z 0); rewrite <- Zlt_Qlt; lia.
Qed.

(** The two outcomes of the regeneration effect, seen from the page. *)
Lemma runRegenerate_cases (s : App.State) :
  let size := GridCanvas.imageSize (App.canvas s) in
  let lines := evenGridLines (Home.rows (App.page s)) (Home.columns (App.page s)) size in
  (~ sizeKnown size /\ App.runRegenerate s = s)
  \/ (sizeKnown size
      /\ App.runRegenerate s
         = App.mkState
             (Home.handleGridLinesChange
                (mkNotification lines (width size) (height size)) (App.page s))
             (GridCanvas.setGridLines lines (App.canvas s))).
Proof.
  intros size lines. unfold App.runRegenerate, GridCanvas.regenerate, sizeKnown.
  fold size. destruct (Qeq_bool (width size) 0 || Qeq_bool (height size) 0) eqn:E.
  - left. split; [congruence|]. by destruct s.
  - right. split; [reflexivity|]. reflexivity.
Qed.

(** What a move does to the pair of page and canvas. *)
Lemma step_MouseMove (s s' : App.State) (e : GridCanvas.MouseEvent) :
  App.step s (App.MouseMove e) = Some s' ->
  GridCanvas.imageSize (App.canvas s') = GridCanvas.imageSize (App.canvas s)
  /\ Home.rows (App.page s') = Home.rows (App.page s)
  /\ Home.columns (App.page s') = Home.columns (App.page s)
  /\ ((GridCanvas.activeLine (App.canvas s) = None
       /\ GridCanvas.gridLines (App.canvas s') = GridCanvas.gridLines (App.canvas s)
       /\ App.page s' = App.page s)
      \/ (exists active line,
            GridCanvas.activeLine (App.canvas s) = Some active
            /\ GridCanvas.gridLines (App.canvas s) !! Z.to_nat active = Some line
            /\ GridCanvas.gridLines (App.canvas s')
               = <[Z.to_nat active :=
                     mkGridLine
                       (GridCanvas.draggedPosition (GridCanvas.imageSize (App.canvas s))
                          (GridCanvas.rasterX (App.canvas s) e)
                          (GridCanvas.rasterY (App.canvas s) e) line)
                       (isHorizontal line)]> (GridCanvas.gridLines (App.canvas s))
            /\ Home.gridLines (App.page s') = GridCanvas.gridLines (App.canvas s')
            /\ Home.imageSize (App.page s') = GridCanvas.imageSize (App.canvas s))).
Proof.
  simpl. destruct (GridCanvas.handleMouseMove (App.canvas s) e) as [[c n]|] eqn:Hm;
    [|discriminate].
  intros [= <-]. simpl.
  apply handleMouseMove_lines in Hm as (Hsize & _ & Hcase).
  split; [exact Hsize|].
  destruct (GridCanvas.activeLine (App.canvas s)) as [active|].
  - destruct Hcase as [Hd ->]. simpl. split; [reflexivity|]. split; [reflexivity|].
    right. apply dragLine_Some in Hd as (line & _ & El & Hupd).
    exists active, line. split; [reflexivity|]. split; [exact El|].
    split; [exact Hupd|]. split; [reflexivity|].
    unfold Home.handleGridLinesChange. simpl.
    by destruct (GridCanvas.imageSize (App.canvas s)).
  - destruct Hcase as [Hl ->]. simpl. split; [reflexivity|]. split; [reflexivity|].
    left. done.
Qed.

Lemma run_invariant (I : App.State -> Prop) (ok : App.Event -> Prop) :
  (forall s ev s', I s -> ok ev -> App.step s ev = Some s' -> I s') ->
  forall evs s s', I s -> Forall ok evs -> App.run s evs = Some s' -> I s'.
Proof.
  intros Hstep evs. induction evs as [|ev evs IH]; intros s s' Hs Hok Hrun.
  - simpl in Hrun. by injection Hrun as <-.
  - apply Forall_cons in Hok as [Hev Hok]. simpl in Hrun.
    destruct (App.step s ev) as [s1|] eqn:E; [|discriminate].
    eapply IH; [|exact Hok|exact Hrun]. by eapply Hstep.
Qed.

Lemma handleMouseDown_keeps (s : GridCanvas.State) (e : GridCanvas.MouseEvent) :
  GridCanvas.gridLines (GridCanvas.handleMouseDown s e) = GridCanvas.gridLines s
  /\ GridCanvas.imageSize (GridCanvas.handleMouseDown s e) = GridCanvas.imageSize s.
Proof. unfold GridCanvas.handleMouseDown. by destruct (_ =? _). Qed.

Lemma handleResetGrid_keeps (p : Home.State) :
  Home.rows (Home.handleResetGrid p) = Home.rows p
  /\ Home.columns (Home.handleResetGrid p) = Home.columns p
  /\ Home.imageSize (Home.handleResetGrid p) = Home.imageSize p
  /\ (Home.gridLines (Home.handleResetGrid p) = Home.gridLines p
      \/ Home.gridLines (Home.handleResetGrid p)
         = evenGridLines (Home.rows p) (Home.columns p) (Home.imageSize p)).
Proof.
  unfold Home.handleResetGrid. destruct (_ || _); simpl; auto.
Qed.

Lemma inBounds_eta (size : ImageSize) (lines : list GridLine) :
  Forall (inBounds size) lines ->
  Forall (inBounds (mkImageSize (width size) (height size))) lines.
Proof. by destruct size. Qed.

Lemma linesInBounds_step (s s' : App.State) (ev : App.Event) :
  linesInBounds s ->
  match ev with App.ImageLoaded w h => 0 < w /\ 0 < h | _ => True end ->
  App.step s ev = Some s' -> linesInBounds s'.
Proof.
  intros [(Hcw & Hch & Hc) (Hpw & Hph & Hp)] Hev Hstep.
  destruct ev as [url|w h|r c|e|e| | |].
  - injection Hstep as <-. split; simpl; [|done].
    split; [discriminate|]. split; [discriminate|constructor].
  - destruct Hev as [Hw Hh]. simpl in Hstep. injection Hstep as <-.
    assert (Hw0 : (0 <= inject_Z w)%Q)
      by (change 0%Q with (inject_Z 0); rewrite <- Zle_Qle; lia).
    assert (Hh0 : (0 <= inject_Z h)%Q)
      by (change 0%Q with (inject_Z 0); rewrite <- Zle_Qle; lia).
    destruct (runRegenerate_cases
                (App.mkState (App.page s) (GridCanvas.onload w h (App.canvas s))))
      as [[Hno _] | [_ ->]].
    + exfalso. apply Hno. by apply sizeKnown_positive.
    + simpl. split; (split; [exact Hw0|]; split; [exact Hh0|]);
        by apply evenGridLines_inBounds.
  - simpl in Hstep. injection Hstep as <-.
    destruct (runRegenerate_cases
                (App.mkState (Home.handleGridChange r c (App.page s)) (App.canvas s)))
      as [[_ ->] | [_ ->]].
    + done.
    + simpl. split; (split; [exact Hcw|]; split; [exact Hch|]).
      * by apply evenGridLines_inBounds.
      * apply inBounds_eta. by apply evenGridLines_inBounds.
  - injection Hstep as <-. unfold linesInBounds. cbn [App.canvas App.page].
    destruct (handleMouseDown_keeps (App.canvas s) e) as [-> ->]. done.
  - apply step_MouseMove in Hstep
      as (Hsize & _ & _ & [(_ & Hl & Hpage) | (a & line & _ & El & Hl & Hpl & Hps)]).
    + unfold linesInBounds. by rewrite Hsize, Hl, Hpage.
    + assert (Hc' : Forall (inBounds (GridCanvas.imageSize (App.canvas s)))
                           (GridCanvas.gridLines (App.canvas s'))).
      { rewrite Hl. apply Forall_insert; [exact Hc|].
        by apply draggedPosition_inBounds. }
      unfold linesInBounds. by rewrite Hsize, Hpl, Hps.
  - by injection Hstep as <-.
  - by injection Hstep as <-.
  - injection Hstep as <-. unfold linesInBounds. cbn [App.canvas App.page].
    split; [done|].
    destruct (handleResetGrid_keeps (App.page s)) as (_ & _ & -> & [-> | ->]);
      [done|].
    split; [exact Hpw|]. split; [exact Hph|]. by apply evenGridLines_inBounds.
Qed.

(** X6: in every state a session reaches from the initial page, by any
    sequence of uploads, loads of images of positive size, grid changes,
    pointer events and resets that does not throw, every line the canvas
    stores lies within the canvas' image size and every line the page
    stores lies within the page's image size. *)
Theorem reachable_lines_in_bounds (evs : list App.Event) (s : App.State) :
  positiveImages evs -> App.run App.initial evs = Some s -> linesInBounds s.
Proof.
  intros Hpos Hrun.
  apply (run_invariant linesInBounds
           (fun ev => match ev with
                      | App.ImageLoaded w h => 0 < w /\ 0 < h
                      | _ => True
                      end)
           (fun s0 ev s1 => linesInBounds_step s0 s1 ev)
           evs App.initial s); [|exact Hpos|exact Hrun].
  split; simpl; (split; [discriminate|]; split; [discriminate|constructor]).
Qed.

Lemma reachable_lines_in_bounds_witness :
  linesInBounds
    (App.mkState
       (Home.handleResetGrid (App.page Scenario.dragged))
       (App.canvas Scenario.dragged)).
Proof.
  apply (reachable_lines_in_bounds
           [App.ImageUploaded "blob:picture"; App.ImageLoaded 300 300;
            App.MouseDown (Scenario.pointerAt 100 50);
            App.MouseMove (Scenario.pointerAt 500 50);
            App.MouseUp; App.ResetGrid]).
  - repeat constructor; lia.
  - reflexivity.
Defined.

Lemma pushLines_flags (n : Z) (extent : Q) (horizontal : bool) :
  isHorizontal <$> pushLines n extent horizontal
  = replicate (Z.to_nat (n - 1)) horizontal.
Proof.
  unfold pushLines. rewrite <- list_fmap_compose.
  rewrite <- (length_seqZ 1 (n - 1)).
  induction (seqZ 1 (n - 1)) as [|i l IH]; [reflexivity|].
  rewrite fmap_cons. simpl length. simpl replicate. by rewrite IH.
Qed.

Lemma evenGridLines_flags (rows columns : Z) (size : ImageSize) :
  isHorizontal <$> evenGridLines rows columns size
  = replicate (Z.to_nat (rows - 1)) true ++ replicate (Z.to_nat (columns - 1)) false.
Proof. unfold evenGridLines. by rewrite fmap_app, !pushLines_flags. Qed.

Lemma drag_keeps_flags (lines : list GridLine) (i : nat) (line : GridLine) (p : Q) :
  lines !! i = Some line ->
  isHorizontal <$> <[i := mkGridLine p (isHorizontal line)]> lines
  = isHorizontal <$> lines.
Proof.
  intros El. rewrite list_fmap_insert. simpl.
  apply list_insert_id. by rewrite list_lookup_fmap, El.
Qed.

Lemma gridShape_step (s s' : App.State) (ev : App.Event) :
  gridShape s -> True -> App.step s ev = Some s' -> gridShape s'.
Proof.
  intros Hs _ Hstep. destruct ev as [url|w h|r c|e|e| | |].
  - injection Hstep as <-. intros Hk. discriminate Hk.
  - simpl in Hstep. injection Hstep as <-.
    destruct (runRegenerate_cases
                (App.mkState (App.page s) (GridCanvas.onload w h (App.canvas s))))
      as [[Hno ->] | [_ ->]].
    + intros Hk. contradiction.
    + intros _. simpl. apply evenGridLines_flags.
  - simpl in Hstep. injection Hstep as <-.
    destruct (runRegenerate_cases
                (App.mkState (Home.handleGridChange r c (App.page s)) (App.canvas s)))
      as [[Hno ->] | [_ ->]].
    + intros Hk. contradiction.
    + intros _. simpl. apply evenGridLines_flags.
  - injection Hstep as <-. unfold gridShape. cbn [App.canvas App.page].
    destruct (handleMouseDown_keeps (App.canvas s) e) as [-> ->]. exact Hs.
  - apply step_MouseMove in Hstep
      as (Hsize & Hr & Hc & [(_ & Hl & Hpage) | (a & line & _ & El & Hl & _ & _)]).
    + unfold gridShape. rewrite Hsize, Hl, Hr, Hc. exact Hs.
    + unfold gridShape. rewrite Hsize, Hl, Hr, Hc.
      rewrite (drag_keeps_flags _ _ line) by exact El. exact Hs.
  - injection Hstep as <-. exact Hs.
  - injection Hstep as <-. exact Hs.
  - injection Hstep as <-. unfold gridShape. cbn [App.canvas App.page].
    destruct (handleResetGrid_keeps (App.page s)) as (-> & -> & _). exact Hs.
Qed.

(** X7: in every state a session reaches without throwing, once the
    canvas knows the image size it stores the horizontal lines first and
    the vertical lines after them, rows-1 and columns-1 of them for the
    row and column counts the page holds: regeneration builds this shape
    and no drag, release or reset changes the number, the order or the
    axis of a stored line. *)
Theorem reachable_grid_shape (evs : list App.Event) (s : App.State) :
  App.run App.initial evs = Some s ->
  sizeKnown (GridCanvas.imageSize (App.canvas s)) ->
  isHorizontal <$> GridCanvas.gridLines (App.canvas s)
  = replicate (Z.to_nat (Home.rows (App.page s) - 1)) true
    ++ replicate (Z.to_nat (Home.columns (App.page s) - 1)) false
  /\ length (GridCanvas.gridLines (App.canvas s))
     = (Z.to_nat (Home.rows (App.page s) - 1)
        + Z.to_nat (Home.columns (App.page s) - 1))%nat.
Proof.
  intros Hrun Hk.
  assert (Hshape : gridShape s).
  { apply (run_invariant gridShape (fun _ => True)
             (fun s0 ev s1 => gridShape_step s0 s1 ev) evs App.initial s).
    - intros Hk0. discriminate Hk0.
    - by apply Forall_forall.
    - exact Hrun. }
  split; [by apply Hshape|].
  rewrite <- (length_fmap isHorizontal), (Hshape Hk).
  by rewrite length_app, !length_replicate.
Qed.

Lemma reachable_grid_shape_witness :
  isHorizontal <$> GridCanvas.gridLines (App.canvas Scenario.dragged)
  = [true; true; false; false]
  /\ length (GridCanvas.gridLines (App.canvas Scenario.dragged)) = 4%nat.
Proof.
  apply (reachable_grid_shape
           [App.ImageUploaded "blob:picture"; App.ImageLoaded 300 300;
            App.MouseDown (Scenario.pointerAt 100 50);
            App.MouseMove (Scenario.pointerAt 500 50); App.MouseUp]).
  - reflexivity.
  - reflexivity.
Defined.

Lemma pageMirrorsCanvas_step (s s' : App.State) (ev : App.Event) :
  pageMirrorsCanvas s -> isResetGrid ev = false ->
  App.step s ev = Some s' -> pageMirrorsCanvas s'.
Proof.
  intros Hs Hev Hstep. destruct ev as [url|w h|r c|e|e| | |]; try discriminate Hev.
  - injection Hstep as <-. intros Hk. discriminate Hk.
  - simpl in Hstep. injection Hstep as <-.
    destruct (runRegenerate_cases
                (App.mkState (App.page s) (GridCanvas.onload w h (App.canvas s))))
      as [[Hno ->] | [_ ->]].
    + intros Hk. contradiction.
    + intros _. simpl. done.
  - simpl in Hstep. injection Hstep as <-.
    destruct (runRegenerate_cases
                (App.mkState (Home.handleGridChange r c (App.page s)) (App.canvas s)))
      as [[Hno ->] | [_ ->]].
    + intros Hk. contradiction.
    + intros _. simpl. split; [reflexivity|].
      by destruct (GridCanvas.imageSize (App.canvas s)).
  - injection Hstep as <-. unfold pageMirrorsCanvas. cbn [App.canvas App.page].
    destruct (handleMouseDown_keeps (App.canvas s) e) as [-> ->]. exact Hs.
  - apply step_MouseMove in Hstep
      as (Hsize & _ & _ & [(_ & Hl & Hpage) | (a & line & _ & _ & _ & Hpl & Hps)]).
    + unfold pageMirrorsCanvas. rewrite Hsize, Hl, Hpage. exact Hs.
    + unfold pageMirrorsCanvas. rewrite Hsize, Hpl, Hps. done.
  - injection Hstep as <-. exact Hs.
  - injection Hstep as <-. exact Hs.
Qed.

(** X8: as long as the reset action is not used, the page's copy follows
    the canvas: in every state reached without throwing, once the canvas
    knows the image size, the line list and the image size the page holds
    (the ones the client-side cut reads) are those of the canvas. *)
Theorem page_follows_canvas (evs : list App.Event) (s : App.State) :
  Forall (fun ev => isResetGrid ev = false) evs ->
  App.run App.initial evs = Some s ->
  sizeKnown (GridCanvas.imageSize (App.canvas s)) ->
  Home.gridLines (App.page s) = GridCanvas.gridLines (App.canvas s)
  /\ Home.imageSize (App.page s) = GridCanvas.imageSize (App.canvas s).
Proof.
  intros Hev Hrun.
  apply (run_invariant pageMirrorsCanvas (fun ev => isResetGrid ev = false)
           (fun s0 ev s1 => pageMirrorsCanvas_step s0 s1 ev) evs App.initial s).
  - intros Hk0. discriminate Hk0.
  - exact Hev.
  - exact Hrun.
Qed.

Lemma page_follows_canvas_witness :
  Home.gridLines (App.page Scenario.dragged)
  = GridCanvas.gridLines (App.canvas Scenario.dragged)
  /\ Home.imageSize (App.page Scenario.dragged)
     = GridCanvas.imageSize (App.canvas Scenario.dragged).
Proof.
  apply (page_follows_canvas
           [App.ImageUploaded "blob:picture"; App.ImageLoaded 300 300;
            App.MouseDown (Scenario.pointerAt 100 50);
            App.MouseMove (Scenario.pointerAt 500 50); App.MouseUp]).
  - repeat constructor.
  - reflexivity.
  - reflexivity.
Defined.

(** ** The server route *)

Lemma extractAll_is_Some {File : Type}
      (extractToBuffer : File -> CutImageRoute.Region -> option (list N))
      (imageFile : File) (jobs : list (string * CutImageRoute.Region)) :
  is_Some (CutImageRoute.extractAll extractToBuffer imageFile jobs)
  <-> Forall (fun region => is_Some (extractToBuffer imageFile region)) jobs.*2.
Proof.
  unfold CutImageRoute.extractAll. rewrite mapM_is_Some, Forall_fmap.
  apply Forall_proper; [|reflexivity]. intros job. unfold compose.
  by rewrite fmap_is_Some.
Qed.

Lemma falsy_false (n : option Z) :
  CutImageRoute.falsy n = false <-> exists v, n = Some v /\ v <> 0.
Proof.
  destruct n as [v|]; simpl.
  - destruct (Z.eqb_spec v 0); split; try done.
    + intros (w & [= <-] & Hw). done.
    + intros _. by exists v.
  - split; [done|]. by intros (v & [=] & _).
Qed.

(** A request with an image, counts and dimensions that are all
    present and non-zero reaches the cell loops. *)
Lemma POST_valid {File : Type}
      (sharpMetadata : File -> option CutImageRoute.Metadata)
      (extractToBuffer : File -> CutImageRoute.Region -> option (list N))
      (settleOrder : list (string * list N) -> list (string * list N))
      (formData : CutImageRoute.FormData File) (imageFile : File)
      (rows columns W H : Z) :
  CutImageRoute.image formData = Some imageFile ->
  CutImageRoute.parseInt (default "null" (CutImageRoute.rowsField formData)) = Some rows ->
  CutImageRoute.parseInt (default "null" (CutImageRoute.columnsField formData))
  = Some columns ->
  sharpMetadata imageFile = Some (CutImageRoute.mkMetadata (Some W) (Some H)) ->
  rows <> 0 -> columns <> 0 -> W <> 0 -> H <> 0 ->
  CutImageRoute.POST sharpMetadata extractToBuffer settleOrder formData
  = match CutImageRoute.extractAll extractToBuffer imageFile
            (CutImageRoute.cellJobs W H rows columns) with
    | None =>
        CutImageRoute.mkOutcome
          (CutImageRoute.JsonError 500 "Failed to process image")
          (serverRegions W H rows columns)
    | Some settled =>
        CutImageRoute.mkOutcome
          (CutImageRoute.ZipFile (CutImageRoute.addFiles (settleOrder settled)))
          (serverRegions W H rows columns)
    end.
Proof.
  intros Hi Hr Hc Hm Hr0 Hc0 HW HH.
  unfold CutImageRoute.POST. rewrite Hi, Hr, Hc, Hm. simpl.
  destruct (Z.eqb_spec rows 0); [done|]. destruct (Z.eqb_spec columns 0); [done|].
  destruct (Z.eqb_spec W 0); [done|]. destruct (Z.eqb_spec H 0); [done|].
  simpl. unfold serverRegions. by destruct (CutImageRoute.extractAll _ _ _).
Qed.

(** Any other request is answered with an error before any extraction
    is asked for. *)
Lemma POST_cases {File : Type}
      (sharpMetadata : File -> option CutImageRoute.Metadata)
      (extractToBuffer : File -> CutImageRoute.Region -> option (list N))
      (settleOrder : list (string * list N) -> list (string * list N))
      (formData : CutImageRoute.FormData File) :
  (exists imageFile rows columns W H,
      CutImageRoute.image formData = Some imageFile
      /\ CutImageRoute.parseInt (default "null" (CutImageRoute.rowsField formData))
         = Some rows
      /\ CutImageRoute.parseInt (default "null" (CutImageRoute.columnsField formData))
         = Some columns
      /\ sharpMetadata imageFile = Some (CutImageRoute.mkMetadata (Some W) (Some H))
      /\ rows <> 0 /\ columns <> 0 /\ W <> 0 /\ H <> 0)
  \/ (exists status reason,
        CutImageRoute.POST sharpMetadata extractToBuffer settleOrder formData
        = CutImageRoute.mkOutcome (CutImageRoute.JsonError status reason) []
        /\ (status = 400 \/ status = 500)).
Proof.
  unfold CutImageRoute.POST.
  destruct (CutImageRoute.image formData) as [imageFile|]; [|right; eauto].
  destruct (CutImageRoute.falsy
              (CutImageRoute.parseInt (default "null" (CutImageRoute.rowsField formData))))
    eqn:Hr; [right; eauto|].
  destruct (CutImageRoute.falsy
              (CutImageRoute.parseInt
                 (default "null" (CutImageRoute.columnsField formData))))
    eqn:Hc; [right; eauto|].
  apply falsy_false in Hr as (rows & Hrows & Hr).
  apply falsy_false in Hc as (columns & Hcols & Hc).
  destruct (sharpMetadata imageFile) as [[mw mh]|] eqn:Hmeta; [|right; eauto].
  cbn [orb CutImageRoute.metaWidth CutImageRoute.metaHeight].
  destruct (CutImageRoute.falsy mw) eqn:Hw; [right; eauto|].
  destruct (CutImageRoute.falsy mh) eqn:Hh; [right; eauto|].
  apply falsy_false in Hw as (W & -> & HW).
  apply falsy_false in Hh as (H & -> & HH).
  left. exists imageFile, rows, columns, W, H. done.
Qed.

(** X9: the route answers with an archive exactly when the request has
    an image, row and column counts that parse to non-zero integers, an
    image whose metadata gives a non-zero width and height, and every
    single extraction succeeds; one failing extraction is enough to turn
    the whole answer into an error.  Every other answer is a JSON error
    with status 400 or 500: there is no partial archive. *)
Theorem POST_archive_iff {File : Type}
      (sharpMetadata : File -> option CutImageRoute.Metadata)
      (extractToBuffer : File -> CutImageRoute.Region -> option (list N))
      (settleOrder : list (string * list N) -> list (string * list N))
      (formData : CutImageRoute.FormData File) :
  let answer :=
    CutImageRoute.response
      (CutImageRoute.POST sharpMetadata extractToBuffer settleOrder formData) in
  ((exists archive, answer = CutImageRoute.ZipFile archive)
   <-> (exists imageFile rows columns W H,
          CutImageRoute.image formData = Some imageFile
          /\ CutImageRoute.parseInt (default "null" (CutImageRoute.rowsField formData))
             = Some rows
          /\ CutImageRoute.parseInt (default "null" (CutImageRoute.columnsField formData))
             = Some columns
          /\ sharpMetadata imageFile = Some (CutImageRoute.mkMetadata (Some W) (Some H))
          /\ rows <> 0 /\ columns <> 0 /\ W <> 0 /\ H <> 0
          /\ Forall (fun region => is_Some (extractToBuffer imageFile region))
                    (serverRegions W H rows columns)))
  /\ ((exists archive, answer = CutImageRoute.ZipFile archive)
      \/ (exists status reason,
            answer = CutImageRoute.JsonError status reason
            /\ (status = 400 \/ status = 500))).
Proof.
  intros answer.
  assert (Hvalid : forall f r c W H,
             CutImageRoute.image formData = Some f ->
             CutImageRoute.parseInt (default "null" (CutImageRoute.rowsField formData))
             = Some r ->
             CutImageRoute.parseInt (default "null" (CutImageRoute.columnsField formData))
             = Some c ->
             sharpMetadata f = Some (CutImageRoute.mkMetadata (Some W) (Some H)) ->
             r <> 0 -> c <> 0 -> W <> 0 -> H <> 0 ->
             ((exists archive, answer = CutImageRoute.ZipFile archive)
              <-> Forall (fun region => is_Some (extractToBuffer f region))
                         (serverRegions W H r c))
             /\ ((exists archive, answer = CutImageRoute.ZipFile archive)
                 \/ answer = CutImageRoute.JsonError 500 "Failed to process image")).
  { intros f r c W H Hi Hr Hc Hm Hr0 Hc0 HW HH. unfold answer.
    rewrite (POST_valid _ _ _ _ f r c W H) by done.
    unfold serverRegions. rewrite <- extractAll_is_Some.
    destruct (CutImageRoute.extractAll extractToBuffer f
                (CutImageRoute.cellJobs W H r c)) as [settled|]; simpl.
    - split; [|left; eauto]. split; eauto.
    - split; [|by right]. split; [intros [? [=]]|intros [? [=]]]. }
  destruct (POST_cases sharpMetadata extractToBuffer settleOrder formData)
    as [(f & r & c & W & H & Hi & Hr & Hc & Hm & Hr0 & Hc0 & HW & HH)
       | (status & reason & Hpost & Hstatus)].
  - destruct (Hvalid f r c W H Hi Hr Hc Hm Hr0 Hc0 HW HH) as [Hiff Hor]. split.
    + split.
      * intros Hzip. exists f, r, c, W, H. repeat split; try done. by apply Hiff.
      * intros (f' & r' & c' & W' & H' & Hi' & Hr' & Hc' & Hm' & _ & _ & _ & _ & Hex).
        assert (f' = f) as -> by congruence.
        assert (r' = r) as -> by congruence.
        assert (c' = c) as -> by congruence.
        assert (W' = W /\ H' = H) as [-> ->] by (split; congruence).
        by apply Hiff.
    + destruct Hor as [Hzip | Herr]; [by left|right]. eauto.
  - assert (Hans : answer = CutImageRoute.JsonError status reason).
    { unfold answer. by rewrite Hpost. }
    split; [|right; eauto]. split.
    + intros [archive Hzip]. congruence.
    + intros (f & r & c & W & H & Hi & Hr & Hc & Hm & Hr0 & Hc0 & HW & HH & Hex).
      destruct (Hvalid f r c W H Hi Hr Hc Hm Hr0 Hc0 HW HH) as [Hiff _].
      by apply Hiff.
Qed.

Lemma POST_archive_iff_witness :
  let extractToBuffer := fun (_ : unit) (r : CutImageRoute.Region) =>
    if CutImageRoute.left r =? 3 then None else Some [Z.to_N (CutImageRoute.left r)] in
  CutImageRoute.response
    (CutImageRoute.POST
       (fun _ => Some (CutImageRoute.mkMetadata (Some 10) (Some 10)))
       extractToBuffer (fun l => l)
       (CutImageRoute.mkFormData (Some tt) (Some "3") (Some "3")))
  = CutImageRoute.JsonError 500 "Failed to process image".
Proof.
  intros extractToBuffer.
  destruct (POST_archive_iff
              (fun _ : unit => Some (CutImageRoute.mkMetadata (Some 10) (Some 10)))
              extractToBuffer (fun l => l)
              (CutImageRoute.mkFormData (Some tt) (Some "3") (Some "3")))
    as [_ [[archive Hzip] | (status & reason & Herr & _)]].
  - vm_compute in Hzip. discriminate.
  - reflexivity.
Defined.

(** X10: for positive row and column counts the regions the route asks
    [sharp] for never leave the image: each has a non-negative offset and
    size and ends at or before the right and bottom edge.  An image
    narrower than the column count (or lower than the row count) makes
    every region zero pixels wide (or high). *)
Theorem serverRegions_within_image (W H rows columns : Z) :
  0 <= W -> 0 <= H -> 0 < rows -> 0 < columns ->
  Forall (fun r =>
            0 <= CutImageRoute.left r /\ 0 <= CutImageRoute.top r
            /\ 0 <= CutImageRoute.regionWidth r /\ 0 <= CutImageRoute.regionHeight r
            /\ CutImageRoute.left r + CutImageRoute.regionWidth r <= W
            /\ CutImageRoute.top r + CutImageRoute.regionHeight r <= H
            /\ (W < columns -> CutImageRoute.regionWidth r = 0)
            /\ (H < rows -> CutImageRoute.regionHeight r = 0))
         (serverRegions W H rows columns).
Proof.
  intros HW HH Hrows Hcols. rewrite serverRegions_rows.
  apply Forall_forall. intros r Hr.
  apply list_elem_of_bind in Hr as (row & Hr & Hrow).
  apply list_elem_of_fmap in Hr as (col & -> & Hcol).
  apply elem_of_seqZ in Hrow. apply elem_of_seqZ in Hcol. simpl.
  assert (Hcw : 0 <= W / columns) by (apply Z.div_pos; lia).
  assert (Hch : 0 <= H / rows) by (apply Z.div_pos; lia).
  assert (Hcw' : columns * (W / columns) <= W) by (apply Z.mul_div_le; lia).
  assert (Hch' : rows * (H / rows) <= H) by (apply Z.mul_div_le; lia).
  assert (Hsw : W < columns -> W / columns = 0) by (intros; apply Z.div_small; lia).
  assert (Hsh : H < rows -> H / rows = 0) by (intros; apply Z.div_small; lia).
  repeat split; try nia; assumption.
Qed.

Lemma serverRegions_within_image_witness :
  Forall (fun r =>
            0 <= CutImageRoute.left r /\ 0 <= CutImageRoute.top r
            /\ 0 <= CutImageRoute.regionWidth r /\ 0 <= CutImageRoute.regionHeight r
            /\ CutImageRoute.left r + CutImageRoute.regionWidth r <= 2
            /\ CutImageRoute.top r + CutImageRoute.regionHeight r <= 10
            /\ (2 < 3 -> CutImageRoute.regionWidth r = 0)
            /\ (10 < 3 -> CutImageRoute.regionHeight r = 0))
         (serverRegions 2 10 3 3).
Proof.
  apply (serverRegions_within_image 2 10 3 3); lia.
Defined.


(** ** The request of the server path *)

Lemma digit_cases (d : N) :
  (d < 10)%N ->
  d = 0%N \/ d = 1%N \/ d = 2%N \/ d = 3%N \/ d = 4%N \/ d = 5%N \/ d = 6%N
  \/ d = 7%N \/ d = 8%N \/ d = 9%N.
Proof. lia. Qed.

Lemma digitValue_pretty_N_char (d : N) :
  (d < 10)%N -> CutImageRoute.digitValue (pretty_N_char d) = Some (Z.of_N d).
Proof.
  intros Hd.
  destruct (digit_cases d Hd) as [->|[->|[->|[->|[->|[->|[->|[->|[->| ->]]]]]]]]];
    reflexivity.
Qed.

Lemma fmap_sign_one (o : option Z) : (fun v => 1 * v) <$> o = o.
Proof. destruct o as [v|]; simpl; [f_equal; lia|reflexivity]. Qed.

(** On a string of digits [parseInt] skips nothing, reads no sign and
    no [0x] prefix. *)
Lemma parseInt_decimal (s : string) :
  decimal s -> CutImageRoute.parseInt s = CutImageRoute.digitsPrefix 10 s None.
Proof.
  destruct s as [|c r]; [reflexivity|].
  intros [(d & Hd & ->) Hr].
  destruct (digit_cases d Hd) as [->|[->|[->|[->|[->|[->|[->|[->|[->| ->]]]]]]]]].
  2-10: unfold CutImageRoute.parseInt; simpl; apply fmap_sign_one.
  destruct r as [|c2 r2]; [reflexivity|].
  destruct Hr as [(d2 & Hd2 & ->) Hr2].
  destruct (digit_cases d2 Hd2) as [->|[->|[->|[->|[->|[->|[->|[->|[->| ->]]]]]]]]];
    unfold CutImageRoute.parseInt; simpl; apply fmap_sign_one.
Qed.

Lemma parseInt_minus_decimal (s : string) :
  decimal s ->
  CutImageRoute.parseInt ("-" +:+ s)
  = (fun v => - v) <$> CutImageRoute.digitsPrefix 10 s None.
Proof.
  assert (Hneg : forall o : option Z, (fun v => -1 * v) <$> o = (fun v => - v) <$> o).
  { intros [v|]; simpl; [f_equal; lia|reflexivity]. }
  destruct s as [|c r]; [reflexivity|].
  intros [(d & Hd & ->) Hr].
  destruct (digit_cases d Hd) as [->|[->|[->|[->|[->|[->|[->|[->|[->| ->]]]]]]]]].
  2-10: unfold CutImageRoute.parseInt; simpl; apply Hneg.
  destruct r as [|c2 r2]; [reflexivity|].
  destruct Hr as [(d2 & Hd2 & ->) Hr2].
  destruct (digit_cases d2 Hd2) as [->|[->|[->|[->|[->|[->|[->|[->|[->| ->]]]]]]]]];
    unfold CutImageRoute.parseInt; simpl; apply Hneg.
Qed.

Lemma pretty_N_go_decimal (x : N) (s : string) :
  decimal s -> decimal (pretty_N_go x s).
Proof.
  revert s. induction (N.lt_wf_0 x) as [x _ IH]; intros s Hs.
  destruct (decide (x = 0)%N) as [->|Hx]; [by rewrite pretty_N_go_0|].
  rewrite pretty_N_go_step by lia. apply IH; [apply N.div_lt; lia|].
  split; [|exact Hs]. exists (x mod 10)%N. split; [|reflexivity].
  apply N.mod_lt. lia.
Qed.

(** Reading back the digits [pretty_N_go] has written in front of [s]. *)
Lemma digitsPrefix_pretty_N_go (x : N) :
  exists k : nat, forall (s : string) (acc : option Z),
    CutImageRoute.digitsPrefix 10 (pretty_N_go x s) acc
    = CutImageRoute.digitsPrefix 10 s
        (if decide (x = 0)%N then acc
         else Some (default 0 acc * 10 ^ Z.of_nat k + Z.of_N x)).
Proof.
  induction (N.lt_wf_0 x) as [x _ IH].
  destruct (decide (x = 0)%N) as [->|Hx].
  - exists 0%nat. intros s acc. by rewrite pretty_N_go_0.
  - destruct (IH (x / 10)%N ltac:(apply N.div_lt; lia)) as [k' Hk'].
    exists (if decide (x / 10 = 0)%N then 1%nat else S k').
    intros s acc. rewrite pretty_N_go_step by lia. rewrite Hk'.
    simpl CutImageRoute.digitsPrefix at 1.
    rewrite digitValue_pretty_N_char by (apply N.mod_lt; lia).
    assert (Hlt : (Z.of_N (x mod 10)%N <? 10) = true).
    { apply Z.ltb_lt. pose proof (N.mod_lt x 10 ltac:(lia)). lia. }
    rewrite Hlt. f_equal. f_equal.
    assert (Hdm : Z.of_N x = 10 * Z.of_N (x / 10)%N + Z.of_N (x mod 10)%N).
    { pose proof (N.div_mod x 10 ltac:(lia)) as E.
      apply (f_equal Z.of_N) in E. rewrite N2Z.inj_add, N2Z.inj_mul in E. exact E. }
    destruct (decide (x / 10 = 0)%N) as [Hd|Hd].
    + rewrite Hd in Hdm. simpl in Hdm. rewrite Hdm.
      change (10 ^ Z.of_nat 1) with 10. lia.
    + simpl default. rewrite Nat2Z.inj_succ, Z.pow_succ_r by lia. lia.
Qed.

(** [parseInt(n.toString())] is [n] for every integer. *)
Lemma parseInt_pretty (n : Z) : CutImageRoute.parseInt (pretty n) = Some n.
Proof.
  destruct n as [|p|p].
  - reflexivity.
  - change (pretty (Z.pos p)) with (pretty_N_go (N.pos p) "").
    rewrite parseInt_decimal by (by apply pretty_N_go_decimal).
    destruct (digitsPrefix_pretty_N_go (N.pos p)) as [k Hk]. rewrite Hk.
    destruct (decide (N.pos p = 0)%N); [lia|]. simpl. f_equal.
  - change (pretty (Z.neg p)) with ("-" +:+ pretty_N_go (N.pos p) "").
    rewrite parseInt_minus_decimal by (by apply pretty_N_go_decimal).
    destruct (digitsPrefix_pretty_N_go (N.pos p)) as [k Hk]. rewrite Hk.
    destruct (decide (N.pos p = 0)%N); [lia|]. simpl. f_equal.
Qed.

(** X11: the route reads back exactly the row and column counts the
    page sent as text, so for an image of W x H pixels the server path
    extracts the uniform regions of the page's counts, whatever grid
    lines the page holds.  When every extraction succeeds the page
    downloads [grid-images.zip] with rows*columns entries; when one fails
    it runs the client-side cut instead. *)
Theorem server_cut_uses_page_counts {File : Type}
      (toDataURL : ImageProcessing.DrawnCell -> string)
      (sharpMetadata : File -> option CutImageRoute.Metadata)
      (extractToBuffer : File -> CutImageRoute.Region -> option (list N))
      (settleOrder : list (string * list N) -> list (string * list N))
      (imageFile : File) (s : Home.State) (W H imgWidth imgHeight : Z) :
  sharpMetadata imageFile = Some (CutImageRoute.mkMetadata (Some W) (Some H)) ->
  0 < W -> 0 < H -> 0 < Home.rows s -> 0 < Home.columns s ->
  (forall settled, settleOrder settled ≡ₚ settled) ->
  let regions := serverRegions W H (Home.rows s) (Home.columns s) in
  let cut := PageActions.handleServerSideCut toDataURL sharpMetadata extractToBuffer
               settleOrder (Some imageFile) s imgWidth imgHeight in
  CutImageRoute.extracted
    (CutImageRoute.POST sharpMetadata extractToBuffer settleOrder
       (PageActions.request imageFile s)) = regions
  /\ (Forall (fun region => is_Some (extractToBuffer imageFile region)) regions ->
      exists archive,
        cut = PageActions.downloaded archive "grid-images.zip"
        /\ size archive = (Z.to_nat (Home.rows s) * Z.to_nat (Home.columns s))%nat)
  /\ (Exists (fun region => extractToBuffer imageFile region = None) regions ->
      cut = PageActions.fell_back
              (PageActions.handleClientSideCut toDataURL s imgWidth imgHeight)).
Proof.
  intros Hmeta HW HH Hr Hc Hperm regions cut.
  assert (Hrows : CutImageRoute.parseInt
                    (default "null"
                       (CutImageRoute.rowsField (PageActions.request imageFile s)))
                  = Some (Home.rows s)) by apply parseInt_pretty.
  assert (Hcols : CutImageRoute.parseInt
                    (default "null"
                       (CutImageRoute.columnsField (PageActions.request imageFile s)))
                  = Some (Home.columns s)) by apply parseInt_pretty.
  pose proof (POST_valid sharpMetadata extractToBuffer settleOrder
                (PageActions.request imageFile s) imageFile
                (Home.rows s) (Home.columns s) W H eq_refl Hrows Hcols Hmeta
                ltac:(lia) ltac:(lia) ltac:(lia) ltac:(lia)) as Hpost.
  split; [|split].
  - rewrite Hpost. by destruct (CutImageRoute.extractAll _ _ _).
  - intros Hall.
    destruct (server_archive sharpMetadata extractToBuffer settleOrder
                (PageActions.request imageFile s) imageFile W H
                (Home.rows s) (Home.columns s) eq_refl Hrows Hcols Hmeta
                HW HH Hr Hc Hall Hperm) as (archive & Hzip & Hsize & _).
    exists archive. split; [|exact Hsize].
    unfold cut, PageActions.handleServerSideCut. by rewrite Hzip.
  - intros Hex.
    unfold cut, PageActions.handleServerSideCut. rewrite Hpost.
    destruct (CutImageRoute.extractAll extractToBuffer imageFile
                (CutImageRoute.cellJobs W H (Home.rows s) (Home.columns s)))
      as [settled|] eqn:Hall; [|reflexivity].
    exfalso.
    assert (Hsome : Forall (fun region => is_Some (extractToBuffer imageFile region))
                           regions).
    { apply extractAll_is_Some. by rewrite Hall. }
    apply Exists_exists in Hex as (region & Hin & Hnone).
    rewrite Forall_forall in Hsome. specialize (Hsome region Hin).
    rewrite Hnone in Hsome. by destruct Hsome.
Qed.

Lemma server_cut_uses_page_counts_witness :
  let page := App.page Scenario.dragged in
  let sharpMetadata := fun _ : unit =>
    Some (CutImageRoute.mkMetadata (Some 300) (Some 300)) in
  let extractToBuffer := fun (_ : unit) (r : CutImageRoute.Region) =>
    Some [Z.to_N (CutImageRoute.left r); Z.to_N (CutImageRoute.top r)] in
  Home.gridLines page !! 2%nat = Some (mkGridLine 300 false)
  /\ CutImageRoute.extracted
       (CutImageRoute.POST sharpMetadata extractToBuffer (fun l => reverse l)
          (PageActions.request tt page))
     = serverRegions 300 300 3 3
  /\ exists archive,
       PageActions.handleServerSideCut (fun _ => "data:,") sharpMetadata extractToBuffer
         (fun l => reverse l) (Some tt) page 300 300
       = PageActions.downloaded archive "grid-images.zip"
       /\ size archive = 9%nat.
Proof.
  intros page sharpMetadata extractToBuffer.
  split; [reflexivity|].
  destruct (server_cut_uses_page_counts (fun _ => "data:,") sharpMetadata
              extractToBuffer (fun l => reverse l) tt page 300 300 300 300
              eq_refl ltac:(lia) ltac:(reflexivity) ltac:(reflexivity)
              ltac:(reflexivity) (fun l => reverse_Permutation l))
    as (Hreg & Hok & _).
  split; [exact Hreg|].
  apply Hok. apply Forall_forall. intros region _. by eexists.
Defined.

(** ** The uniform cut of the browser *)

Lemma Qltb_comp (p b c : Q) : (b == c)%Q -> Qltb p b = Qltb p c.
Proof.
  intros Hbc.
  destruct (Qltb p b) eqn:E1, (Qltb p c) eqn:E2; try reflexivity;
    exfalso; rational_comparisons; lra.
Qed.

(** Strips of a rational width [cw] laid side by side from 0. *)
Lemma count_fraction_strips (n : nat) (cw p : Q) :
  (0 <= cw)%Q ->
  length (List.filter (fun k => Qle_bool (inject_Z k * cw) p
                                && Qltb p (inject_Z k * cw + cw))
                      (seqZ 0 (Z.of_nat n)))
  = if Qle_bool 0 p && Qltb p (inject_Z (Z.of_nat n) * cw) then 1%nat else 0%nat.
Proof.
  intros Hcw. induction n as [|n IH].
  - simpl length.
    destruct (Qle_bool 0 p) eqn:E1, (Qltb p (inject_Z (Z.of_nat 0) * cw)) eqn:E2;
      try reflexivity.
    exfalso. rational_comparisons. change (inject_Z (Z.of_nat 0)) with 0%Q in E2. lra.
  - rewrite seqZ_S, List.filter_app, length_app, IH. simpl List.filter.
    rewrite Z.add_0_l.
    assert (Hnext : (inject_Z (Z.of_nat (S n)) * cw
                     == inject_Z (Z.of_nat n) * cw + cw)%Q).
    { rewrite Nat2Z.inj_succ, <- Z.add_1_r, inject_Z_plus. ring. }
    rewrite (Qltb_comp p _ _ Hnext).
    assert (Hfloor : (0 <= inject_Z (Z.of_nat n) * cw)%Q).
    { apply Qmult_le_0_compat; [|exact Hcw].
      change 0%Q with (inject_Z 0). rewrite <- Zle_Qle. lia. }
    destruct (Qle_bool 0 p) eqn:E1,
             (Qltb p (inject_Z (Z.of_nat n) * cw)) eqn:E2,
             (Qle_bool (inject_Z (Z.of_nat n) * cw) p) eqn:E3,
             (Qltb p (inject_Z (Z.of_nat n) * cw + cw)) eqn:E4;
      simpl; try reflexivity; exfalso; rational_comparisons; lra.
Qed.

(** X12: the uniform cut of the browser emits rows*columns cells whose
    source rectangles tile the whole image: every point of
    [0,W) x [0,H) lies in exactly one of them and every other point in
    none, whether or not the counts divide the size.  The canvas each
    cell is drawn on is floor(W/columns) by floor(H/rows) pixels. *)
Theorem uniform_client_cut_tiles_image (W H rows columns : Z) :
  0 < W -> 0 < H -> 0 < rows -> 0 < columns ->
  let cells := ImageProcessing.cutImageIntoGrid W H rows columns in
  length cells = (Z.to_nat rows * Z.to_nat columns)%nat
  /\ (forall x y,
        coverage cells x y
        = if (Qle_bool 0 x && Qltb x (inject_Z W))
             && (Qle_bool 0 y && Qltb y (inject_Z H))
          then 1%nat else 0%nat)
  /\ Forall (fun c => ImageProcessing.pixelWidth c = W / columns
                      /\ ImageProcessing.pixelHeight c = H / rows) cells.
Proof.
  intros HW HH Hrows Hcols cells.
  split; [apply cutImageIntoGrid_length|]. split.
  - intros x y. unfold coverage, cells. rewrite cutImageIntoGrid_rows.
    set (cw := (inject_Z W / inject_Z columns)%Q).
    set (ch := (inject_Z H / inject_Z rows)%Q).
    assert (Hcw : (0 <= cw)%Q).
    { unfold cw. apply Qle_shift_div_l.
      - change 0%Q with (inject_Z 0). rewrite <- Zlt_Qlt. lia.
      - rewrite Qmult_0_l. change 0%Q with (inject_Z 0). rewrite <- Zle_Qle. lia. }
    assert (Hch : (0 <= ch)%Q).
    { unfold ch. apply Qle_shift_div_l.
      - change 0%Q with (inject_Z 0). rewrite <- Zlt_Qlt. lia.
      - rewrite Qmult_0_l. change 0%Q with (inject_Z 0). rewrite <- Zle_Qle. lia. }
    rewrite (count_product
               (fun col row =>
                  ImageProcessing.mkDrawnCell (inject_Z col * cw) (inject_Z row * ch)
                    cw ch (ImageProcessing.canvasSize cw) (ImageProcessing.canvasSize ch))
               _ (fun k => Qle_bool (inject_Z k * cw) x && Qltb x (inject_Z k * cw + cw))
               (fun k => Qle_bool (inject_Z k * ch) y && Qltb y (inject_Z k * ch + ch))).
    + rewrite <- (Z2Nat.id rows), <- (Z2Nat.id columns) by lia.
      rewrite !count_fraction_strips by assumption.
      rewrite !Z2Nat.id by lia.
      assert (Hx : (inject_Z columns * cw == inject_Z W)%Q).
      { unfold cw. field. intros Hz.
        assert (columns = 0) by (apply inject_Z_injective; exact Hz). lia. }
      assert (Hy : (inject_Z rows * ch == inject_Z H)%Q).
      { unfold ch. field. intros Hz.
        assert (rows = 0) by (apply inject_Z_injective; exact Hz). lia. }
      rewrite (Qltb_comp x _ _ Hx), (Qltb_comp y _ _ Hy).
      by destruct (Qle_bool 0 x && Qltb x (inject_Z W)),
                  (Qle_bool 0 y && Qltb y (inject_Z H)).
    + intros col row. unfold ImageProcessing.covers. simpl. by rewrite andb_assoc.
  - unfold cells, ImageProcessing.cutImageIntoGrid. cbv zeta.
    apply Forall_forall. intros c Hc.
    apply list_elem_of_bind in Hc as (row & Hc & _).
    apply list_elem_of_bind in Hc as (col & Hc & _).
    apply list_elem_of_singleton in Hc as ->. project_cells.
    unfold ImageProcessing.canvasSize. by rewrite <- !Zdiv_Qdiv.
Qed.

Lemma uniform_client_cut_tiles_image_witness :
  let cells := ImageProcessing.cutImageIntoGrid 10 10 3 3 in
  length cells = 9%nat
  /\ coverage cells (inject_Z 9) (inject_Z 9) = 1%nat
  /\ Forall (fun c => ImageProcessing.pixelWidth c = 3
                      /\ ImageProcessing.pixelHeight c = 3) cells.
Proof.
  intros cells.
  destruct (uniform_client_cut_tiles_image 10 10 3 3 ltac:(lia) ltac:(lia)
              ltac:(lia) ltac:(lia)) as (Hlen & Hcov & Hpx).
  split; [exact Hlen|]. split; [|exact Hpx].
  exact (Hcov (inject_Z 9) (inject_Z 9)).
Defined.

(** ** The two cuts of the browser on the regenerated lines *)

Lemma sortNumbers_ascending (l : list Q) :
  Sorted Qle l -> ImageProcessing.sortNumbers l = l.
Proof.
  induction l as [|a l IH]; intros Hs; [reflexivity|].
  apply Sorted_inv in Hs as [Hs Hhd].
  change (ImageProcessing.sortNumbers (a :: l))
    with (ImageProcessing.insertNumber a (ImageProcessing.sortNumbers l)).
  rewrite (IH Hs). destruct l as [|b l]; [reflexivity|].
  apply HdRel_inv in Hhd. apply Qle_bool_iff in Hhd.
  simpl. by rewrite Hhd.
Qed.

Lemma Sorted_fmap_seqZ (f : Z -> Q) (m : nat) (a : Z) :
  (forall i, a <= i -> (f i <= f (i + 1)%Z)%Q) ->
  Sorted Qle (f <$> seqZ a (Z.of_nat m)).
Proof.
  revert a. induction m as [|m IH]; intros a Hmono.
  - rewrite seqZ_nil by lia. constructor.
  - rewrite seqZ_cons by lia. rewrite fmap_cons.
    replace (Z.pred (Z.of_nat (S m))) with (Z.of_nat m) by lia.
    constructor.
    + apply IH. intros i Hi. apply Hmono. lia.
    + destruct m as [|m].
      * rewrite seqZ_nil by lia. constructor.
      * rewrite seqZ_cons by lia. rewrite fmap_cons. constructor.
        replace (Z.succ a) with (a + 1) by lia. apply Hmono. lia.
Qed.

Lemma pushLines_positions (n : Z) (extent : Q) (horizontal : bool) :
  position <$> pushLines n extent horizontal
  = (fun i => (inject_Z i / inject_Z n) * extent)%Q <$> seqZ 1 (n - 1).
Proof. unfold pushLines. rewrite <- list_fmap_compose. reflexivity. Qed.

Lemma pushLines_positions_sorted (n : Z) (extent : Q) (horizontal : bool) :
  0 < n -> (0 <= extent)%Q ->
  Sorted Qle (position <$> pushLines n extent horizontal).
Proof.
  intros Hn Hext. rewrite pushLines_positions.
  destruct (Z.le_gt_cases (n - 1) 0) as [Hle|Hgt].
  - rewrite seqZ_nil by lia. constructor.
  - rewrite <- (Z2Nat.id (n - 1)) by lia.
    apply Sorted_fmap_seqZ. intros i _.
    assert (Hpos : (0 < inject_Z n)%Q).
    { change 0%Q with (inject_Z 0). rewrite <- Zlt_Qlt. lia. }
    assert (Hstep : (inject_Z (i + 1) / inject_Z n
                     == inject_Z i / inject_Z n + 1 / inject_Z n)%Q).
    { rewrite inject_Z_plus. field. lra. }
    rewrite Hstep.
    assert (Hinv : (0 <= 1 / inject_Z n)%Q).
    { apply Qle_shift_div_l; [exact Hpos|]. lra. }
    nra.
Qed.

Lemma filter_pushLines (p : GridLine -> bool) (n : Z) (extent : Q) (horizontal : bool) :
  (forall v, p (mkGridLine v horizontal) = true) ->
  List.filter p (pushLines n extent horizontal) = pushLines n extent horizontal.
Proof.
  intros Hp. unfold pushLines.
  induction (seqZ 1 (n - 1)) as [|i l IH]; [reflexivity|].
  rewrite fmap_cons. simpl. by rewrite Hp, IH.
Qed.

Lemma filter_out_pushLines (p : GridLine -> bool) (n : Z) (extent : Q)
      (horizontal : bool) :
  (forall v, p (mkGridLine v horizontal) = false) ->
  List.filter p (pushLines n extent horizontal) = [].
Proof.
  intros Hp. unfold pushLines.
  induction (seqZ 1 (n - 1)) as [|i l IH]; [reflexivity|].
  rewrite fmap_cons. simpl. by rewrite Hp, IH.
Qed.

(** Boundary number [k] of an axis cut by the regenerated lines is [k]
    times the even cell extent. *)
Lemma even_boundary (n : Z) (extent : Q) (horizontal : bool) (k : nat) :
  0 < n -> (0 <= extent)%Q -> (k <= Z.to_nat n)%nat ->
  (nth k (0%Q :: ImageProcessing.sortNumbers
                   (position <$> pushLines n extent horizontal) ++ [extent]) 0
   == inject_Z (Z.of_nat k) * (extent / inject_Z n))%Q.
Proof.
  intros Hn Hext Hk.
  assert (Hnz : ~ (inject_Z n == 0)%Q).
  { intros Hz. assert (n = 0) by (apply inject_Z_injective; exact Hz). lia. }
  rewrite sortNumbers_ascending by (by apply pushLines_positions_sorted).
  destruct k as [|k].
  - simpl. ring.
  - change (nth (S k) (0%Q :: ?l) 0%Q) with (nth k l 0%Q).
    rewrite nth_lookup.
    replace (Z.of_nat (S k)) with (1 + Z.of_nat k) by lia.
    destruct (Nat.lt_ge_cases k (Z.to_nat (n - 1))) as [Hlt|Hge].
    + rewrite lookup_app_l by (by rewrite length_fmap, length_pushLines).
      rewrite pushLines_positions, list_lookup_fmap, lookup_seqZ_lt by lia.
      simpl. field. exact Hnz.
    + assert (Hlast : k = Z.to_nat (n - 1)) by lia.
      rewrite lookup_app_r by (rewrite length_fmap, length_pushLines; lia).
      rewrite length_fmap, length_pushLines.
      replace (k - Z.to_nat (n - 1))%nat with 0%nat by lia. simpl.
      replace (1 + Z.of_nat k) with n by lia. field. exact Hnz.
Qed.

Lemma sameCell_refl (c : ImageProcessing.DrawnCell) : sameCell c c.
Proof. by repeat split. Qed.

(** X13: for row and column counts that are powers of two (2, 4 and 8
    among the counts the page offers), for which every quotient i/n and
    its product with the integer image size is computed without
    rounding: on the lines the canvas regenerates for these counts, over
    the natural size of the image, the cut along the grid lines emits
    the cells of the uniform cut, in the same order: same source
    rectangle, same canvas size.  So for these counts
    [handleClientSideCut] crops the same cells whichever of its two
    branches it takes, as long as no line has been dragged. *)
Theorem even_lines_cut_as_uniform_grid (W H rows columns : Z) :
  0 < W -> 0 < H ->
  (exists a : nat, rows = 2 ^ Z.of_nat a) ->
  (exists b : nat, columns = 2 ^ Z.of_nat b) ->
  let size := mkImageSize (inject_Z W) (inject_Z H) in
  let uniform := ImageProcessing.cutImageIntoGrid W H rows columns in
  Forall2 sameCell
    (ImageProcessing.cutImageWithGridLines (evenGridLines rows columns size)
       (inject_Z W) (inject_Z H))
    uniform
  /\ (forall s : Home.State,
        Home.rows s = rows -> Home.columns s = columns ->
        Home.imageSize s = size ->
        Home.gridLines s = evenGridLines rows columns size ->
        Forall2 sameCell (Home.handleClientSideCut s W H) uniform).
Proof.
  intros HW HH [a Hpow_rows] [b Hpow_columns] size uniform.
  assert (Hrows : 0 < rows) by (rewrite Hpow_rows; apply Z.pow_pos_nonneg; lia).
  assert (Hcols : 0 < columns)
    by (rewrite Hpow_columns; apply Z.pow_pos_nonneg; lia).
  clear a b Hpow_rows Hpow_columns.
  assert (HWq : (0 <= inject_Z W)%Q).
  { change 0%Q with (inject_Z 0). rewrite <- Zle_Qle. lia. }
  assert (HHq : (0 <= inject_Z H)%Q).
  { change 0%Q with (inject_Z 0). rewrite <- Zle_Qle. lia. }
  set (hb := 0%Q :: ImageProcessing.sortNumbers
                      (position <$> pushLines rows (inject_Z H) true)
                    ++ [inject_Z H]).
  set (vb := 0%Q :: ImageProcessing.sortNumbers
                      (position <$> pushLines columns (inject_Z W) false)
                    ++ [inject_Z W]).
  assert (Hcut : ImageProcessing.cutImageWithGridLines
                   (evenGridLines rows columns size) (inject_Z W) (inject_Z H)
                 = ImageProcessing.cutAlong hb vb).
  { unfold ImageProcessing.cutImageWithGridLines,
      ImageProcessing.horizontalPositions, ImageProcessing.verticalPositions,
      evenGridLines, size. cbn [width height].
    rewrite !List.filter_app.
    rewrite (filter_pushLines isHorizontal _ _ true) by reflexivity.
    rewrite (filter_out_pushLines isHorizontal _ _ false) by reflexivity.
    rewrite (filter_out_pushLines (fun line => negb (isHorizontal line)) _ _ true)
      by reflexivity.
    rewrite (filter_pushLines (fun line => negb (isHorizontal line)) _ _ false)
      by reflexivity.
    by rewrite app_nil_r. }
  assert (Lhb : (length hb - 1 = Z.to_nat rows)%nat).
  { unfold hb. rewrite boundaries_length, length_fmap, length_pushLines. lia. }
  assert (Lvb : (length vb - 1 = Z.to_nat columns)%nat).
  { unfold vb. rewrite boundaries_length, length_fmap, length_pushLines. lia. }
  assert (Hagree : Forall2 sameCell (ImageProcessing.cutAlong hb vb) uniform).
  { apply Forall2_same_length_lookup. split.
    - unfold uniform. rewrite cutAlong_length, cutImageIntoGrid_length.
      by rewrite Lhb, Lvb.
    - intros k c d Hc Hd.
      assert (Hk : (k < Z.to_nat rows * Z.to_nat columns)%nat).
      { apply lookup_lt_Some in Hd. unfold uniform in Hd.
        by rewrite cutImageIntoGrid_length in Hd. }
      set (i := (k / Z.to_nat columns)%nat).
      set (j := (k mod Z.to_nat columns)%nat).
      assert (Hdecomp : k = (i * Z.to_nat columns + j)%nat).
      { unfold i, j. rewrite Nat.mul_comm. apply Nat.div_mod. lia. }
      assert (Hj : (j < Z.to_nat columns)%nat) by (apply Nat.mod_upper_bound; lia).
      assert (Hi : (i < Z.to_nat rows)%nat).
      { apply Nat.Div0.div_lt_upper_bound. lia. }
      pose proof (cutAlong_lookup hb vb i j ltac:(lia) ltac:(lia)) as Hc'.
      rewrite Lvb, <- Hdecomp, Hc in Hc'. apply (inj Some) in Hc'. subst c.
      pose proof (cutImageIntoGrid_lookup W H rows columns (Z.of_nat i) (Z.of_nat j)
                    ltac:(lia) ltac:(lia)) as Hd'.
      replace (Z.to_nat (Z.of_nat i * columns + Z.of_nat j)) with k in Hd' by nia.
      unfold uniform in Hd. rewrite Hd in Hd'. apply (inj Some) in Hd'. subst d.
      pose proof (even_boundary rows (inject_Z H) true i Hrows HHq ltac:(lia)) as Hy0.
      pose proof (even_boundary rows (inject_Z H) true (i + 1) Hrows HHq ltac:(lia))
        as Hy1.
      pose proof (even_boundary columns (inject_Z W) false j Hcols HWq ltac:(lia))
        as Hx0.
      pose proof (even_boundary columns (inject_Z W) false (j + 1) Hcols HWq
                    ltac:(lia)) as Hx1.
      fold hb in Hy0, Hy1. fold vb in Hx0, Hx1.
      replace (Z.of_nat (i + 1)) with (Z.of_nat i + 1) in Hy1 by lia.
      replace (Z.of_nat (j + 1)) with (Z.of_nat j + 1) in Hx1 by lia.
      rewrite inject_Z_plus in Hy1, Hx1.
      assert (Hw : (nth (j + 1) vb 0 - nth j vb 0
                    == inject_Z W / inject_Z columns)%Q).
      { rewrite Hx0, Hx1. ring. }
      assert (Hh : (nth (i + 1) hb 0 - nth i hb 0
                    == inject_Z H / inject_Z rows)%Q).
      { rewrite Hy0, Hy1. ring. }
      unfold sameCell, ImageProcessing.drawCell, ImageProcessing.canvasSize.
      project_cells.
      split; [exact Hx0|]. split; [exact Hy0|].
      split; [exact Hw|]. split; [exact Hh|].
      split; apply Qfloor_comp; assumption. }
  split.
  - by rewrite Hcut.
  - intros s Hr Hc Hsize Hlines. unfold Home.handleClientSideCut.
    destruct ((0 <? Z.of_nat (length (Home.gridLines s)))
              && Qltb 0 (width (Home.imageSize s))
              && Qltb 0 (height (Home.imageSize s))).
    + rewrite Hlines, Hsize. cbn [width height size]. by rewrite Hcut.
    + rewrite Hr, Hc. apply Forall_Forall2_diag, Forall_forall.
      intros c _. apply sameCell_refl.
Qed.

Lemma even_lines_cut_as_uniform_grid_witness :
  let page := App.page (Scenario.after [App.ImageUploaded "blob:picture";
                                        App.ImageLoaded 300 200;
                                        App.GridChanged 4 8]) in
  length (Home.gridLines page) = 10%nat
  /\ Forall2 sameCell (Home.handleClientSideCut page 300 200)
                      (ImageProcessing.cutImageIntoGrid 300 200 4 8).
Proof.
  intros page. split; [reflexivity|].
  apply (even_lines_cut_as_uniform_grid 300 200 4 8 ltac:(lia) ltac:(lia)
           ltac:(by exists 2%nat) ltac:(by exists 3%nat)); reflexivity.
Defined.

(** ** The payload of a data URL *)

Lemma app_String (c : ascii) (s t : string) :
  String c s +:+ t = String c (s +:+ t).
Proof. reflexivity. Qed.

Lemma untilComma_commaFree (payload : string) :
  commaFree payload = true -> ImageProcessing.untilComma payload = payload.
Proof.
  induction payload as [|c payload IH]; intros Hfree; [reflexivity|].
  simpl in *. apply andb_true_iff in Hfree as [Hc Hfree].
  apply negb_true_iff in Hc. rewrite Hc. by rewrite IH.
Qed.

Lemma untilComma_field (payload rest : string) :
  commaFree payload = true ->
  ImageProcessing.untilComma (payload +:+ String ImageProcessing.comma rest) = payload.
Proof.
  induction payload as [|c payload IH]; intros Hfree; [reflexivity|].
  rewrite app_String. simpl in *. apply andb_true_iff in Hfree as [Hc Hfree].
  apply negb_true_iff in Hc. rewrite Hc. by rewrite IH.
Qed.

Lemma afterComma_commaFree (header : string) :
  commaFree header = true -> ImageProcessing.afterComma header = None.
Proof.
  induction header as [|c header IH]; intros Hfree; [reflexivity|].
  simpl in *. apply andb_true_iff in Hfree as [Hc Hfree].
  apply negb_true_iff in Hc. rewrite Hc. by apply IH.
Qed.

Lemma afterComma_header (header tail : string) :
  commaFree header = true ->
  ImageProcessing.afterComma (header +:+ String ImageProcessing.comma tail) = Some tail.
Proof.
  induction header as [|c header IH]; intros Hfree; [reflexivity|].
  rewrite app_String. simpl in *. apply andb_true_iff in Hfree as [Hc Hfree].
  apply negb_true_iff in Hc. rewrite Hc. by apply IH.
Qed.

Lemma secondField_payload (header payload : string) :
  commaFree header = true -> commaFree payload = true ->
  ImageProcessing.secondField (header +:+ String ImageProcessing.comma payload)
  = Some payload.
Proof.
  intros Hh Hp. unfold ImageProcessing.secondField.
  rewrite afterComma_header by exact Hh. simpl. by rewrite untilComma_commaFree.
Qed.

(** X14: what the packager decodes of a data URL.  The field after the
    first comma is taken up to the next comma, so a URL made of a header,
    a comma and a payload gives its payload, and anything after a second
    comma is dropped; a string without a comma has no second field, and
    the packager then hands the text [undefined] to [atob]. *)
Theorem secondField_of_data_url (header payload : string) :
  commaFree header = true -> commaFree payload = true ->
  ImageProcessing.secondField (header +:+ String ImageProcessing.comma payload)
  = Some payload
  /\ (forall rest,
        ImageProcessing.secondField
          (header +:+ String ImageProcessing.comma
                        (payload +:+ String ImageProcessing.comma rest))
        = Some payload)
  /\ ImageProcessing.secondField header = None
  /\ (forall (atob : string -> option (list ascii)),
        ImageProcessing.addImages atob [header] 0 ∅
        = (fun blob => {[ "image_1.png" := blob ]})
            <$> ImageProcessing.b64toBlob atob "undefined").
Proof.
  intros Hh Hp. split; [by apply secondField_payload|]. split; [|split].
  - intros rest. unfold ImageProcessing.secondField.
    rewrite afterComma_header by exact Hh. simpl. by rewrite untilComma_field.
  - unfold ImageProcessing.secondField. by rewrite afterComma_commaFree.
  - intros atob. simpl.
    unfold ImageProcessing.secondField. rewrite afterComma_commaFree by exact Hh.
    simpl. destruct (ImageProcessing.b64toBlob atob "undefined"); reflexivity.
Qed.

Lemma secondField_of_data_url_witness :
  ImageProcessing.secondField "data:image/png;base64,QUJD" = Some "QUJD"
  /\ ImageProcessing.secondField "data:image/png;base64" = None.
Proof.
  destruct (secondField_of_data_url "data:image/png;base64" "QUJD" eq_refl eq_refl)
    as (Hp & _ & Hn & _).
  split; [exact Hp|exact Hn].
Defined.

(** ** The slices of a blob *)

Lemma sliceLoop_app (fuel offset sliceSize : nat) (chars : list ascii)
      (byteArrays : list (list N)) :
  ImageProcessing.sliceLoop fuel offset sliceSize chars byteArrays
  = byteArrays ++ ImageProcessing.sliceLoop fuel offset sliceSize chars [].
Proof.
  revert offset byteArrays. induction fuel as [|fuel IH]; intros offset byteArrays.
  - simpl. by rewrite app_nil_r.
  - simpl. destruct (offset <? length chars)%nat; [|by rewrite app_nil_r].
    rewrite (IH _ (byteArrays ++ _)), (IH _ [_]). by rewrite <- app_assoc.
Qed.

Lemma sliceLoop_parts (fuel offset sliceSize : nat) (chars : list ascii) :
  (0 < sliceSize)%nat -> (length chars <= offset + fuel)%nat ->
  let parts := ImageProcessing.sliceLoop fuel offset sliceSize chars [] in
  Forall (fun part => (0 < length part <= sliceSize)%nat) parts
  /\ (length parts * sliceSize < length chars - offset + sliceSize)%nat
  /\ (length chars - offset <= length parts * sliceSize)%nat.
Proof.
  intros Hsz. revert offset.
  induction fuel as [|fuel IH]; intros offset Hfuel; simpl.
  - split; [constructor|]. simpl. lia.
  - destruct (Nat.ltb_spec offset (length chars)) as [Hlt|Hge].
    + rewrite sliceLoop_app.
      destruct (IH (offset + sliceSize)%nat ltac:(lia)) as (Hall & Hup & Hlow).
      split; [|split].
      * apply Forall_app. split; [|exact Hall].
        constructor; [|constructor].
        rewrite length_fmap, length_take, length_drop. lia.
      * rewrite length_app. simpl.
        destruct (length (ImageProcessing.sliceLoop fuel (offset + sliceSize)
                            sliceSize chars [])); simpl in *; lia.
      * rewrite length_app. simpl. lia.
    + split; [constructor|]. simpl. lia.
Qed.

(** X15: the slice loop of [b64toBlob], for any positive slice size,
    cuts the decoded string into ceil(length / sliceSize) parts, none
    empty and none longer than the slice size, whose concatenation is the
    character codes of the string in order.  The blob is therefore the
    decoded bytes, and [b64toBlob] fails exactly when [atob] throws. *)
Theorem sliceLoop_chunks (sliceSize : nat) (chars : list ascii) :
  (0 < sliceSize)%nat ->
  let parts := ImageProcessing.sliceLoop (length chars) 0 sliceSize chars [] in
  concat parts = N_of_ascii <$> chars
  /\ Forall (fun part => (0 < length part <= sliceSize)%nat) parts
  /\ length parts = ((length chars + sliceSize - 1) / sliceSize)%nat
  /\ (forall (atob : string -> option (list ascii)) (b64Data : string),
        atob b64Data = Some chars ->
        ImageProcessing.b64toBlob atob b64Data = Some (N_of_ascii <$> chars))
  /\ (forall (atob : string -> option (list ascii)) (b64Data : string),
        atob b64Data = None -> ImageProcessing.b64toBlob atob b64Data = None).
Proof.
  intros Hsz parts.
  destruct (sliceLoop_parts (length chars) 0 sliceSize chars Hsz ltac:(lia))
    as (Hall & Hup & Hlow).
  fold parts in Hall, Hup, Hlow.
  split; [|split; [|split; [|split]]].
  - unfold parts. rewrite sliceLoop_concat by lia. reflexivity.
  - exact Hall.
  - apply (Nat.div_unique _ _ _ (length chars + sliceSize - 1
                                           - length parts * sliceSize)%nat); lia.
  - intros atob b64Data Hdecoded. rewrite b64toBlob_bytes, Hdecoded. reflexivity.
  - intros atob b64Data Hthrows. rewrite b64toBlob_bytes, Hthrows. reflexivity.
Qed.

Lemma sliceLoop_chunks_witness :
  let chars := list_ascii_of_string "picture" in
  let parts := ImageProcessing.sliceLoop 7 0 3 chars [] in
  concat parts = N_of_ascii <$> chars
  /\ length parts = 3%nat.
Proof.
  intros chars parts.
  destruct (sliceLoop_chunks 3 chars ltac:(lia)) as (Hcat & _ & Hlen & _).
  split; [exact Hcat|exact Hlen].
Defined.

(** ** Cutting, then downloading *)

Lemma decodableUrl_payload (atob : string -> option (list ascii)) (dataUrl : string) :
  decodableUrl atob dataUrl ->
  is_Some (atob (default "undefined" (ImageProcessing.secondField dataUrl))).
Proof.
  intros (header & payload & -> & Hh & Hp & Hdecoded).
  by rewrite secondField_payload.
Qed.

(** X16: a client-side cut followed by a download.  On a page with an
    image URL, when every cell is encoded as a data URL whose payload
    [atob] decodes, the cut marks the download ready and stores one
    image per cell; the download then saves [grid-images.zip] with one
    entry per cell, entry [image_(k+1).png] holding the decoded payload
    of cell k.  When the cut produced no cell the download does
    nothing, although it is marked ready. *)
Theorem cut_then_download
      (toDataURL : ImageProcessing.DrawnCell -> string)
      (atob : string -> option (list ascii))
      (s : Home.State) (imgWidth imgHeight : Z) :
  Home.falsyUrl (Home.imageUrl s) = false ->
  (forall cell, decodableUrl atob (toDataURL cell)) ->
  let cells := Home.handleClientSideCut s imgWidth imgHeight in
  let cut := PageActions.handleClientSideCut toDataURL s imgWidth imgHeight in
  Home.downloadReady cut = true
  /\ Home.gridImages cut = toDataURL <$> cells
  /\ (cells = [] ->
      PageActions.handleDownload atob cut = PageActions.nothing_to_download)
  /\ (cells <> [] ->
      exists archive,
        PageActions.handleDownload atob cut
        = PageActions.saved archive "grid-images.zip"
        /\ size archive = length cells
        /\ (forall k cell, cells !! k = Some cell ->
              exists chars,
                atob (default "undefined"
                        (ImageProcessing.secondField (toDataURL cell))) = Some chars
                /\ archive !! ImageProcessing.entryName (Z.of_nat k + 1)
                   = Some (N_of_ascii <$> chars))).
Proof.
  intros Hurl Hdecodable cells cut.
  assert (Hcut : cut = Home.mkState (Home.imageUrl s) (Home.rows s) (Home.columns s)
                         (Home.gridLines s) (Home.imageSize s) true
                         (toDataURL <$> cells)).
  { unfold cut, PageActions.handleClientSideCut. by rewrite Hurl. }
  rewrite Hcut. cbn [Home.downloadReady Home.gridImages].
  split; [reflexivity|]. split; [reflexivity|]. split.
  - intros ->. reflexivity.
  - intros Hcells. unfold PageActions.handleDownload. cbn [Home.gridImages].
    destruct (client_archive atob (toDataURL <$> cells) "grid-images")
      as (archive & Hzip & Hsize & Hlook & _).
    { apply Forall_fmap, Forall_forall. intros cell _.
      apply decodableUrl_payload, Hdecodable. }
    exists archive. rewrite Hzip, length_fmap.
    destruct cells as [|cell cells']; [done|]. simpl length.
    split; [reflexivity|]. split; [by rewrite Hsize, length_fmap|].
    intros k c Hk. apply (Hlook k). by rewrite list_lookup_fmap, Hk.
Qed.

Lemma cut_then_download_witness :
  let toDataURL := fun _ : ImageProcessing.DrawnCell => "data:image/png;base64,QUJD" in
  let atob := fun payload : string => Some (list_ascii_of_string payload) in
  let cut := PageActions.handleClientSideCut toDataURL (App.page Scenario.dragged)
               300 300 in
  Home.downloadReady cut = true
  /\ exists archive,
       PageActions.handleDownload atob cut = PageActions.saved archive "grid-images.zip"
       /\ size archive = 9%nat
       /\ archive !! "image_9.png" = Some [81; 85; 74; 68]%N.
Proof.
  intros toDataURL atob cut.
  destruct (cut_then_download toDataURL atob (App.page Scenario.dragged) 300 300)
    as (Hready & _ & _ & Hsaved).
  { reflexivity. }
  { intros cell. exists "data:image/png;base64", "QUJD".
    repeat split. by eexists. }
  split; [exact Hready|].
  destruct Hsaved as (archive & Hdl & Hsize & Hlook).
  { intros Hnil. apply (f_equal length) in Hnil. vm_compute in Hnil. discriminate. }
  assert (Hlen : length (Home.handleClientSideCut (App.page Scenario.dragged) 300 300)
                 = 9%nat) by (vm_compute; reflexivity).
  exists archive. split; [exact Hdl|]. split; [by rewrite Hsize|].
  destruct (lookup_lt_is_Some_2
              (Home.handleClientSideCut (App.page Scenario.dragged) 300 300) 8%nat
              ltac:(rewrite Hlen; lia)) as [cell Hcell].
  destruct (Hlook 8%nat cell Hcell) as (chars & Hchars & Hentry).
  injection Hchars as <-. exact Hentry.
Defined.

Lemma deliver_keeps_images (n : option Notification) (p : Home.State) :
  Home.gridImages (App.deliver n p) = Home.gridImages p
  /\ Home.downloadReady (App.deliver n p) = Home.downloadReady p.
Proof. by destruct n. Qed.

Lemma images_step (s s' : App.State) (ev : App.Event) :
  isUpload ev = false -> App.step s ev = Some s' ->
  Home.gridImages (App.page s') = Home.gridImages (App.page s)
  /\ Home.downloadReady (App.page s') = Home.downloadReady (App.page s).
Proof.
  intros Hev Hstep. destruct ev; try discriminate; simpl in Hstep.
  - injection Hstep as <-. unfold App.runRegenerate.
    destruct (GridCanvas.regenerate _ _) as [c n]. apply deliver_keeps_images.
  - injection Hstep as <-. unfold App.runRegenerate.
    destruct (GridCanvas.regenerate _ _) as [c n].
    cbn [App.page]. by destruct n.
  - by injection Hstep as <-.
  - destruct (GridCanvas.handleMouseMove (App.canvas s) e) as [[c n]|];
      [|discriminate].
    injection Hstep as <-. apply deliver_keeps_images.
  - by injection Hstep as <-.
  - by injection Hstep as <-.
  - injection Hstep as <-. cbn [App.page]. unfold Home.handleResetGrid.
    by destruct (Qeq_bool (width (Home.imageSize (App.page s))) 0
                 || Qeq_bool (height (Home.imageSize (App.page s))) 0
                 || Home.falsyUrl (Home.imageUrl (App.page s))).
Qed.

(** X17: the images of a cut outlive every later interaction with the
    grid.  Over any run of events without a new upload (image load,
    change of the counts, pointer events, grid reset), the page keeps
    its images and its ready flag, so the download packs the cut made
    before the lines moved.  An upload or [resetImage] empties them,
    after which the download does nothing. *)
Theorem images_outlive_grid_edits
      (atob : string -> option (list ascii))
      (evs : list App.Event) (s s' : App.State) :
  Forall (fun ev => isUpload ev = false) evs ->
  App.run s evs = Some s' ->
  (Home.gridImages (App.page s') = Home.gridImages (App.page s)
   /\ Home.downloadReady (App.page s') = Home.downloadReady (App.page s)
   /\ PageActions.handleDownload atob (App.page s')
      = PageActions.handleDownload atob (App.page s))
  /\ (forall url s'',
        App.step s' (App.ImageUploaded url) = Some s'' ->
        PageActions.handleDownload atob (App.page s'')
        = PageActions.nothing_to_download)
  /\ PageActions.handleDownload atob (PageActions.resetImage (App.page s'))
     = PageActions.nothing_to_download.
Proof.
  intros Hevs Hrun.
  assert (Hkept : Home.gridImages (App.page s') = Home.gridImages (App.page s)
                  /\ Home.downloadReady (App.page s')
                     = Home.downloadReady (App.page s)).
  { apply (run_invariant
             (fun t => Home.gridImages (App.page t) = Home.gridImages (App.page s)
                       /\ Home.downloadReady (App.page t)
                          = Home.downloadReady (App.page s))
             (fun ev => isUpload ev = false)) with (evs := evs) (s := s);
      [|by split|exact Hevs|exact Hrun].
    intros t ev t' [Himg Hready] Hev Hstep.
    destruct (images_step t t' ev Hev Hstep) as [Himg' Hready'].
    split; congruence. }
  destruct Hkept as [Himg Hready].
  split; [|split].
  - split; [exact Himg|]. split; [exact Hready|].
    unfold PageActions.handleDownload. by rewrite Himg.
  - intros url s'' Hstep. simpl in Hstep. by injection Hstep as <-.
  - reflexivity.
Qed.

Lemma images_outlive_grid_edits_witness :
  let atob := fun payload : string => Some (list_ascii_of_string payload) in
  let cut := App.mkState
               (PageActions.handleClientSideCut (fun _ => "data:,QUJD")
                  (App.page Scenario.loaded) 300 300)
               (App.canvas Scenario.loaded) in
  let edits := [App.MouseDown (Scenario.pointerAt 100 50);
                App.MouseMove (Scenario.pointerAt 500 50); App.MouseUp;
                App.GridChanged 2 2; App.ResetGrid] in
  exists s',
    App.run cut edits = Some s'
    /\ length (Home.gridLines (App.page s')) = 2%nat
    /\ length (Home.gridImages (App.page s')) = 9%nat
    /\ PageActions.handleDownload atob (App.page s')
       = PageActions.handleDownload atob (App.page cut).
Proof.
  intros atob cut edits.
  destruct (App.run cut edits) as [s'|] eqn:Hrun; [|vm_compute in Hrun; discriminate].
  exists s'. split; [reflexivity|].
  destruct (images_outlive_grid_edits atob edits cut s') as ((Himg & _ & Hdl) & _).
  { repeat constructor. }
  { exact Hrun. }
  split; [|split; [|exact Hdl]].
  - vm_compute in Hrun. injection Hrun as <-. reflexivity.
  - rewrite Himg. reflexivity.
Defined.
